(** * Health Tracker (project.py): a shallow embedding and its properties

    The program records daily health metrics in an in-memory list of
    [Entry] records and derives a moving average and a trailing 7-day
    summary; it also exports the list as CSV.

    Conventions of the embedding.
    - A Python [str] is a [string]; a character is a code point below 256,
      so [strip], [lower] and the digit class are the ones of that range.
    - A Python [float] is a binary64 [PrimFloat.float].
    - A raising call returns [inl] of the exception, a returning one [inr]
      of its value ([result]); [add_entry], the one function that mutates
      its argument, also returns the list as it is left.
    - [datetime.strptime(s, "%Y-%m-%d")] yields a datetime at midnight; it
      is represented by its proleptic Gregorian ordinal (day 1 is
      0001-01-01), which carries the order of datetimes and their
      difference in days, the only two things the program uses.
    - The library calls the program makes ([strptime], [sorted], [sum],
      [min], [max], [open], the [csv] writer and reader) are modelled by
      what CPython does, version 3.11 where versions differ; the parser of
      float literals and the printer of floats stay parameters. *)

From Stdlib Require Import ZArith Ascii String DecimalString List Bool Lia.
From Stdlib Require Import PrimFloat SpecFloat FloatOps Uint63.
From Stdlib Require Import Sorting.Permutation Sorting.Sorted.
From stdpp Require Import base decidable option list sorting strings.

Open Scope string_scope.
Open Scope list_scope.
Open Scope Z_scope.

(** ** Exceptions and results *)

Inductive exn : Set :=
| ValueError
| OverflowError
| ZeroDivisionError
| IndexError
| TypeError
| OSError
| CsvError.

Definition result (A : Type) : Type := (exn + A)%type.

Definition ret {A} (a : A) : result A := inr a.
Definition raise {A} (e : exn) : result A := inl e.

Definition bind {A B} (m : result A) (k : A -> result B) : result B :=
  match m with
  | inl e => inl e
  | inr a => k a
  end.

Notation "x <- m ;; k" := (bind m (fun x => k))
  (at level 100, m at next level, right associativity).

(** [try: ... except Exception as exc: raise ValueError(...)]: whatever the
    body raises is raised again as a [ValueError]. *)
Definition reraise_as_ValueError {A} (m : result A) : result A :=
  match m with
  | inl _ => inl ValueError
  | inr a => inr a
  end.

(** [for x in l: acc = f(acc, x)] where the body may raise. *)
Fixpoint foldM {A B} (f : B -> A -> result B) (l : list A) (acc : B) : result B :=
  match l with
  | [] => ret acc
  | x :: l' => acc' <- f acc x ;; foldM f l' acc'
  end.

(** [[f(x) for x in l]] where [f] may raise: the first failure wins. *)
Fixpoint mapM {A B} (f : A -> result B) (l : list A) : result (list B) :=
  match l with
  | [] => ret []
  | x :: l' => y <- f x ;; ys <- mapM f l' ;; ret (y :: ys)
  end.

(** ** Characters and strings *)

Definition code (c : ascii) : Z := Z.of_N (N_of_ascii c).

(** [str.isspace] on one character below 256. *)
Definition isspace (c : ascii) : bool :=
  let n := code c in
  ((9 <=? n) && (n <=? 13)) || ((28 <=? n) && (n <=? 32))
  || (n =? 133) || (n =? 160).

(** [str.lower] on one character below 256: A-Z, and the Latin-1 capitals
    0xC0-0xDE except the multiplication sign 0xD7. *)
Definition lower_char (c : ascii) : ascii :=
  let n := code c in
  if ((65 <=? n) && (n <=? 90))
     || ((192 <=? n) && (n <=? 222) && negb (n =? 215))
  then ascii_of_N (Z.to_N (n + 32))
  else c.

Fixpoint lstrip_chars (l : list ascii) : list ascii :=
  match l with
  | c :: l' => if isspace c then lstrip_chars l' else l
  | [] => []
  end.

Definition strip_chars (l : list ascii) : list ascii :=
  reverse (lstrip_chars (reverse (lstrip_chars l))).

(** [s.strip()] *)
Definition strip (s : string) : string :=
  string_of_list_ascii (strip_chars (list_ascii_of_string s)).

(** [s.lower()] *)
Definition lower (s : string) : string :=
  string_of_list_ascii (map lower_char (list_ascii_of_string s)).

(** [metric.strip().lower()] *)
Definition normalize (metric : string) : string := lower (strip metric).

(** ** Dates: [datetime.strptime(s, DATE_FMT)] with [DATE_FMT = "%Y-%m-%d"]

    [_strptime] turns the format into the regular expression
    [(?P<Y>\d\d\d\d)-(?P<m>1[0-2]|0[1-9]|[1-9])-(?P<d>3[01]|[12]\d|0[1-9]|[1-9]| [1-9])],
    matches it at the start of the string (alternatives in order, with
    backtracking), raises [ValueError] when it does not match or when
    unconverted data remains, and builds the date, which raises
    [ValueError] for year 0 and for a day the month does not have. *)

Definition is_digit (c : ascii) : bool := (48 <=? code c) && (code c <=? 57).

Definition in_range (lo hi : Z) (c : ascii) : bool :=
  (lo <=? code c) && (code c <=? hi).

Definition digit_val (c : ascii) : Z := code c - 48.

(** [(?P<Y>\d\d\d\d)]: the value and the rest. *)
Definition match_Y (l : list ascii) : option (Z * list ascii) :=
  match l with
  | a :: b :: c :: d :: rest =>
      if is_digit a && is_digit b && is_digit c && is_digit d
      then Some (1000 * digit_val a + 100 * digit_val b
                 + 10 * digit_val c + digit_val d, rest)
      else None
  | _ => None
  end.

(** Every way [(?P<m>1[0-2]|0[1-9]|[1-9])] matches a prefix, in the
    order the regular expression engine tries them. *)
Definition match_m (l : list ascii) : list (Z * list ascii) :=
  (match l with
   | a :: b :: rest =>
       if in_range 49 49 a && in_range 48 50 b
       then [(10 + digit_val b, rest)] else []
   | _ => []
   end) ++
  (match l with
   | a :: b :: rest =>
       if in_range 48 48 a && in_range 49 57 b
       then [(digit_val b, rest)] else []
   | _ => []
   end) ++
  (match l with
   | a :: rest => if in_range 49 57 a then [(digit_val a, rest)] else []
   | _ => []
   end).

(** Every way [(?P<d>3[0-1]|[1-2]\d|0[1-9]|[1-9]| [1-9])] matches a
    prefix, in order. *)
Definition match_d (l : list ascii) : list (Z * list ascii) :=
  (match l with
   | a :: b :: rest =>
       if in_range 51 51 a && in_range 48 49 b
       then [(30 + digit_val b, rest)] else []
   | _ => []
   end) ++
  (match l with
   | a :: b :: rest =>
       if in_range 49 50 a && is_digit b
       then [(10 * digit_val a + digit_val b, rest)] else []
   | _ => []
   end) ++
  (match l with
   | a :: b :: rest =>
       if in_range 48 48 a && in_range 49 57 b
       then [(digit_val b, rest)] else []
   | _ => []
   end) ++
  (match l with
   | a :: rest => if in_range 49 57 a then [(digit_val a, rest)] else []
   | _ => []
   end) ++
  (match l with
   | a :: b :: rest =>
       if in_range 32 32 a && in_range 49 57 b
       then [(digit_val b, rest)] else []
   | _ => []
   end).

(** The literal [-] of the format. *)
Definition match_dash (l : list ascii) : option (list ascii) :=
  match l with
  | c :: rest => if code c =? 45 then Some rest else None
  | [] => None
  end.

(** The first alternative whose continuation succeeds. *)
Fixpoint first_match {A B} (alts : list A) (k : A -> option B) : option B :=
  match alts with
  | [] => None
  | a :: alts' =>
      match k a with
      | Some b => Some b
      | None => first_match alts' k
      end
  end.

(** [format_regex.match(data_string)]: year, month, day and what is left
    of the string after the match. *)
Definition regex_match (l : list ascii) : option (Z * Z * Z * list ascii) :=
  match match_Y l with
  | None => None
  | Some (y, r1) =>
      match match_dash r1 with
      | None => None
      | Some r2 =>
          first_match (match_m r2) (fun '(m, r3) =>
            match match_dash r3 with
            | None => None
            | Some r4 =>
                first_match (match_d r4) (fun '(d, r5) => Some (y, m, d, r5))
            end)
      end
  end.

(** [datetime.py]: [_is_leap], [_days_in_month], [_days_before_year],
    [_days_before_month], [_ymd2ord]. *)
Definition is_leap (y : Z) : bool :=
  (y mod 4 =? 0) && (negb (y mod 100 =? 0) || (y mod 400 =? 0)).

Definition days_in_month (y m : Z) : Z :=
  if (m =? 2) && is_leap y then 29
  else nth (Z.to_nat m) [0; 31; 28; 31; 30; 31; 30; 31; 31; 30; 31; 30; 31] 0.

Definition days_before_year (y : Z) : Z :=
  let y1 := y - 1 in
  y1 * 365 + y1 / 4 - y1 / 100 + y1 / 400.

Definition days_before_month (y m : Z) : Z :=
  nth (Z.to_nat m) [0; 0; 31; 59; 90; 120; 151; 181; 212; 243; 273; 304; 334] 0
  + (if (2 <? m) && is_leap y then 1 else 0).

Definition ymd2ord (y m d : Z) : Z :=
  days_before_year y + days_before_month y m + d.

Definition MINYEAR : Z := 1.
Definition MAXYEAR : Z := 9999.
Definition MAXORDINAL : Z := 3652059.

(** [datetime(year, month, day)]: the field checks of the constructor. *)
Definition check_date_fields (y m d : Z) : bool :=
  (MINYEAR <=? y) && (y <=? MAXYEAR) && (1 <=? m) && (m <=? 12)
  && (1 <=? d) && (d <=? days_in_month y m).

(** A datetime at midnight, as its ordinal. *)
Definition datetime := Z.

(** [datetime.strptime(s, DATE_FMT)] as an option. *)
Definition parse_date (s : string) : option datetime :=
  match regex_match (list_ascii_of_string s) with
  | Some (y, m, d, []) =>
      if check_date_fields y m d then Some (ymd2ord y m d) else None
  | _ => None
  end.

(** [datetime.strptime(s, DATE_FMT)]: every failure is a [ValueError]. *)
Definition strptime (s : string) : result datetime :=
  match parse_date s with
  | Some dt => ret dt
  | None => raise ValueError
  end.

(** [dt - timedelta(days=n)]: [OverflowError] outside 0001-01-01 .. 9999-12-31. *)
Definition sub_days (dt : datetime) (n : Z) : result datetime :=
  let o := dt - n in
  if (0 <? o) && (o <=? MAXORDINAL) then ret o else raise OverflowError.

(** ** Floats *)

Abbreviation float := PrimFloat.float.

(** [float(n)] for an [int]: the nearest binary64, ties to even;
    [OverflowError] when the integer is too large. *)
Definition float_of_int (n : Z) : result float :=
  let f := FloatOps.SF2Prim
             (SpecFloat.binary_normalize FloatOps.prec FloatOps.emax n 0 false) in
  if PrimFloat.is_infinity f then raise OverflowError else ret f.

(** [float(len(l))]: a length is below 2^63. *)
Definition float_of_len (n : nat) : float :=
  PrimFloat.of_uint63 (Uint63.of_Z (Z.of_nat n)).

(** [sum(l)] on floats, as CPython computes it up to version 3.11: the
    running total starts at 0 and each element is added in turn, each
    addition rounded. From 3.12 on [sum] also carries a compensation term
    for the rounding errors, and a sum can differ in its last bits. The
    theorems speak of sums through [py_sum] and [mean]; apart from
    examples that evaluate a sum, no proof looks into how it is rounded. *)
Definition py_sum (l : list float) : float :=
  fold_left PrimFloat.add l PrimFloat.zero.

(** [x / n] for a float [x] and an [int] [n >= 0]. *)
Definition truediv_len (x : float) (n : nat) : result float :=
  match n with
  | O => raise ZeroDivisionError
  | S _ => ret (PrimFloat.div x (float_of_len n))
  end.

(** [min] and [max] of a candidate and the elements that follow it: a
    later element replaces the candidate when it compares strictly below
    (above) it. *)
Definition float_min (x : float) (l : list float) : float :=
  fold_left (fun cur y => if PrimFloat.ltb y cur then y else cur) l x.

Definition float_max (x : float) (l : list float) : float :=
  fold_left (fun cur y => if PrimFloat.ltb cur y then y else cur) l x.

(** [min(l)] and [max(l)]: [ValueError] on an empty list. *)
Definition py_min (l : list float) : result float :=
  match l with
  | [] => raise ValueError
  | x :: l' => ret (float_min x l')
  end.

Definition py_max (l : list float) : result float :=
  match l with
  | [] => raise ValueError
  | x :: l' => ret (float_max x l')
  end.

(** ** The data model *)

Record Entry : Set := mkEntry {
  date : string;   (* YYYY-MM-DD *)
  metric : string;
  value : float
}.

(** What a caller may pass as [value]. *)
Inductive pyvalue : Set :=
| VFloat (f : float)
| VInt (n : Z)
| VStr (s : string)
| VNone.

Section AddEntry.

(** [float(s)] for a [str]: the built-in's parser of float literals,
    [None] when it raises [ValueError]. *)
Variable float_of_str : string -> option float.

(** [float(v)] *)
Definition py_float (v : pyvalue) : result float :=
  match v with
  | VFloat f => ret f
  | VInt n => float_of_int n
  | VStr s =>
      match float_of_str s with
      | Some f => ret f
      | None => raise ValueError
      end
  | VNone => raise TypeError
  end.

(** [add_entry(entries, date, metric, value)]: the list as it is left,
    and the outcome of the call. *)
Definition add_entry (entries : list Entry) (date metric : string)
    (value : pyvalue) : list Entry * result Entry :=
  match reraise_as_ValueError (strptime date) with
  | inl e => (entries, raise e)
  | inr _ =>
      match reraise_as_ValueError (py_float value) with
      | inl e => (entries, raise e)
      | inr value_f =>
          let entry := mkEntry date (lower (strip metric)) value_f in
          (entries ++ [entry], ret entry)
      end
  end.

End AddEntry.

(** A fragment of [float(s)], enough to run examples: a non-empty run of
    decimal digits is the integer it writes, rounded to the nearest
    float; this fragment rejects every other string. *)
Definition float_of_digits (s : string) : option float :=
  let l := list_ascii_of_string s in
  match l with
  | [] => None
  | _ :: _ =>
      if forallb is_digit l
      then Some (FloatOps.SF2Prim
                   (SpecFloat.binary_normalize FloatOps.prec FloatOps.emax
                      (fold_left (fun acc c => 10 * acc + digit_val c) l 0) 0 false))
      else None
  end.

(** ** Built-ins on lists and dicts *)

(** [l[i]] for [i >= 0]. *)
Definition py_index {A} (l : list A) (i : nat) : result A :=
  match l !! i with
  | Some x => ret x
  | None => raise IndexError
  end.

(** One bound of a slice: a negative bound counts from the end, and the
    bound is clipped to [0 .. len]. *)
Definition slice_bound (len i : Z) : Z :=
  let i := if i <? 0 then i + len else i in
  Z.max 0 (Z.min len i).

(** [l[a:b]] *)
Definition py_slice {A} (l : list A) (a b : Z) : list A :=
  let len := Z.of_nat (length l) in
  let a := slice_bound len a in
  let b := slice_bound len b in
  take (Z.to_nat (b - a)) (drop (Z.to_nat a) l).

(** [sorted(l, key=key)] for string keys: a stable sort that compares keys
    with [<]. An element is put in front of the sorted rest, behind the
    elements whose key is strictly smaller. *)
Fixpoint sorted_insert {A} (key : A -> string) (x : A) (l : list A) : list A :=
  match l with
  | [] => [x]
  | y :: l' =>
      if String.ltb (key y) (key x)
      then y :: sorted_insert key x l'
      else x :: y :: l'
  end.

Fixpoint py_sorted {A} (key : A -> string) (l : list A) : list A :=
  match l with
  | [] => []
  | x :: l' => sorted_insert key x (py_sorted key l')
  end.

(** A [dict] with [str] keys: the pairs in insertion order, keys distinct. *)
Definition dict (V : Type) : Type := list (string * V).

(** [d.get(k)] *)
Fixpoint dict_get {V} (k : string) (d : dict V) : option V :=
  match d with
  | [] => None
  | (k', v) :: d' => if decide (k' = k) then Some v else dict_get k d'
  end.

(** [d[k] = v]: a present key keeps its place and takes the new value, a
    new key goes last. *)
Fixpoint dict_set {V} (k : string) (v : V) (d : dict V) : dict V :=
  match d with
  | [] => [(k, v)]
  | (k', v') :: d' =>
      if decide (k' = k) then (k, v) :: d' else (k', v') :: dict_set k v d'
  end.

(** ** [moving_average] *)

(** The body of [for i in range(len(numbers))]. *)
Definition ma_body (window : Z) (numbers : list float) (dates : list string)
    (results : dict float) (i : nat) : result (dict float) :=
  if Z.of_nat i + 1 >=? window then
    let window_vals := py_slice numbers (Z.of_nat i - window + 1) (Z.of_nat i + 1) in
    avg <- truediv_len (py_sum window_vals) (length window_vals) ;;
    d <- py_index dates i ;;
    ret (dict_set d avg results)
  else ret results.

Definition moving_average (entries : list Entry) (metric_arg : string)
    (window : Z) : result (dict float) :=
  if window <? 1 then raise ValueError
  else
    let target := lower (strip metric_arg) in
    let vals := py_sorted date (filter (fun e => metric e = target) entries) in
    match vals with
    | [] => ret []
    | _ :: _ =>
        let numbers := map value vals in
        let dates := map date vals in
        foldM (ma_body window numbers dates) (seq 0 (length numbers)) []
    end.

(** ** [summarize_week] *)

(** The values of the returned [dict]. *)
Inductive pyobj : Set :=
| OInt (n : Z)
| OFloat (f : float)
| OList (l : list float).

(** [max(it)] on datetimes. *)
Definition max_datetime (l : list datetime) : result datetime :=
  match l with
  | [] => raise ValueError
  | x :: l' => ret (fold_left (fun cur y => if cur <? y then y else cur) l' x)
  end.

(** The condition of the comprehension, for one entry:
    [e.metric == metric and start <= datetime.strptime(e.date, DATE_FMT) <= end];
    the date is parsed only when the metric matches. *)
Definition week_cond (target : string) (start end_ : datetime) (e : Entry)
  : result bool :=
  if decide (metric e = target) then
    dt <- strptime (date e) ;;
    ret ((start <=? dt) && (dt <=? end_))
  else ret false.

(** [[e.value for e in entries if cond(e)]] *)
Fixpoint select_values (cond : Entry -> result bool) (entries : list Entry)
  : result (list float) :=
  match entries with
  | [] => ret []
  | e :: es =>
      keep <- cond e ;;
      rest <- select_values cond es ;;
      ret (if keep then value e :: rest else rest)
  end.

Definition empty_summary : dict pyobj :=
  [("count", OInt 0); ("values", OList [])].

Definition summarize_week (entries : list Entry) (metric_arg : string)
    (end_date : option string) : result (dict pyobj) :=
  let target := lower (strip metric_arg) in
  match entries with
  | [] => ret empty_summary
  | _ :: _ =>
      end_ <- match end_date with
              | None =>
                  dts <- mapM (fun e => strptime (date e)) entries ;;
                  max_datetime dts
              | Some s => strptime s
              end ;;
      start <- sub_days end_ 6 ;;
      selected <- select_values (week_cond target start end_) entries ;;
      match selected with
      | [] => ret empty_summary
      | _ :: _ =>
          let count := length selected in
          mean <- truediv_len (py_sum selected) count ;;
          mn <- py_min selected ;;
          mx <- py_max selected ;;
          ret [("count", OInt (Z.of_nat count)); ("min", OFloat mn);
               ("max", OFloat mx); ("mean", OFloat mean);
               ("values", OList selected)]
      end
  end.

(** ** [csv]: the writer, default dialect

    [csv.DictWriter(fh, fieldnames=...)] writes with the [excel] dialect:
    delimiter comma, quote character the double quote (code 34), written
    twice inside a quoted field, line terminator CR LF, minimal quoting,
    no escape character. *)

Definition COMMA : ascii := ","%char.
Definition QUOTE : ascii := "034"%char.
Definition CR : ascii := "013"%char.
Definition LF : ascii := "010"%char.

(** [join_append_data]: a field is quoted when it holds the delimiter, the
    quote character or a character of the line terminator; inside it a
    quote character is written twice. *)
Definition special (c : ascii) : bool :=
  (c =? COMMA)%char || (c =? QUOTE)%char || (c =? CR)%char || (c =? LF)%char.

Fixpoint escape_chars (l : list ascii) : list ascii :=
  match l with
  | [] => []
  | c :: l' =>
      if (c =? QUOTE)%char then c :: c :: escape_chars l'
      else c :: escape_chars l'
  end.

(** [join_append] for one field. *)
Definition join_append (f : list ascii) : list ascii :=
  if existsb special f then QUOTE :: escape_chars f ++ [QUOTE] else f.

(** The fields of a record, each after the delimiter but the first. *)
Fixpoint join_fields (fs : list (list ascii)) : list ascii :=
  match fs with
  | [] => []
  | [f] => join_append f
  | f :: fs' => join_append f ++ COMMA :: join_fields fs'
  end.

(** [writer.writerow(row)]: the text written. A record that would be
    empty although it has a field is written as two quote characters. *)
Definition writerow (row : list string) : list ascii :=
  let rec := join_fields (map list_ascii_of_string row) in
  (match row, rec with
   | _ :: _, [] => [QUOTE; QUOTE]
   | _, _ => rec
   end) ++ [CR; LF].

(** ** [export_csv] *)

Section ExportCsv.

(** [str(x)] for a float, as the writer calls it on the value field. *)
Variable float_repr : float -> string.

(** Whether the system lets the program create or truncate the file of
    that name. *)
Variable can_open : string -> bool.

Definition fieldnames : list string := ["date"; "metric"; "value"].

(** The row [writer.writerow({"date": e.date, "metric": e.metric,
    "value": e.value})] hands to the underlying writer: the values in the
    order of [fieldnames]. *)
Definition dict_to_list (e : Entry) : list string :=
  [date e; metric e; float_repr (value e)].

(** What the body of the [with] block writes. *)
Definition csv_text (entries : list Entry) : string :=
  string_of_list_ascii
    (writerow fieldnames ++ flat_map (fun e => writerow (dict_to_list e)) entries).

(** [open(filename, "w", newline=...)]: a name that holds a NUL character
    is refused with [ValueError] before the system is asked; a refusal of
    the system is an [OSError]. *)
Definition has_nul (s : string) : bool :=
  existsb (fun c => (c =? "000")%char) (list_ascii_of_string s).

Definition py_open (filename : string) : result unit :=
  if has_nul filename then raise ValueError
  else if can_open filename then ret tt
  else raise OSError.

(** [export_csv(entries, filename)] over the files of the file system:
    the file is created or replaced. A file is known by its name; two
    names stand for two files. Once the file is open the writes go
    through, and its encoding has every character of the text. *)
Definition export_csv (files : dict string) (entries : list Entry)
    (filename : string) : dict string * result unit :=
  match py_open filename with
  | inl e => (files, raise e)
  | inr _ => (dict_set filename (csv_text entries) files, ret tt)
  end.

End ExportCsv.

(** ** [csv]: the reader, default dialect

    Reading the file back: [csv.reader(fh)] over a file opened with
    the empty [newline] argument. The file yields its lines, each with its
    line ending (LF, CR or CR LF); the reader feeds the characters of a line and
    then an end-of-line mark to [parse_process_char], and gives a record
    when the parser is back at the start of a record. The error states of
    an escape character do not exist in this dialect. A field may grow to
    [csv.field_size_limit()] characters, 131072 unless the program sets
    another limit; a character more raises [csv.Error]. *)

Definition FIELD_LIMIT : Z := 131072.

(** The lines of a text, line endings kept. *)
Fixpoint split_lines (text : list ascii) : list (list ascii) :=
  match text with
  | [] => []
  | c :: rest =>
      if (c =? LF)%char then [c] :: split_lines rest
      else if (c =? CR)%char then
        match rest with
        | c' :: rest' =>
            if (c' =? LF)%char then [c; c'] :: split_lines rest'
            else [c] :: split_lines rest
        | [] => [[c]]
        end
      else
        match split_lines rest with
        | [] => [[c]]
        | line :: lines => (c :: line) :: lines
        end
  end.

Inductive parser_state : Set :=
| START_RECORD
| START_FIELD
| IN_FIELD
| IN_QUOTED_FIELD
| QUOTE_IN_QUOTED_FIELD
| EAT_CRNL.

Record reader : Set := mkReader {
  state : parser_state;
  field : list ascii;       (* the characters of the field being read *)
  fields : list string      (* the fields of the record read so far *)
}.

Definition parse_reset : reader := mkReader START_RECORD [] [].

Section CsvReader.

(** [csv.field_size_limit()] *)
Variable field_limit : Z.

Definition set_state (s : parser_state) (r : reader) : reader :=
  mkReader s (field r) (fields r).

Definition parse_add_char (r : reader) (c : ascii) : result reader :=
  if field_limit <=? Z.of_nat (length (field r)) then raise CsvError
  else ret (mkReader (state r) (field r ++ [c]) (fields r)).

Definition parse_save_field (r : reader) : reader :=
  mkReader (state r) [] (fields r ++ [string_of_list_ascii (field r)]).

Definition is_newline (c : ascii) : bool := (c =? LF)%char || (c =? CR)%char.

(** The case [START_FIELD]; [None] is the end-of-line mark. *)
Definition start_field (r : reader) (c : option ascii) : result reader :=
  match c with
  | None => ret (set_state START_RECORD (parse_save_field r))
  | Some c =>
      if is_newline c then ret (set_state EAT_CRNL (parse_save_field r))
      else if (c =? QUOTE)%char then ret (set_state IN_QUOTED_FIELD r)
      else if (c =? COMMA)%char
           then ret (set_state START_FIELD (parse_save_field r))
      else r' <- parse_add_char r c ;; ret (set_state IN_FIELD r')
  end.

Definition parse_process_char (r : reader) (c : option ascii) : result reader :=
  match state r with
  | START_RECORD =>
      match c with
      | None => ret r
      | Some c' =>
          if is_newline c' then ret (set_state EAT_CRNL r)
          else start_field r c
      end
  | START_FIELD => start_field r c
  | IN_FIELD =>
      match c with
      | None => ret (set_state START_RECORD (parse_save_field r))
      | Some c =>
          if is_newline c then ret (set_state EAT_CRNL (parse_save_field r))
          else if (c =? COMMA)%char
               then ret (set_state START_FIELD (parse_save_field r))
          else parse_add_char r c
      end
  | IN_QUOTED_FIELD =>
      match c with
      | None => ret r
      | Some c =>
          if (c =? QUOTE)%char then ret (set_state QUOTE_IN_QUOTED_FIELD r)
          else parse_add_char r c
      end
  | QUOTE_IN_QUOTED_FIELD =>
      match c with
      | None => ret (set_state START_RECORD (parse_save_field r))
      | Some c =>
          if (c =? QUOTE)%char
          then r' <- parse_add_char r c ;; ret (set_state IN_QUOTED_FIELD r')
          else if (c =? COMMA)%char
               then ret (set_state START_FIELD (parse_save_field r))
          else if is_newline c
               then ret (set_state EAT_CRNL (parse_save_field r))
          else r' <- parse_add_char r c ;; ret (set_state IN_FIELD r')
      end
  | EAT_CRNL =>
      match c with
      | None => ret (set_state START_RECORD r)
      | Some c => if is_newline c then ret r else raise CsvError
      end
  end.

(** One line: its characters, then the end-of-line mark. *)
Definition process_line (line : list ascii) (r : reader) : result reader :=
  foldM parse_process_char (map Some line ++ [None]) r.

(** [list(csv.reader(lines))]: [r] is the parser inside the record being
    read. At the end of the input a record that was begun is given as it
    stands. *)
Fixpoint read_rows (lines : list (list ascii)) (r : reader)
  : result (list (list string)) :=
  match lines with
  | [] =>
      match field r, state r with
      | [], IN_QUOTED_FIELD | _ :: _, _ => ret [fields (parse_save_field r)]
      | [], _ => ret []
      end
  | line :: lines' =>
      r' <- process_line line r ;;
      match state r' with
      | START_RECORD =>
          rows <- read_rows lines' parse_reset ;;
          ret (fields r' :: rows)
      | _ => read_rows lines' r'
      end
  end.

(** The rows read back from a text. *)
Definition csv_reader (text : string) : result (list (list string)) :=
  read_rows (split_lines (list_ascii_of_string text)) parse_reset.

End CsvReader.

(** ** The date format in the spec's words

    The spec asks for an ISO 8601 calendar date [YYYY-MM-DD]: four digits,
    a dash, two digits, a dash, two digits, naming a day of the calendar.
    [iso_date] follows those words; [parse_date] above follows the code. *)
Definition iso_date (s : string) : option datetime :=
  match list_ascii_of_string s with
  | [y1; y2; y3; y4; s1; m1; m2; s2; d1; d2] =>
      if forallb is_digit [y1; y2; y3; y4; m1; m2; d1; d2]
         && (code s1 =? 45) && (code s2 =? 45)
      then
        let y := 1000 * digit_val y1 + 100 * digit_val y2
                 + 10 * digit_val y3 + digit_val y4 in
        let m := 10 * digit_val m1 + digit_val m2 in
        let d := 10 * digit_val d1 + digit_val d2 in
        if check_date_fields y m d then Some (ymd2ord y m d) else None
      else None
  | _ => None
  end.

(** ** The moving average in the spec's words

    The arithmetic mean is the sum over the count; the window ending at
    index [i] holds the [w] values up to and including position [i]; and
    for every index [i] with [i + 1 >= w], in ascending order, the mean of
    its window is recorded under the date at [i]. *)
Definition mean (l : list float) : float :=
  PrimFloat.div (py_sum l) (float_of_len (length l)).

Definition window_ending (numbers : list float) (w i : nat) : list float :=
  take w (drop (i + 1 - w) numbers).

Definition record_mean (sel : list Entry) (w : nat) (results : dict float)
    (i : nat) : dict float :=
  match sel !! i with
  | Some e => dict_set (date e) (mean (window_ending (map value sel) w i)) results
  | None => results
  end.

Definition recorded_means (sel : list Entry) (w : nat) : dict float :=
  fold_left (record_mean sel w)
    (filter (fun i => (w <= i + 1)%nat) (seq 0 (length sel))) [].

(** ** Order of keys, and the sample of the tests *)

(** [a] does not come after [b] by key. *)
Definition key_le {A} (key : A -> string) (a b : A) : Prop :=
  String.leb (key a) (key b) = true.

(** [make_sample()] of test_project.py: seven daily weights. *)
Definition make_sample : list Entry :=
  [ mkEntry "2025-09-01" "weight" 70;
    mkEntry "2025-09-02" "weight" 71;
    mkEntry "2025-09-03" "weight" 70.5;
    mkEntry "2025-09-04" "weight" 69;
    mkEntry "2025-09-05" "weight" 68.5;
    mkEntry "2025-09-06" "weight" 0x1.14ccccccccccdp+6;
    mkEntry "2025-09-07" "weight" 70 ]%float.

(** The means recorded once the indices below [k] have been visited. *)
Definition recorded_upto (sel : list Entry) (w k : nat) : dict float :=
  fold_left (record_mean sel w)
    (filter (fun i => (w <= i + 1)%nat) (seq 0 k)) [].

(** ** The weekly summary in the spec's words

    An entry is selected when its metric is the target and its date lies
    in the seven days [end - 6 .. end], both ends included; the selected
    values stand in the order of the collection; a non-empty selection is
    summarised by its count, minimum, maximum and mean. *)
Definition in_week (target : string) (end_ : datetime) (e : Entry) : bool :=
  bool_decide (metric e = target)
  && match parse_date (date e) with
     | Some dt => (end_ - 6 <=? dt) && (dt <=? end_)
     | None => false
     end.

Definition week_values (target : string) (end_ : datetime)
    (entries : list Entry) : list float :=
  map value (filter (fun e => in_week target end_ e) entries).

Definition summary_of (selected : list float) : dict pyobj :=
  match selected with
  | [] => [("count", OInt 0); ("values", OList [])]
  | x :: rest =>
      [("count", OInt (Z.of_nat (length selected)));
       ("min", OFloat (float_min x rest));
       ("max", OFloat (float_max x rest));
       ("mean", OFloat (mean selected));
       ("values", OList selected)]
  end.

(** The reader's input laid out flat: for each line its characters, then
    the end-of-line mark [None]. *)
Definition marks (text : list ascii) : list (option ascii) :=
  flat_map (fun line => map Some line ++ [None]) (split_lines text).

Section ReaderFlat.

Variable field_limit : Z.

(** [read_rows] over the flat input. *)
Fixpoint read_marks (ms : list (option ascii)) (r : reader)
  : result (list (list string)) :=
  match ms with
  | [] =>
      match field r, state r with
      | [], IN_QUOTED_FIELD | _ :: _, _ => ret [fields (parse_save_field r)]
      | [], _ => ret []
      end
  | Some c :: ms' =>
      r' <- parse_process_char field_limit r (Some c) ;;
      read_marks ms' r'
  | None :: ms' =>
      r' <- parse_process_char field_limit r None ;;
      match state r' with
      | START_RECORD =>
          rows <- read_marks ms' parse_reset ;;
          ret (fields r' :: rows)
      | _ => read_marks ms' r'
      end
  end.

Definition run (text : list ascii) (r : reader) : result (list (list string)) :=
  read_marks (marks text) r.

End ReaderFlat.

(** Reading a file back: [list(csv.reader(fh))] for the file of that name,
    with the field size limit the [csv] module starts with. *)
Definition read_csv (files : dict string) (filename : string)
  : result (list (list string)) :=
  match dict_get filename files with
  | Some text => csv_reader FIELD_LIMIT text
  | None => raise OSError
  end.

(** A field the reader can hold under a limit, as characters and as a
    string, and the rows whose fields all are such. *)
Definition chars_fit (limit : Z) (f : list ascii) : bool :=
  Z.of_nat (length f) <=? limit.

Definition fits (limit : Z) (f : string) : bool :=
  Z.of_nat (String.length f) <=? limit.

Definition rows_fit (limit : Z) (rows : list (list string)) : bool :=
  forallb (forallb (fits limit)) rows.

(** ** Further definitions *)

(** [a < b] on strings. *)
Definition str_lt (a b : string) : Prop := String.ltb a b = true.

(** The digits of a date read as one number: [YYYYMMDD]. *)
Definition ymd_number (y m d : Z) : Z := 10000 * y + 100 * m + d.

(** The text [YYYY-MM-DD] from its eight digit characters. *)
Definition iso_text (y1 y2 y3 y4 m1 m2 d1 d2 : ascii) : string :=
  string_of_list_ascii [y1; y2; y3; y4; "-"%char; m1; m2; "-"%char; d1; d2].

Definition year_of (y1 y2 y3 y4 : ascii) : Z :=
  1000 * digit_val y1 + 100 * digit_val y2 + 10 * digit_val y3 + digit_val y4.

Definition two_digits (a b : ascii) : Z := 10 * digit_val a + digit_val b.

(** Two strings are ISO dates, the first not after (before) the second. *)
Definition iso_le (s s' : string) : Prop :=
  exists d d', iso_date s = Some d /\ iso_date s' = Some d' /\ d <= d'.

Definition iso_lt (s s' : string) : Prop :=
  exists d d', iso_date s = Some d /\ iso_date s' = Some d' /\ d < d'.

(** ** Dates as text: [strftime(DATE_FMT)]

    [datetime.py]: [_DAYS_IN_MONTH], [_DAYS_BEFORE_MONTH] and [_ord2ymd],
    which gives year, month and day of an ordinal; a date minus a
    [timedelta] is built from its ordinal this way. *)
Definition DAYS_IN_MONTH (m : Z) : Z :=
  nth (Z.to_nat m) [-1; 31; 28; 31; 30; 31; 30; 31; 31; 30; 31; 30; 31] 0.

Definition DAYS_BEFORE_MONTH (m : Z) : Z :=
  nth (Z.to_nat m) [-1; 0; 31; 59; 90; 120; 151; 181; 212; 243; 273; 304; 334] 0.

Definition DI400Y : Z := 146097.
Definition DI100Y : Z := 36524.
Definition DI4Y : Z := 1461.

Definition ord2ymd (ordinal : Z) : Z * Z * Z :=
  let n := ordinal - 1 in
  let n400 := n / DI400Y in
  let n := n mod DI400Y in
  let year := n400 * 400 + 1 in
  let n100 := n / DI100Y in
  let n := n mod DI100Y in
  let n4 := n / DI4Y in
  let n := n mod DI4Y in
  let n1 := n / 365 in
  let n := n mod 365 in
  let year := year + n100 * 100 + n4 * 4 + n1 in
  if (n1 =? 4) || (n100 =? 4) then (year - 1, 12, 31)
  else
    let leapyear := (n1 =? 3) && (negb (n4 =? 24) || (n100 =? 3)) in
    let month := Z.shiftr (n + 50) 5 in
    let preceding :=
      DAYS_BEFORE_MONTH month + (if (2 <? month) && leapyear then 1 else 0) in
    if n <? preceding then
      let month := month - 1 in
      let preceding :=
        preceding
        - (DAYS_IN_MONTH month + (if (month =? 2) && leapyear then 1 else 0)) in
      (year, month, n - preceding + 1)
    else (year, month, n - preceding + 1).

(** One decimal digit as a character, and numbers padded with zeros to
    two and to four digits. The year is written with four digits: that is
    what [%Y] gives for the years 1000 to 9999 everywhere (below 1000 the
    padding depends on the platform's C library). *)
Definition digit_char (d : Z) : ascii := ascii_of_N (Z.to_N (48 + d)).

Definition two_digit_text (n : Z) : list ascii :=
  [digit_char (n / 10); digit_char (n mod 10)].

Definition four_digit_text (n : Z) : list ascii :=
  [digit_char (n / 1000); digit_char (n / 100 mod 10);
   digit_char (n / 10 mod 10); digit_char (n mod 10)].

(** [dt.strftime(DATE_FMT)] *)
Definition strftime (dt : datetime) : string :=
  let '(y, m, d) := ord2ymd dt in
  string_of_list_ascii
    (four_digit_text y ++ "-"%char :: two_digit_text m
     ++ "-"%char :: two_digit_text d).

(** The last steps of [ord2ymd]: month and day of the day [n] (from 0) of
    a year, leap or not. *)
Definition month_day (leapyear : bool) (n : Z) : Z * Z :=
  let month := Z.shiftr (n + 50) 5 in
  let preceding :=
    DAYS_BEFORE_MONTH month + (if (2 <? month) && leapyear then 1 else 0) in
  if n <? preceding then
    let month := month - 1 in
    let preceding :=
      preceding
      - (DAYS_IN_MONTH month + (if (month =? 2) && leapyear then 1 else 0)) in
    (month, n - preceding + 1)
  else (month, n - preceding + 1).

(** What [month_day] owes: a month, a day of that month, and the right
    day of the year. *)
Definition month_day_ok (leapyear : bool) (n : Z) : bool :=
  let '(m, d) := month_day leapyear n in
  (1 <=? m) && (m <=? 12) && (1 <=? d)
  && (d <=? (if (m =? 2) && leapyear then 29
             else nth (Z.to_nat m) [0; 31; 28; 31; 30; 31; 30; 31; 31; 30; 31; 30; 31] 0))
  && (nth (Z.to_nat m) [0; 0; 31; 59; 90; 120; 151; 181; 212; 243; 273; 304; 334] 0
      + (if (2 <? m) && leapyear then 1 else 0) + d =? n + 1).

(** ** [main]

    [main] prints and writes a file; the run starts from a [world], the
    lines printed so far and the files, and [datetime.now()] is the
    argument [today]. A printed line is the list of the code points of
    its characters (the dash of the first line lies above 255). *)

Definition line : Type := list Z.

Definition text (s : string) : line := map code (list_ascii_of_string s).

Record world : Type := mkWorld {
  stdout : list line;
  files : dict string
}.

(** [print(s)] *)
Definition print (l : line) (w : world) : world :=
  mkWorld (stdout w ++ [l]) (files w).

(** [str(n)] for an [int]. *)
Definition str_int (n : Z) : string := NilZero.string_of_int (Z.to_int n).

(** [enumerate(l)] *)
Definition enumerate {A} (l : list A) : list (Z * A) :=
  combine (map Z.of_nat (seq 0 (length l))) l.

(** A [for] loop over [l] whose body works on the list of entries and may
    raise. *)
Fixpoint for_each {A} (body : list Entry -> A -> list Entry * result unit)
    (l : list A) (sample : list Entry) : list Entry * result unit :=
  match l with
  | [] => (sample, ret tt)
  | x :: l' =>
      let '(sample', r) := body sample x in
      match r with
      | inl e => (sample', raise e)
      | inr _ => for_each body l' sample'
      end
  end.

Section Main.

Variable float_of_str : string -> option float.

(** [str(x)] and [format(x, ".2f")] for a float. *)
Variable float_repr : float -> string.
Variable format_2f : float -> string.

Variable can_open : string -> bool.

(** [str(v)] for a value of the summary; a list shows the [repr] of its
    elements, which for a float is its [str]. *)
Definition str_obj (v : pyobj) : string :=
  match v with
  | OInt n => str_int n
  | OFloat f => float_repr f
  | OList l => ("[" ++ String.concat ", " (map float_repr l) ++ "]")%string
  end.

(** The values of the demo: [[70, 71, 70.5, 69, 68.5, 69.2, 70]]. *)
Definition demo_values : list pyvalue :=
  [VInt 70; VInt 71; VFloat 70.5; VInt 69; VFloat 68.5;
   VFloat 0x1.14ccccccccccdp+6; VInt 70].

(** The body of the loop of [main]. *)
Definition demo_step (today : datetime) (sample : list Entry)
    (iv : Z * pyvalue) : list Entry * result unit :=
  let '(i, val) := iv in
  match sub_days today (6 - i) with
  | inl e => (sample, raise e)
  | inr dt =>
      let date := strftime dt in
      let '(sample', r) := add_entry float_of_str sample date "weight" val in
      (sample', _ <- r ;; ret tt)
  end.

(** The first line [main] prints. *)
Definition banner : line := text "Health Tracker " ++ [8212] ++ text " demo".

Definition main (today : datetime) (w : world) : world * result unit :=
  let w := print banner w in
  let '(sample, r) := for_each (demo_step today) (enumerate demo_values) [] in
  match r with
  | inl e => (w, raise e)
  | inr _ =>
      let w := print (text ("Created " ++ str_int (Z.of_nat (length sample))
                            ++ " sample entries (weight).")%string) w in
      match moving_average sample "weight" 3 with
      | inl e => (w, raise e)
      | inr ma =>
          let w := print (text "Moving averages (window=3):") w in
          let w :=
            fold_left
              (fun w '(d, v) =>
                 print (text ("  " ++ d ++ ": " ++ format_2f v)%string) w)
              ma w in
          match summarize_week sample "weight" None with
          | inl e => (w, raise e)
          | inr summary =>
              let w := print (text "7-day summary:") w in
              let w :=
                fold_left
                  (fun w '(k, v) =>
                     print (text ("  " ++ k ++ ": " ++ str_obj v)%string) w)
                  summary w in
              let fname := "health_entries.csv" in
              let '(files', r) :=
                export_csv float_repr can_open (files w) sample fname in
              match r with
              | inl e => (mkWorld (stdout w) files', raise e)
              | inr _ =>
                  (print (text ("Exported entries to " ++ fname)%string)
                     (mkWorld (stdout w) files'),
                   ret tt)
              end
          end
      end
  end.

End Main.

(** The entries [main] builds on the day [today]. *)
Definition demo_sample (today : datetime) : list Entry :=
  [ mkEntry (strftime (today - 6)) "weight" 70%float;
    mkEntry (strftime (today - 5)) "weight" 71%float;
    mkEntry (strftime (today - 4)) "weight" 70.5%float;
    mkEntry (strftime (today - 3)) "weight" 69%float;
    mkEntry (strftime (today - 2)) "weight" 68.5%float;
    mkEntry (strftime (today - 1)) "weight" 0x1.14ccccccccccdp+6%float;
    mkEntry (strftime (today - 0)) "weight" 70%float ].

(** * Properties *)

(** ** Sample runs *)

Example parse_ok : parse_date "2025-09-07" = Some 739501.
Proof. reflexivity. Qed.
Example parse_unpadded : parse_date "2025-9-7" = Some 739501.
Proof. reflexivity. Qed.
Example parse_month13 : parse_date "2025-13-01" = None.
Proof. reflexivity. Qed.
Example parse_feb30 : parse_date "2025-02-30" = None.
Proof. reflexivity. Qed.
Example parse_max : parse_date "9999-12-31" = Some MAXORDINAL.
Proof. reflexivity. Qed.
Example parse_min : parse_date "0001-01-01" = Some 1.
Proof. reflexivity. Qed.
Example norm_ex : normalize "  WeiGht " = "weight".
Proof. reflexivity. Qed.
Example float_of_int_70 : float_of_int 70 = ret 70%float.
Proof. vm_compute. reflexivity. Qed.
Example float_of_digits_70 : float_of_digits "70" = Some 70%float.
Proof. vm_compute. reflexivity. Qed.
Example float_of_digits_abc : float_of_digits "abc" = None.
Proof. reflexivity. Qed.
Example py_sum_ex : py_sum [70; 71; 70.5]%float = 211.5%float.
Proof. vm_compute. reflexivity. Qed.
Example add_entry_ex :
  add_entry float_of_digits [] "2025-09-09" " Sleep " (VFloat 7.5)
  = ([mkEntry "2025-09-09" "sleep" 7.5], ret (mkEntry "2025-09-09" "sleep" 7.5)).
Proof. vm_compute. reflexivity. Qed.



(** ** The order on strings *)

Lemma ascii_compare_spec (a b : ascii) :
  CompareSpec (a = b) (N_of_ascii a < N_of_ascii b)%N
    (N_of_ascii b < N_of_ascii a)%N (Ascii.compare a b).
Proof.
  unfold Ascii.compare.
  destruct (N.compare_spec (N_of_ascii a) (N_of_ascii b)) as [H|H|H];
    constructor; auto.
  rewrite <- (ascii_N_embedding a), <- (ascii_N_embedding b). now rewrite H.
Qed.

Lemma str_compare_refl (s : string) : String.compare s s = Eq.
Proof.
  induction s as [|c s IH]; simpl; auto.
  destruct (ascii_compare_spec c c); auto; lia.
Qed.

Lemma str_compare_le_trans (a b c : string) :
  String.compare a b <> Gt -> String.compare b c <> Gt ->
  String.compare a c <> Gt.
Proof.
  revert b c. induction a as [|x a IH]; intros [|y b] [|z c]; simpl;
    try congruence.
  destruct (ascii_compare_spec x y), (ascii_compare_spec y z),
    (ascii_compare_spec x z); subst; try congruence; try lia; eauto.
Qed.

Lemma str_leb_trans (a b c : string) :
  String.leb a b = true -> String.leb b c = true -> String.leb a c = true.
Proof.
  unfold String.leb. intros H1 H2.
  pose proof (str_compare_le_trans a b c) as H.
  destruct (String.compare a b), (String.compare b c), (String.compare a c);
    try congruence; exfalso; apply H; congruence.
Qed.

Lemma str_ltb_leb (a b : string) :
  String.ltb a b = true -> String.leb a b = true.
Proof. unfold String.ltb, String.leb. destruct (String.compare a b); auto. Qed.

Lemma str_nltb_leb (a b : string) :
  String.ltb a b = false -> String.leb b a = true.
Proof.
  unfold String.ltb, String.leb. rewrite (String.compare_antisym b a).
  destruct (String.compare a b); simpl; congruence.
Qed.

Lemma str_ltb_irrefl (a : string) : String.ltb a a = false.
Proof. unfold String.ltb. now rewrite str_compare_refl. Qed.

Lemma str_leb_ltb (a b : string) :
  String.leb a b = true -> String.ltb b a = false.
Proof.
  unfold String.ltb, String.leb. rewrite (String.compare_antisym a b).
  destruct (String.compare b a); simpl; congruence.
Qed.

(** ** Dates *)

Ltac bool_cases :=
  repeat match goal with
    | H : _ && _ = true |- _ => apply andb_prop in H; destruct H
    | H : (_ <=? _) = true |- _ => apply Z.leb_le in H
    | H : (_ =? _) = true |- _ => apply Z.eqb_eq in H
    end.

Ltac decide_tests :=
  repeat match goal with
    | |- context [?a <=? ?b] => destruct (Z.leb_spec a b); try lia
    | |- context [?a =? ?b] => destruct (Z.eqb_spec a b); try lia
    end.

Lemma match_m_padded (m1 m2 : ascii) (rest : list ascii) :
  is_digit m1 = true -> is_digit m2 = true ->
  1 <= 10 * digit_val m1 + digit_val m2 <= 12 ->
  exists alts,
    match_m (m1 :: m2 :: rest)
    = (10 * digit_val m1 + digit_val m2, rest) :: alts.
Proof.
  unfold match_m, is_digit, in_range, digit_val. intros H1 H2 Hm.
  bool_cases. decide_tests; simpl; eexists; repeat f_equal; lia.
Qed.

Lemma match_d_padded (d1 d2 : ascii) (rest : list ascii) :
  is_digit d1 = true -> is_digit d2 = true ->
  1 <= 10 * digit_val d1 + digit_val d2 <= 31 ->
  exists alts,
    match_d (d1 :: d2 :: rest)
    = (10 * digit_val d1 + digit_val d2, rest) :: alts.
Proof.
  unfold match_d, is_digit, in_range, digit_val. intros H1 H2 Hm.
  bool_cases. decide_tests; simpl; eexists; repeat f_equal; lia.
Qed.

Lemma days_in_month_le (y m : Z) : days_in_month y m <= 31.
Proof.
  unfold days_in_month. destruct (_ && _); [lia|].
  destruct (Z.to_nat m) as [|[|[|[|[|[|[|[|[|[|[|[|[|[|?]]]]]]]]]]]]]];
    simpl; lia.
Qed.

(** A date in the strict format is read by the code's parser as the same
    day. *)
Lemma iso_date_parse_date (s : string) (dt : datetime) :
  iso_date s = Some dt -> parse_date s = Some dt.
Proof.
  unfold iso_date, parse_date.
  destruct (list_ascii_of_string s)
    as [|y1 [|y2 [|y3 [|y4 [|s1 [|m1 [|m2 [|s2 [|d1 [|d2 [|? ?]]]]]]]]]]];
    try discriminate.
  destruct (forallb _ _ && _ && _) eqn:Hfmt; [|discriminate].
  destruct (check_date_fields _ _ _) eqn:Hchk; [|discriminate].
  intros [= <-].
  apply andb_prop in Hfmt as [Hfmt Hs2]. apply andb_prop in Hfmt as [Hdig Hs1].
  simpl in Hdig.
  repeat (apply andb_prop in Hdig; destruct Hdig as [? Hdig]).
  pose proof Hchk as Hchk'. unfold check_date_fields in Hchk'.
  repeat (apply andb_prop in Hchk'; destruct Hchk' as [Hchk' ?]).
  pose proof (days_in_month_le
    (1000 * digit_val y1 + 100 * digit_val y2 + 10 * digit_val y3 + digit_val y4)
    (10 * digit_val m1 + digit_val m2)).
  destruct (match_m_padded m1 m2 [s2; d1; d2]) as [am Hm]; auto; [lia|].
  destruct (match_d_padded d1 d2 []) as [ad Hd]; auto; [lia|].
  unfold regex_match, match_Y.
  repeat match goal with H : is_digit _ = true |- _ => rewrite H; clear H end.
  simpl andb. cbv iota. unfold match_dash at 1. rewrite Hs1.
  rewrite Hm. simpl first_match. unfold match_dash. rewrite Hs2.
  rewrite Hd. simpl first_match. cbv beta iota. now rewrite Hchk.
Qed.

Example iso_date_rejects_unpadded :
  iso_date "2025-9-1" = None /\ parse_date "2025-9-1" = Some 739495.
Proof. split; reflexivity. Qed.

(** ** [strip] and [lower] *)

Lemma lstrip_chars_spec (l : list ascii) :
  exists pre,
    l = pre ++ lstrip_chars l /\ forallb isspace pre = true
    /\ forall c, head (lstrip_chars l) = Some c -> isspace c = false.
Proof.
  induction l as [|c l (pre & Hl & Hpre & Hhd)]; simpl.
  - exists []. repeat split; auto. discriminate.
  - destruct (isspace c) eqn:Hc.
    + exists (c :: pre). simpl. rewrite Hc, Hpre. repeat split; auto.
      now rewrite <- Hl.
    + exists []. repeat split; auto. simpl. now intros ? [= <-].
Qed.

Lemma lstrip_chars_last (l : list ascii) (c : ascii) :
  last (lstrip_chars l) = Some c -> last l = Some c.
Proof.
  destruct (lstrip_chars_spec l) as (pre & Hl & _ & _).
  intros H. rewrite Hl, last_app, H. reflexivity.
Qed.

(** [strip] removes a run of white space at each end, and what is left
    neither starts nor ends with white space. *)
Lemma strip_chars_spec (l : list ascii) :
  exists pre post,
    l = pre ++ strip_chars l ++ post
    /\ forallb isspace pre = true /\ forallb isspace post = true
    /\ (forall c, head (strip_chars l) = Some c -> isspace c = false)
    /\ (forall c, last (strip_chars l) = Some c -> isspace c = false).
Proof.
  unfold strip_chars.
  destruct (lstrip_chars_spec l) as (pre & Hl & Hpre & Hhd).
  destruct (lstrip_chars_spec (reverse (lstrip_chars l)))
    as (post & Hr & Hpost & Hhd').
  exists pre, (reverse post). repeat split; auto.
  - rewrite <- reverse_app, <- Hr, reverse_involutive. exact Hl.
  - rewrite forallb_forall in *. intros c Hc. apply Hpost.
    apply list_elem_of_In. apply list_elem_of_In in Hc.
    now rewrite elem_of_reverse in Hc.
  - intros c Hc. apply Hhd. rewrite head_reverse in Hc.
    apply lstrip_chars_last in Hc. now rewrite last_reverse in Hc.
  - intros c Hc. apply Hhd'. now rewrite last_reverse in Hc.
Qed.

Lemma lower_length (s : string) :
  String.length (lower s) = String.length s.
Proof.
  unfold lower. induction s as [|c s IH]; simpl; auto.
Qed.

(** ** [add_entry] *)

Section AddEntryFacts.

Variable float_of_str : string -> option float.

Lemma strptime_ret (s : string) (dt : datetime) :
  strptime s = ret dt <-> parse_date s = Some dt.
Proof.
  unfold strptime, ret, raise. destruct (parse_date s); split; congruence.
Qed.

Lemma strptime_raise (s : string) (e : exn) :
  strptime s = raise e <-> parse_date s = None /\ e = ValueError.
Proof.
  unfold strptime, ret, raise. destruct (parse_date s); split.
  - discriminate.
  - intros [? _]. discriminate.
  - intros [= <-]. auto.
  - intros [_ ->]. reflexivity.
Qed.

(** When [add_entry] raises, and what it leaves behind: the call raises
    exactly when the date does not parse or [float(value)] raises; the
    exception is then a [ValueError] and the list is untouched. *)
Lemma add_entry_failure (entries : list Entry) (date_s metric_s : string)
    (v : pyvalue) :
  let out := add_entry float_of_str entries date_s metric_s v in
  ((exists e, out.2 = raise e)
     <-> parse_date date_s = None \/ exists e, py_float float_of_str v = raise e)
  /\ (forall e, out.2 = raise e -> e = ValueError /\ out.1 = entries).
Proof.
  unfold add_entry, strptime, raise, ret.
  destruct (parse_date date_s) as [dt|]; simpl.
  - destruct (py_float float_of_str v) as [e|f]; simpl.
    + split; [split; eauto|]. intros ? [= <-]. auto.
    + split; [|discriminate].
      split; [intros [? ?]; discriminate|].
      intros [?|[? ?]]; discriminate.
  - split; [split; eauto|]. intros ? [= <-]. auto.
Qed.

(** C7: for a date the parser accepts and a value [float] converts,
    [add_entry] leaves the list with exactly one more record at its end,
    the earlier ones in place, and returns that record: the date as
    given, the metric stripped and lower-cased, the converted value. *)
Theorem add_entry_appends (entries : list Entry) (date_s metric_s : string)
    (v : pyvalue) (dt : datetime) (f : float) :
  parse_date date_s = Some dt ->
  py_float float_of_str v = ret f ->
  exists e,
    add_entry float_of_str entries date_s metric_s v = (entries ++ [e], ret e)
    /\ date e = date_s
    /\ metric e = lower (strip metric_s)
    /\ value e = f.
Proof.
  intros Hd Hv. unfold add_entry, strptime. rewrite Hd, Hv. simpl.
  eexists. split; [reflexivity|]. auto.
Qed.

(** What [add_entry] leaves in the list keeps dates that parse: a list
    built by calls of [add_entry] holds only such dates. *)
Lemma add_entry_keeps_dates (entries : list Entry) (date_s metric_s : string)
    (v : pyvalue) :
  Forall (fun e => parse_date (date e) <> None) entries ->
  Forall (fun e => parse_date (date e) <> None)
    (add_entry float_of_str entries date_s metric_s v).1.
Proof.
  intros Hall. unfold add_entry, strptime.
  destruct (parse_date date_s) as [dt|] eqn:Hd; simpl; [|exact Hall].
  destruct (py_float float_of_str v); simpl; [exact Hall|].
  apply Forall_app. split; [exact Hall|].
  constructor; [|constructor]. simpl. congruence.
Qed.

(** C6: a date that is not in the [YYYY-MM-DD] format, with month and
    day unpadded, is accepted: the entry is built and appended, and no
    [ValueError] is raised. *)
Theorem add_entry_accepts_unpadded_date :
  iso_date "2025-9-1" = None
  /\ add_entry float_of_str [] "2025-9-1" "weight" (VFloat 70)
     = ([mkEntry "2025-9-1" "weight" 70], ret (mkEntry "2025-9-1" "weight" 70)).
Proof. split; reflexivity. Qed.

End AddEntryFacts.

(** Dates that [add_entry] accepts without padding are ordered by their
    characters, not by the calendar: 1 October comes before 5 September. *)
Example unpadded_dates_out_of_order :
  parse_date "2025-9-5" = Some 739499
  /\ parse_date "2025-10-01" = Some 739525
  /\ map date (py_sorted date [mkEntry "2025-9-5" "weight" 1;
                               mkEntry "2025-10-01" "weight" 2])
     = ["2025-10-01"; "2025-9-5"].
Proof. repeat split. Qed.

Lemma add_entry_appends_witness :
  parse_date "2025-09-09" = Some 739503
  /\ py_float float_of_digits (VFloat 7.5) = ret 7.5%float
  /\ exists e,
      add_entry float_of_digits [mkEntry "2025-09-01" "weight" 70]
        "2025-09-09" " Sleep " (VFloat 7.5)
      = ([mkEntry "2025-09-01" "weight" 70] ++ [e], ret e)
      /\ date e = "2025-09-09"
      /\ metric e = lower (strip " Sleep ")
      /\ value e = 7.5%float.
Proof.
  split; [reflexivity|]. split; [reflexivity|].
  apply (add_entry_appends float_of_digits _ _ _ _ 739503); reflexivity.
Defined.

Example add_entry_month13 :
  add_entry float_of_digits make_sample "2025-13-01" "weight" (VFloat 70)
  = (make_sample, raise ValueError).
Proof. reflexivity. Qed.

Example add_entry_abc :
  add_entry float_of_digits make_sample "2025-09-08" "weight" (VStr "abc")
  = (make_sample, raise ValueError).
Proof. reflexivity. Qed.

Example add_entry_no_range_check :
  add_entry float_of_digits [] "2025-09-08" "   " (VFloat (-1000))
  = ([mkEntry "2025-09-08" "" (-1000)], ret (mkEntry "2025-09-08" "" (-1000))).
Proof. reflexivity. Qed.

(** ** Sorting *)

Section Sorting.

Context {A : Type} (key : A -> string).

Lemma sorted_insert_perm (x : A) (l : list A) :
  sorted_insert key x l ≡ₚ x :: l.
Proof.
  induction l as [|y l IH]; simpl; auto.
  destruct (String.ltb (key y) (key x)); auto.
  rewrite IH. apply Permutation_swap.
Qed.

Lemma py_sorted_perm (l : list A) : py_sorted key l ≡ₚ l.
Proof.
  induction l as [|x l IH]; simpl; auto.
  rewrite sorted_insert_perm. now rewrite IH.
Qed.

Lemma py_sorted_length (l : list A) : length (py_sorted key l) = length l.
Proof. apply Permutation_length, py_sorted_perm. Qed.

Lemma sorted_insert_hd (x y : A) (l : list A) :
  key_le key y x -> HdRel (key_le key) y l ->
  HdRel (key_le key) y (sorted_insert key x l).
Proof.
  intros Hyx Hl. destruct l as [|z l]; simpl.
  - now constructor.
  - destruct (String.ltb (key z) (key x)); constructor; auto.
    now inversion Hl.
Qed.

Lemma sorted_insert_sorted (x : A) (l : list A) :
  Sorted (key_le key) l -> Sorted (key_le key) (sorted_insert key x l).
Proof.
  induction 1 as [|y l Hl IH Hhd]; simpl.
  - repeat constructor.
  - destruct (String.ltb (key y) (key x)) eqn:Hlt.
    + constructor; auto. apply sorted_insert_hd; auto.
      now apply str_ltb_leb.
    + constructor; [now constructor|]. constructor.
      now apply str_nltb_leb.
Qed.

(** The result is in ascending order of the keys. *)
Lemma py_sorted_sorted (l : list A) : Sorted (key_le key) (py_sorted key l).
Proof.
  induction l as [|x l IH]; simpl; [constructor|].
  now apply sorted_insert_sorted.
Qed.

Lemma py_sorted_strongly_sorted (l : list A) :
  StronglySorted (key_le key) (py_sorted key l).
Proof.
  apply Sorted_StronglySorted; [|apply py_sorted_sorted].
  intros a b c. unfold key_le. apply str_leb_trans.
Qed.

Lemma sorted_insert_filter (k : string) (x : A) (l : list A) :
  filter (fun a => key a = k) (sorted_insert key x l)
  = filter (fun a => key a = k) (x :: l).
Proof.
  induction l as [|y l IH]; simpl; auto.
  destruct (String.ltb (key y) (key x)) eqn:Hlt; auto.
  rewrite filter_cons, IH, !filter_cons.
  destruct (decide (key y = k)) as [Hy|Hy], (decide (key x = k)) as [Hx|Hx];
    auto.
  rewrite Hy, Hx, str_ltb_irrefl in Hlt. discriminate.
Qed.

(** The sort is stable: the elements that share a key stand in the
    order they had. *)
Lemma py_sorted_stable (k : string) (l : list A) :
  filter (fun a => key a = k) (py_sorted key l)
  = filter (fun a => key a = k) l.
Proof.
  induction l as [|x l IH]; simpl; auto.
  rewrite sorted_insert_filter, !filter_cons, IH. reflexivity.
Qed.

End Sorting.

(** ** Dicts *)

Lemma dict_get_set {V} (k k' : string) (v : V) (d : dict V) :
  dict_get k' (dict_set k v d) = if decide (k = k') then Some v else dict_get k' d.
Proof.
  induction d as [|[k0 v0] d IH]; simpl.
  - reflexivity.
  - destruct (decide (k0 = k)) as [->|Hne]; simpl.
    + destruct (decide (k = k')); reflexivity.
    + rewrite IH. destruct (decide (k0 = k')) as [->|]; auto.
      destruct (decide (k = k')); congruence.
Qed.

Lemma dict_set_keys {V} (k : string) (v : V) (d : dict V) (k' : string) :
  In k' (map fst (dict_set k v d)) <-> k' = k \/ In k' (map fst d).
Proof.
  induction d as [|[k0 v0] d IH]; simpl.
  - intuition.
  - destruct (decide (k0 = k)) as [->|Hne]; simpl.
    + intuition.
    + rewrite IH. intuition.
Qed.

(** Assignments keep the keys of a dict distinct. *)
Lemma dict_set_NoDup {V} (k : string) (v : V) (d : dict V) :
  List.NoDup (map fst d) -> List.NoDup (map fst (dict_set k v d)).
Proof.
  induction d as [|[k0 v0] d IH]; simpl; intros Hnd.
  - repeat constructor. intros [].
  - inversion Hnd as [|? ? Hk0 Hnd']; subst.
    destruct (decide (k0 = k)) as [->|Hne]; simpl.
    + now constructor.
    + constructor; auto. rewrite dict_set_keys. intros [?|?]; congruence.
Qed.

(** ** [moving_average] *)

Lemma py_slice_inner {A} (l : list A) (a b : Z) :
  0 <= a <= b -> b <= Z.of_nat (length l) ->
  py_slice l a b = take (Z.to_nat (b - a)) (drop (Z.to_nat a) l).
Proof.
  intros Hab Hb. unfold py_slice, slice_bound.
  destruct (Z.ltb_spec a 0), (Z.ltb_spec b 0); try lia.
  rewrite !Z.min_r, !Z.max_r by lia. reflexivity.
Qed.

Lemma window_ending_length (numbers : list float) (w i : nat) :
  (w <= i + 1)%nat -> (i < length numbers)%nat ->
  length (window_ending numbers w i) = w.
Proof.
  intros Hw Hi. unfold window_ending. rewrite length_take, length_drop. lia.
Qed.

Lemma truediv_len_mean (l : list float) :
  l <> [] -> truediv_len (py_sum l) (length l) = ret (mean l).
Proof. destruct l; [congruence|reflexivity]. Qed.

Section MovingAverageLoop.

Variables (sel : list Entry) (window : Z).
Hypothesis window_pos : 1 <= window.

Let w : nat := Z.to_nat window.

Lemma ma_body_step (res : dict float) (i : nat) :
  (i < length sel)%nat ->
  ma_body window (map value sel) (map date sel) res i
  = ret (if decide (w <= i + 1)%nat then record_mean sel w res i else res).
Proof.
  intros Hi. unfold ma_body. rewrite Z.geb_leb.
  destruct (Z.leb_spec window (Z.of_nat i + 1)) as [Hle|Hgt].
  - rewrite decide_True by (subst w; lia).
    rewrite py_slice_inner by (rewrite ?length_map; lia).
    replace (Z.to_nat (Z.of_nat i + 1 - (Z.of_nat i - window + 1))) with w
      by (subst w; lia).
    replace (Z.to_nat (Z.of_nat i - window + 1)) with (i + 1 - w)%nat
      by (subst w; lia).
    fold (window_ending (map value sel) w i).
    rewrite truediv_len_mean.
    + unfold record_mean, py_index. rewrite list_lookup_fmap.
      destruct (lookup_lt_is_Some_2 sel i Hi) as [e ->]. reflexivity.
    + intros Hnil. apply (f_equal length) in Hnil.
      rewrite window_ending_length in Hnil;
        rewrite ?length_map; simpl in *; subst w; lia.
  - rewrite decide_False by (subst w; lia). reflexivity.
Qed.

Lemma ma_loop (idxs : list nat) (res : dict float) :
  Forall (fun i => (i < length sel)%nat) idxs ->
  foldM (ma_body window (map value sel) (map date sel)) idxs res
  = ret (fold_left (record_mean sel w)
           (filter (fun i => (w <= i + 1)%nat) idxs) res).
Proof.
  intros Hall. revert res.
  induction Hall as [|i idxs Hi _ IH]; intros res; simpl; [reflexivity|].
  rewrite ma_body_step by exact Hi. simpl. rewrite IH, filter_cons.
  destruct (decide (w <= i + 1)%nat); reflexivity.
Qed.

(** The loop runs to its end without raising and leaves the recorded
    means. *)
Lemma ma_loop_all :
  foldM (ma_body window (map value sel) (map date sel))
    (seq 0 (length sel)) []
  = ret (recorded_means sel w).
Proof.
  apply ma_loop. apply Forall_forall. intros i Hi.
  apply elem_of_seq in Hi. lia.
Qed.

End MovingAverageLoop.

Lemma recorded_means_short (sel : list Entry) (w : nat) :
  (length sel < w)%nat -> recorded_means sel w = [].
Proof.
  intros Hlen. unfold recorded_means.
  replace (filter _ (seq 0 (length sel))) with (@nil nat); [reflexivity|].
  symmetry. apply elem_of_nil_inv. intros i Hi.
  apply list_elem_of_filter in Hi as [Hw Hi]. apply elem_of_seq in Hi. lia.
Qed.

Lemma moving_average_eq (entries : list Entry) (metric_s : string) (window : Z) :
  1 <= window ->
  moving_average entries metric_s window
  = ret (recorded_means
           (py_sorted date
              (filter (fun e => metric e = normalize metric_s) entries))
           (Z.to_nat window)).
Proof.
  intros Hw. unfold moving_average, normalize.
  destruct (Z.ltb_spec window 1); [lia|].
  set (sel := py_sorted date _).
  pose proof (ma_loop_all sel window Hw) as Hloop.
  rewrite length_map. destruct sel; [reflexivity|exact Hloop].
Qed.

Lemma recorded_upto_S (sel : list Entry) (w k : nat) :
  recorded_upto sel w (S k)
  = if decide (w <= k + 1)%nat
    then record_mean sel w (recorded_upto sel w k) k
    else recorded_upto sel w k.
Proof.
  unfold recorded_upto. rewrite seq_S, filter_app, fold_left_app. simpl.
  rewrite filter_cons, filter_nil.
  destruct (decide (w <= k + 1)%nat); reflexivity.
Qed.

(** What the dict holds after the indices below [k]: under a date, the
    mean computed at the last visited position that carries the date. *)
Lemma recorded_upto_lookup (sel : list Entry) (w k : nat) (d : string) (v : float) :
  (k <= length sel)%nat ->
  dict_get d (recorded_upto sel w k) = Some v
  <-> exists i, (i < k)%nat /\ (w <= i + 1)%nat
        /\ date <$> sel !! i = Some d
        /\ (forall j, (i < j < k)%nat -> date <$> sel !! j <> Some d)
        /\ v = mean (window_ending (map value sel) w i).
Proof.
  induction k as [|k IH]; intros Hk.
  - simpl. split; [discriminate|]. intros (i & Hi & _). lia.
  - rewrite recorded_upto_S. specialize (IH ltac:(lia)).
    destruct (decide (w <= k + 1)%nat) as [Hw|Hw].
    + unfold record_mean.
      destruct (lookup_lt_is_Some_2 sel k ltac:(lia)) as [e He]. rewrite He.
      rewrite dict_get_set. destruct (decide (date e = d)) as [Hd|Hd].
      * split.
        -- intros [= <-]. exists k. rewrite He. simpl.
           repeat split; auto; try lia. congruence.
        -- intros (i & Hi & _ & Hdi & Hlast & ->).
           destruct (decide (i = k)) as [->|Hne]; [reflexivity|].
           exfalso. apply (Hlast k); [lia|]. rewrite He. simpl. congruence.
      * rewrite IH. split.
        -- intros (i & Hi & Hwi & Hdi & Hlast & ->). exists i.
           repeat split; auto. intros j Hj.
           destruct (decide (j = k)) as [->|Hne].
           ++ rewrite He. simpl. congruence.
           ++ apply Hlast. lia.
        -- intros (i & Hi & Hwi & Hdi & Hlast & ->).
           assert (i <> k) by (intros ->; rewrite He in Hdi; simpl in Hdi; congruence).
           exists i. repeat split; auto; try lia.
           intros j Hj. apply Hlast. lia.
    + rewrite IH. split.
      * intros (i & Hi & Hwi & _). lia.
      * intros (i & Hi & Hwi & _). lia.
Qed.

Lemma recorded_means_lookup (sel : list Entry) (w : nat) (d : string) (v : float) :
  dict_get d (recorded_means sel w) = Some v
  <-> exists i, (w <= i + 1)%nat
        /\ date <$> sel !! i = Some d
        /\ (forall j, (i < j)%nat -> date <$> sel !! j <> Some d)
        /\ v = mean (window_ending (map value sel) w i).
Proof.
  change (recorded_means sel w) with (recorded_upto sel w (length sel)).
  rewrite recorded_upto_lookup by lia. split.
  - intros (i & Hi & Hw & Hd & Hlast & ->). exists i. repeat split; auto.
    intros j Hj. destruct (decide (j < length sel)%nat).
    + apply Hlast. lia.
    + rewrite lookup_ge_None_2 by lia. discriminate.
  - intros (i & Hw & Hd & Hlast & ->). exists i.
    split; [|repeat split; auto].
    + destruct (sel !! i) eqn:Hi; [|discriminate].
      apply lookup_lt_Some in Hi. exact Hi.
    + intros j Hj. apply Hlast. lia.
Qed.

Lemma last_occurrence {A} `{EqDecision A} (l : list A) (i : nat) (x : A) :
  l !! i = Some x ->
  exists j, (i <= j)%nat /\ l !! j = Some x
    /\ forall j', (j < j')%nat -> l !! j' <> Some x.
Proof.
  revert i. induction l as [|a l IH]; intros i Hi; [discriminate|].
  destruct i as [|i]; simpl in Hi.
  - injection Hi as ->. destruct (decide (x ∈ l)) as [Hin|Hnin].
    + apply list_elem_of_lookup in Hin as [k Hk].
      destruct (IH k Hk) as (j & Hj & Hxj & Hlast).
      exists (S j). repeat split; auto; [lia|].
      intros [|j'] Hj'; [lia|]. simpl. apply Hlast. lia.
    + exists 0%nat. repeat split; auto.
      intros [|j'] Hj'; [lia|]. simpl. intros Hx. apply Hnin.
      apply list_elem_of_lookup. eauto.
  - destruct (IH i Hi) as (j & Hj & Hxj & Hlast).
    exists (S j). repeat split; auto; [lia|].
    intros [|j'] Hj'; [lia|]. simpl. apply Hlast. lia.
Qed.

Lemma fold_record_mean_NoDup (sel : list Entry) (w : nat) (idxs : list nat)
    (res : dict float) :
  List.NoDup (map fst res) ->
  List.NoDup (map fst (fold_left (record_mean sel w) idxs res)).
Proof.
  revert res. induction idxs as [|i idxs IH]; intros res Hres; simpl; auto.
  apply IH. unfold record_mean. destruct (sel !! i); auto.
  now apply dict_set_NoDup.
Qed.

(** A date is a key of the result once only. *)
Lemma recorded_means_NoDup (sel : list Entry) (w : nat) :
  List.NoDup (map fst (recorded_means sel w)).
Proof. apply fold_record_mean_NoDup. constructor. Qed.

(** C9: a window below 1 makes [moving_average] raise [ValueError],
    whatever the entries and the metric are: the entries play no part in
    the outcome. *)
Theorem moving_average_bad_window (entries : list Entry) (metric_s : string)
    (window : Z) :
  window < 1 -> moving_average entries metric_s window = raise ValueError.
Proof.
  intros Hw. unfold moving_average.
  destruct (Z.ltb_spec window 1); [reflexivity|lia].
Qed.

Lemma moving_average_bad_window_witness :
  0 < 1 /\ moving_average make_sample "weight" 0 = raise ValueError.
Proof.
  split; [lia|]. apply (moving_average_bad_window make_sample "weight" 0). lia.
Defined.

(** C2: for a window of at least 1, [moving_average] works on the entries
    whose metric is the stripped, lower-cased target, put in ascending
    order of their date strings; it returns the dict in which, for every
    index [i] of that sequence with [i + 1 >= window], taken in ascending
    order, the mean of the [window] values ending at [i] has been stored
    under the date at [i]; the dict is empty when fewer than [window]
    entries match (none, in particular). *)
Theorem moving_average_spec (entries : list Entry) (metric_s : string)
    (window : Z) :
  1 <= window ->
  let matching := filter (fun e => metric e = normalize metric_s) entries in
  let sel := py_sorted date matching in
  sel ≡ₚ matching
  /\ Sorted (key_le date) sel
  /\ moving_average entries metric_s window
     = ret (recorded_means sel (Z.to_nat window))
  /\ (forall i e, (Z.to_nat window <= i + 1)%nat -> sel !! i = Some e ->
      exists v, dict_get (date e) (recorded_means sel (Z.to_nat window)) = Some v)
  /\ (forall d v, dict_get d (recorded_means sel (Z.to_nat window)) = Some v ->
      exists i, (Z.to_nat window <= i + 1)%nat /\ date <$> sel !! i = Some d
        /\ v = mean (window_ending (map value sel) (Z.to_nat window) i))
  /\ ((length matching < Z.to_nat window)%nat ->
      moving_average entries metric_s window = ret []).
Proof.
  intros Hw matching sel.
  pose proof (moving_average_eq entries metric_s window Hw) as Heq.
  fold matching sel in Heq.
  split; [apply py_sorted_perm|].
  split; [apply py_sorted_sorted|].
  split; [exact Heq|].
  split; [|split].
  - intros i e Hi He.
    destruct (last_occurrence (date <$> sel) i (date e)) as (j & Hj & Hdj & Hlast).
    { rewrite list_lookup_fmap, He. reflexivity. }
    rewrite list_lookup_fmap in Hdj.
    eexists. apply recorded_means_lookup. exists j.
    repeat split; eauto; [lia|].
    intros j' Hj'. rewrite <- list_lookup_fmap. now apply Hlast.
  - intros d v Hv. apply recorded_means_lookup in Hv
      as (i & Hi & Hd & _ & ->). eauto.
  - intros Hlen. rewrite Heq. f_equal. apply recorded_means_short.
    unfold sel. now rewrite py_sorted_length.
Qed.

Lemma moving_average_spec_witness :
  1 <= 3
  /\ let matching := filter (fun e => metric e = normalize " Weight") make_sample in
     let sel := py_sorted date matching in
     sel ≡ₚ matching
     /\ Sorted (key_le date) sel
     /\ moving_average make_sample " Weight" 3
        = ret (recorded_means sel (Z.to_nat 3))
     /\ (forall i e, (Z.to_nat 3 <= i + 1)%nat -> sel !! i = Some e ->
         exists v, dict_get (date e) (recorded_means sel (Z.to_nat 3)) = Some v)
     /\ (forall d v, dict_get d (recorded_means sel (Z.to_nat 3)) = Some v ->
         exists i, (Z.to_nat 3 <= i + 1)%nat /\ date <$> sel !! i = Some d
           /\ v = mean (window_ending (map value sel) (Z.to_nat 3) i))
     /\ ((length matching < Z.to_nat 3)%nat ->
         moving_average make_sample " Weight" 3 = ret []).
Proof.
  split; [lia|]. apply (moving_average_spec make_sample " Weight" 3). lia.
Defined.

(** C5: with several matching entries on one date, the sort keeps them in
    the order of the collection (it is stable) and keeps every one of them
    (the sorted sequence has the length of the selection); the value that
    the result holds for a date is the mean computed at the last position
    of the sorted sequence that carries the date. *)
Theorem moving_average_duplicate_dates (entries : list Entry)
    (metric_s : string) (window : Z) :
  1 <= window ->
  let matching := filter (fun e => metric e = normalize metric_s) entries in
  let sel := py_sorted date matching in
  (forall d, filter (fun e => date e = d) sel
             = filter (fun e => date e = d) matching)
  /\ length sel = length matching
  /\ exists results,
       moving_average entries metric_s window = ret results
       /\ List.NoDup (map fst results)
       /\ forall d v,
            dict_get d results = Some v
            <-> exists i, (Z.to_nat window <= i + 1)%nat
                  /\ date <$> sel !! i = Some d
                  /\ (forall j, (i < j)%nat -> date <$> sel !! j <> Some d)
                  /\ v = mean (window_ending (map value sel) (Z.to_nat window) i).
Proof.
  intros Hw matching sel.
  split; [intros d; apply py_sorted_stable|].
  split; [apply py_sorted_length|].
  eexists. split; [apply moving_average_eq; exact Hw|].
  split; [apply recorded_means_NoDup|].
  intros d v. apply recorded_means_lookup.
Qed.

Lemma moving_average_duplicate_dates_witness :
  1 <= 2
  /\ let entries := mkEntry "2025-09-03" "weight" 1 :: make_sample in
     let matching := filter (fun e => metric e = normalize "weight") entries in
     let sel := py_sorted date matching in
     (forall d, filter (fun e => date e = d) sel
                = filter (fun e => date e = d) matching)
     /\ length sel = length matching
     /\ exists results,
          moving_average entries "weight" 2 = ret results
          /\ List.NoDup (map fst results)
          /\ forall d v,
               dict_get d results = Some v
               <-> exists i, (Z.to_nat 2 <= i + 1)%nat
                     /\ date <$> sel !! i = Some d
                     /\ (forall j, (i < j)%nat -> date <$> sel !! j <> Some d)
                     /\ v = mean (window_ending (map value sel) (Z.to_nat 2) i).
Proof.
  split; [lia|].
  apply (moving_average_duplicate_dates
           (mkEntry "2025-09-03" "weight" 1 :: make_sample) "weight" 2).
  lia.
Defined.

Example moving_average_sample :
  moving_average make_sample "weight" 3
  = ret [("2025-09-03", 70.5); ("2025-09-04", 0x1.18aaaaaaaaaabp+6);
         ("2025-09-05", 0x1.1555555555555p+6); ("2025-09-06", 0x1.1399999999999p+6);
         ("2025-09-07", 0x1.14eeeeeeeeeefp+6)]%float.
Proof. vm_compute. reflexivity. Qed.

Example moving_average_sample_keys :
  exists results,
    moving_average make_sample "weight" 3 = ret results
    /\ dict_get "2025-09-01" results = None
    /\ dict_get "2025-09-02" results = None
    /\ dict_get "2025-09-03" results = Some 70.5%float.
Proof. eexists. split; [vm_compute; reflexivity|]. repeat split. Qed.

Example moving_average_no_match :
  moving_average make_sample "sleep" 3 = ret []
  /\ moving_average [] "weight" 3 = ret []
  /\ moving_average make_sample "weight" 8 = ret [].
Proof. repeat split. Qed.

(** Two entries on 2025-09-03: both take a position, the earlier one of
    the collection first, and the date keeps the mean computed at the
    second position. *)
Example moving_average_duplicates :
  let entries := mkEntry "2025-09-03" "weight" 1 :: make_sample in
  map value (py_sorted date entries) = [70; 71; 1; 70.5; 69; 68.5; 0x1.14ccccccccccdp+6; 70]%float
  /\ exists results,
       moving_average entries "weight" 2 = ret results
       /\ dict_get "2025-09-03" results = Some 35.75%float.
Proof.
  split; [vm_compute; reflexivity|].
  eexists. split; [vm_compute; reflexivity|]. reflexivity.
Qed.

(** ** The ordinal of a parsed date *)

Lemma days_before_year_bound (y : Z) :
  1 <= y <= 9998 -> 0 <= days_before_year y <= 3651329.
Proof.
  unfold days_before_year. intros Hy. cbv zeta.
  Z.div_mod_to_equations. lia.
Qed.

Lemma days_in_year_bound (y m d : Z) :
  1 <= m <= 12 -> 1 <= d <= days_in_month y m ->
  1 <= days_before_month y m + d <= 365 + (if is_leap y then 1 else 0).
Proof.
  intros Hm Hd.
  assert (Hcases : m = 1 \/ m = 2 \/ m = 3 \/ m = 4 \/ m = 5 \/ m = 6 \/ m = 7
                   \/ m = 8 \/ m = 9 \/ m = 10 \/ m = 11 \/ m = 12) by lia.
  unfold days_before_month. unfold days_in_month in Hd.
  repeat (destruct Hcases as [->|Hcases]); try subst m;
    destruct (is_leap y);
    repeat match goal with
      | H : context [Z.to_nat ?n] |- _ =>
          let v := eval vm_compute in (Z.to_nat n) in
          change (Z.to_nat n) with v in H
      | |- context [Z.to_nat ?n] =>
          let v := eval vm_compute in (Z.to_nat n) in
          change (Z.to_nat n) with v
      end;
    cbn in *; lia.
Qed.

Lemma ymd2ord_bounds (y m d : Z) :
  check_date_fields y m d = true -> 1 <= ymd2ord y m d <= MAXORDINAL.
Proof.
  unfold check_date_fields, MINYEAR, MAXYEAR, MAXORDINAL, ymd2ord. intros H.
  repeat (apply andb_prop in H; destruct H as [H ?]). bool_cases.
  pose proof (days_in_year_bound y m d ltac:(lia) ltac:(lia)) as Hdm.
  destruct (decide (y = 9999)) as [->|Hy].
  - change (is_leap 9999) with false in Hdm.
    change (days_before_year 9999) with 3651694. lia.
  - pose proof (days_before_year_bound y ltac:(lia)).
    destruct (is_leap y); lia.
Qed.

Lemma parse_date_bounds (s : string) (dt : datetime) :
  parse_date s = Some dt -> 1 <= dt <= MAXORDINAL.
Proof.
  unfold parse_date.
  destruct (regex_match _) as [[[[y m] d] [|? ?]]|]; try discriminate.
  destruct (check_date_fields y m d) eqn:Hchk; [|discriminate].
  intros [= <-]. now apply ymd2ord_bounds.
Qed.

Lemma sub_days_ret (dt n : Z) :
  0 <= n -> n < dt -> dt <= MAXORDINAL -> sub_days dt n = ret (dt - n).
Proof.
  intros Hn Hlt Hmax. unfold sub_days.
  destruct (Z.ltb_spec 0 (dt - n)), (Z.leb_spec (dt - n) MAXORDINAL);
    simpl; auto; lia.
Qed.

(** ** [summarize_week] *)

Lemma select_values_week (target : string) (end_ : datetime)
    (entries : list Entry) :
  (forall e, e ∈ entries -> metric e = target -> parse_date (date e) <> None) ->
  select_values (week_cond target (end_ - 6) end_) entries
  = ret (week_values target end_ entries).
Proof.
  unfold week_values.
  induction entries as [|e es IH]; intros Hparse; [reflexivity|].
  simpl. rewrite filter_cons.
  rewrite IH by (intros e' He'; apply Hparse; now right). clear IH.
  unfold week_cond, in_week, strptime.
  destruct (decide (metric e = target)) as [Hm|Hm].
  - rewrite (bool_decide_eq_true_2 _ Hm).
    specialize (Hparse e ltac:(left) Hm).
    destruct (parse_date (date e)) as [dt|]; [|congruence]. simpl.
    destruct ((end_ - 6 <=? dt) && (dt <=? end_)); reflexivity.
  - rewrite (bool_decide_eq_false_2 _ Hm). reflexivity.
Qed.

Lemma summarize_week_from (entries : list Entry) (metric_s : string)
    (end_date : option string) (end_ : datetime) :
  entries <> [] ->
  match end_date with
  | None =>
      dts <- mapM (fun e => strptime (date e)) entries ;;
      max_datetime dts
  | Some s => strptime s
  end = ret end_ ->
  summarize_week entries metric_s end_date
  = (start <- sub_days end_ 6 ;;
     selected <- select_values (week_cond (normalize metric_s) start end_) entries ;;
     ret (summary_of selected)).
Proof.
  intros Hne Hend. unfold summarize_week, normalize.
  destruct entries as [|e es]; [congruence|].
  set (ents := e :: es) in *. rewrite Hend. unfold bind, ret.
  destruct (sub_days end_ 6) as [?|start]; [reflexivity|].
  destruct (select_values _ ents) as [?|selected]; [reflexivity|].
  destruct selected; reflexivity.
Qed.

Lemma summarize_week_given (entries : list Entry) (metric_s end_s : string)
    (end_ : datetime) :
  parse_date end_s = Some end_ ->
  7 <= end_ ->
  (forall e, e ∈ entries -> metric e = normalize metric_s ->
             parse_date (date e) <> None) ->
  summarize_week entries metric_s (Some end_s)
  = ret (summary_of (week_values (normalize metric_s) end_ entries)).
Proof.
  intros Hend H7 Hparse.
  destruct (decide (entries = [])) as [->|Hne]; [reflexivity|].
  rewrite (summarize_week_from entries metric_s (Some end_s) end_ Hne)
    by (now apply strptime_ret).
  pose proof (parse_date_bounds _ _ Hend).
  rewrite sub_days_ret by lia. simpl bind at 1.
  rewrite select_values_week by exact Hparse. reflexivity.
Qed.

(** C3: for an end date that parses and is not before 0001-01-07, and
    entries of the metric whose dates parse, [summarize_week] selects the
    values of the entries whose metric is the normalized target and whose
    date lies in [end - 6 days .. end], in the order of the collection; a
    non-empty selection gives count, min, max, mean and the values, an
    empty one gives count 0 and no values, with no min, max or mean key. *)
Theorem summarize_week_spec (entries : list Entry) (metric_s end_s : string)
    (end_ : datetime) :
  parse_date end_s = Some end_ ->
  7 <= end_ ->
  (forall e, e ∈ entries -> metric e = normalize metric_s ->
             parse_date (date e) <> None) ->
  let selected := week_values (normalize metric_s) end_ entries in
  summarize_week entries metric_s (Some end_s) = ret (summary_of selected)
  /\ (selected = [] ->
      summary_of selected = [("count", OInt 0); ("values", OList [])]
      /\ dict_get "min" (summary_of selected) = None
      /\ dict_get "max" (summary_of selected) = None
      /\ dict_get "mean" (summary_of selected) = None)
  /\ (selected <> [] ->
      exists mn mx,
        py_min selected = ret mn /\ py_max selected = ret mx
        /\ dict_get "count" (summary_of selected)
           = Some (OInt (Z.of_nat (length selected)))
        /\ dict_get "min" (summary_of selected) = Some (OFloat mn)
        /\ dict_get "max" (summary_of selected) = Some (OFloat mx)
        /\ dict_get "mean" (summary_of selected) = Some (OFloat (mean selected))
        /\ dict_get "values" (summary_of selected) = Some (OList selected)).
Proof.
  intros Hend H7 Hparse selected.
  split; [now apply summarize_week_given|].
  split.
  - intros ->. repeat split.
  - intros Hne. destruct selected; [congruence|].
    do 2 eexists. repeat split.
Qed.

Lemma summarize_week_spec_witness :
  parse_date "2025-09-07" = Some 739501
  /\ 7 <= 739501
  /\ (forall e, e ∈ make_sample -> metric e = normalize "weight" ->
                parse_date (date e) <> None)
  /\ summarize_week make_sample "weight" (Some "2025-09-07")
     = ret (summary_of (week_values (normalize "weight") 739501 make_sample)).
Proof.
  assert (Hparse : forall e, e ∈ make_sample -> metric e = normalize "weight" ->
                             parse_date (date e) <> None).
  { intros e He _. unfold make_sample in He.
    repeat (apply elem_of_cons in He as [->|He]; [discriminate|]).
    now apply elem_of_nil in He. }
  split; [reflexivity|]. split; [lia|]. split; [exact Hparse|].
  apply (summarize_week_spec make_sample "weight" "2025-09-07" 739501);
    [reflexivity|lia|exact Hparse].
Defined.

(** The end date 0001-01-03 is a date of the calendar, and the window
    would start before 0001-01-01: the call raises [OverflowError]. *)
Lemma summarize_week_first_week :
  parse_date "0001-01-03" = Some 3
  /\ iso_date "0001-01-03" = Some 3
  /\ summarize_week make_sample "weight" (Some "0001-01-03") = raise OverflowError.
Proof. repeat split. Qed.

(** C10: on an empty collection [summarize_week] returns the summary with
    count 0 and no values, for every metric and whatever [end_date] is,
    a string that is no date included; the summary has no min, max or
    mean key. *)
Theorem summarize_week_empty (metric_s : string) (end_date : option string) :
  summarize_week [] metric_s end_date
  = ret [("count", OInt 0); ("values", OList [])]
  /\ dict_get "min" empty_summary = None
  /\ dict_get "max" empty_summary = None
  /\ dict_get "mean" empty_summary = None.
Proof. repeat split. Qed.

(** C1: an [end_date] that does not parse makes [summarize_week] raise
    [ValueError] on every collection that has an entry; on the empty
    collection the call returns the summary with count 0, with such an
    [end_date] and with none. *)
Theorem summarize_week_bad_end_date (entries : list Entry)
    (metric_s end_s : string) :
  parse_date end_s = None ->
  (entries <> [] ->
   summarize_week entries metric_s (Some end_s) = raise ValueError)
  /\ (entries = [] ->
      summarize_week entries metric_s (Some end_s) = ret empty_summary
      /\ summarize_week entries metric_s None = ret empty_summary).
Proof.
  intros Hend. split.
  - intros Hne. unfold summarize_week, strptime.
    destruct entries; [congruence|]. rewrite Hend. reflexivity.
  - intros ->. split; reflexivity.
Qed.

Lemma summarize_week_bad_end_date_witness :
  parse_date "07/09/2025" = None
  /\ (make_sample <> [] ->
      summarize_week make_sample "weight" (Some "07/09/2025") = raise ValueError)
  /\ (make_sample = [] ->
      summarize_week make_sample "weight" (Some "07/09/2025") = ret empty_summary
      /\ summarize_week make_sample "weight" None = ret empty_summary).
Proof.
  split; [reflexivity|].
  apply (summarize_week_bad_end_date make_sample "weight" "07/09/2025").
  reflexivity.
Defined.

(** On the empty collection nothing is raised: neither for an [end_date]
    that is no date, nor for a missing one. *)
Lemma summarize_week_empty_no_error :
  parse_date "not-a-date" = None
  /\ summarize_week [] "weight" (Some "not-a-date") = ret empty_summary
  /\ summarize_week [] "weight" None = ret empty_summary.
Proof. repeat split. Qed.

Example summarize_week_sample :
  summarize_week make_sample "weight" (Some "2025-09-07")
  = ret [("count", OInt 7); ("min", OFloat 68.5); ("max", OFloat 71);
         ("mean", OFloat 0x1.16f8af8af8af9p+6);
         ("values", OList [70; 71; 70.5; 69; 68.5; 0x1.14ccccccccccdp+6; 70])]%float.
Proof. vm_compute. reflexivity. Qed.

Example summarize_week_no_match :
  summarize_week make_sample "sleep" (Some "2025-09-07") = ret empty_summary.
Proof. vm_compute. reflexivity. Qed.

(** ** The default end date *)

Lemma mapM_strptime (entries : list Entry) :
  (forall e, e ∈ entries -> parse_date (date e) <> None) ->
  exists dts,
    mapM (fun e => strptime (date e)) entries = ret dts
    /\ Forall2 (fun e dt => parse_date (date e) = Some dt) entries dts.
Proof.
  induction entries as [|e es IH]; intros Hparse.
  - exists []. split; [reflexivity|constructor].
  - destruct IH as (dts & Hdts & Hall).
    { intros e' He'. apply Hparse. now right. }
    specialize (Hparse e ltac:(left)).
    destruct (parse_date (date e)) as [dt|] eqn:Hdt; [|congruence].
    exists (dt :: dts). simpl. unfold strptime at 1. rewrite Hdt, Hdts.
    split; [reflexivity|]. now constructor.
Qed.

Lemma fold_max_spec (l : list Z) (x : Z) :
  let m := fold_left (fun cur y => if cur <? y then y else cur) l x in
  m ∈ x :: l /\ forall y, y ∈ x :: l -> y <= m.
Proof.
  revert x. induction l as [|a l IH]; intros x; simpl.
  - split; [left|]. intros y Hy. apply list_elem_of_singleton in Hy. lia.
  - destruct (IH (if x <? a then a else x)) as [Hin Hmax]. split.
    + apply elem_of_cons in Hin as [->|Hin].
      * destruct (x <? a); [right; left|left].
      * right. now right.
    + intros y Hy. pose proof (Hmax _ ltac:(left)) as Hhd.
      destruct (Z.ltb_spec x a);
        apply elem_of_cons in Hy as [Hy|Hy]; try lia;
        (apply elem_of_cons in Hy as [Hy|Hy]; [lia|apply Hmax; now right]).
Qed.

(** Without [end_date] the end of the week is the latest date among all
    the entries. *)
Lemma default_end (entries : list Entry) :
  entries <> [] ->
  (forall e, e ∈ entries -> parse_date (date e) <> None) ->
  exists latest end_,
    latest ∈ entries
    /\ parse_date (date latest) = Some end_
    /\ (forall e dt, e ∈ entries -> parse_date (date e) = Some dt -> dt <= end_)
    /\ (dts <- mapM (fun e => strptime (date e)) entries ;; max_datetime dts)
       = ret end_.
Proof.
  intros Hne Hparse.
  destruct (mapM_strptime entries Hparse) as (dts & Hdts & Hall).
  rewrite Hdts. simpl bind.
  destruct dts as [|x dts].
  { apply Forall2_nil_inv_r in Hall. congruence. }
  simpl. destruct (fold_max_spec dts x) as [Hin Hmax].
  set (m := fold_left (fun cur y => if cur <? y then y else cur) dts x) in *.
  apply list_elem_of_lookup in Hin as [i Hi].
  destruct (Forall2_lookup_r _ _ _ _ _ Hall Hi) as (latest & Hlatest & Hdt).
  exists latest, m. repeat split; auto.
  - apply list_elem_of_lookup. eauto.
  - intros e dt He Hedt. apply list_elem_of_lookup in He as [j Hj].
    destruct (Forall2_lookup_l _ _ _ _ _ Hall Hj) as (dt' & Hdt' & Hedt').
    apply Hmax. apply list_elem_of_lookup. exists j.
    rewrite Hedt in Hedt'. injection Hedt' as ->. exact Hdt'.
Qed.

Lemma week_values_none (target : string) (end_ : datetime) (entries : list Entry) :
  (forall e dt, e ∈ entries -> metric e = target ->
                parse_date (date e) = Some dt -> dt < end_ - 6) ->
  week_values target end_ entries = [].
Proof.
  intros Hold. unfold week_values.
  replace (filter _ entries) with (@nil Entry); [reflexivity|].
  symmetry. apply elem_of_nil_inv. intros e He.
  apply list_elem_of_filter in He as [Hin He]. unfold in_week in Hin.
  apply andb_prop_elim in Hin as [Hm Hd]. apply bool_decide_unpack in Hm.
  destruct (parse_date (date e)) as [dt|] eqn:Hdt; [|exact Hd].
  specialize (Hold e dt He Hm Hdt).
  apply andb_prop_elim in Hd as [Hlo _]. apply Is_true_eq_true in Hlo.
  apply Z.leb_le in Hlo. lia.
Qed.

Lemma summarize_week_default_latest (entries : list Entry)
    (metric_s : string) (e : Entry) (dt : datetime) :
  e ∈ entries ->
  (forall e', e' ∈ entries -> parse_date (date e') <> None) ->
  parse_date (date e) = Some dt ->
  (forall e' dt', e' ∈ entries -> parse_date (date e') = Some dt' -> dt' <= dt) ->
  7 <= dt ->
  summarize_week entries metric_s None
  = ret (summary_of (week_values (normalize metric_s) dt entries)).
Proof.
  intros He Hparse Hdt Hmax H7.
  assert (Hne : entries <> []).
  { intros ->. now apply elem_of_nil in He. }
  destruct (default_end entries Hne Hparse)
    as (latest & end_ & Hin & Hend & Hle & Hdefault).
  assert (end_ = dt) as ->.
  { pose proof (Hle e dt He Hdt). pose proof (Hmax latest end_ Hin Hend). lia. }
  rewrite (summarize_week_from entries metric_s None dt Hne Hdefault).
  pose proof (parse_date_bounds _ _ Hdt).
  rewrite sub_days_ret by lia. simpl bind at 1.
  rewrite select_values_week by (intros e' He' _; now apply Hparse).
  reflexivity.
Qed.

(** C4: on a non-empty collection whose entries all carry dates that
    parse, one of them on or after 0001-01-07, [summarize_week] without
    [end_date] takes the latest date among all entries, whatever their
    metrics, as the end of the week: it returns the summary of the values
    of the requested metric dated in the seven days up to that date, which
    is what the call with that date as [end_date] returns; so a metric
    whose entries all lie more than 6 days before that latest date gets
    the summary with count 0. *)
Theorem summarize_week_default_anchor (entries : list Entry) (metric_s : string) :
  entries <> [] ->
  (forall e, e ∈ entries -> parse_date (date e) <> None) ->
  (exists e dt, e ∈ entries /\ parse_date (date e) = Some dt /\ 7 <= dt) ->
  exists latest end_,
    latest ∈ entries
    /\ parse_date (date latest) = Some end_
    /\ (forall e dt, e ∈ entries -> parse_date (date e) = Some dt -> dt <= end_)
    /\ summarize_week entries metric_s None
       = ret (summary_of (week_values (normalize metric_s) end_ entries))
    /\ summarize_week entries metric_s None
       = summarize_week entries metric_s (Some (date latest))
    /\ ((forall e dt, e ∈ entries -> metric e = normalize metric_s ->
                      parse_date (date e) = Some dt -> dt < end_ - 6) ->
        summarize_week entries metric_s None = ret empty_summary).
Proof.
  intros Hne Hparse (e7 & dt7 & He7 & Hdt7 & H7).
  destruct (default_end entries Hne Hparse)
    as (latest & end_ & Hin & Hend & Hmax & Hdefault).
  pose proof (Hmax e7 dt7 He7 Hdt7) as Hle.
  assert (Hsum : summarize_week entries metric_s None
                 = ret (summary_of (week_values (normalize metric_s) end_ entries))).
  { apply (summarize_week_default_latest entries metric_s latest end_);
      [assumption..|lia]. }
  exists latest, end_. repeat split; auto.
  - rewrite Hsum. symmetry. apply summarize_week_given; [exact Hend|lia|].
    intros e He _. now apply Hparse.
  - intros Hold. rewrite Hsum. now rewrite week_values_none.
Qed.

Lemma summarize_week_default_anchor_witness :
  let entries := make_sample ++ [mkEntry "2025-09-10" "sleep" 7.5] in
  entries <> []
  /\ (forall e, e ∈ entries -> parse_date (date e) <> None)
  /\ (exists e dt, e ∈ entries /\ parse_date (date e) = Some dt /\ 7 <= dt)
  /\ summarize_week entries "weight" None
     = ret (summary_of [69; 68.5; 0x1.14ccccccccccdp+6; 70]%float).
Proof.
  intros entries.
  assert (Hne : entries <> []) by discriminate.
  assert (Hparse : forall e, e ∈ entries -> parse_date (date e) <> None).
  { intros e He. unfold entries, make_sample in He. simpl in He.
    repeat (apply elem_of_cons in He as [->|He]; [discriminate|]).
    now apply elem_of_nil in He. }
  assert (Hlast : mkEntry "2025-09-10" "sleep" 7.5 ∈ entries).
  { unfold entries, make_sample. simpl. do 7 right. left. }
  assert (H7 : exists e dt,
             e ∈ entries /\ parse_date (date e) = Some dt /\ 7 <= dt).
  { exists (mkEntry "2025-09-10" "sleep" 7.5), 739504.
    split; [exact Hlast|]. split; [reflexivity|lia]. }
  split; [exact Hne|]. split; [exact Hparse|]. split; [exact H7|].
  destruct (summarize_week_default_anchor entries "weight" Hne Hparse H7)
    as (latest & end_ & Hin & Hend & Hmax & Hsum & _).
  assert (Hend_ : end_ = 739504).
  { pose proof (Hmax _ 739504 Hlast eq_refl) as Hge.
    unfold entries, make_sample in Hin. simpl in Hin.
    repeat (apply elem_of_cons in Hin as [->|Hin];
            [vm_compute in Hend; injection Hend as <-; lia|]).
    now apply elem_of_nil in Hin. }
  rewrite Hsum, Hend_. reflexivity.
Defined.

(** The only entry is dated 0001-01-03, which [add_entry] accepts: the
    week that ends on that latest date would start before 0001-01-01, and
    the call without [end_date] raises [OverflowError]. *)
Example summarize_week_default_first_week :
  parse_date "0001-01-03" = Some 3
  /\ summarize_week [mkEntry "0001-01-03" "weight" 70] "weight" None
     = raise OverflowError.
Proof. split; reflexivity. Qed.

(** The weights of the sample lie more than 6 days before the one sleep
    entry: without [end_date] their summary is empty. *)
Example summarize_week_sparse_metric :
  summarize_week (make_sample ++ [mkEntry "2025-10-01" "sleep" 7.5]) "weight" None
  = ret empty_summary
  /\ summarize_week make_sample "weight" None
     = summarize_week make_sample "weight" (Some "2025-09-07").
Proof. split; vm_compute; reflexivity. Qed.

(** ** [csv]: what the reader is fed *)

Lemma split_lines_nonempty (text : list ascii) :
  text <> [] -> split_lines text <> [].
Proof.
  destruct text as [|c rest]; [congruence|]. intros _. simpl.
  destruct (c =? LF)%char; [discriminate|].
  destruct (c =? CR)%char.
  - destruct rest as [|c' rest']; [discriminate|].
    destruct (c' =? LF)%char; discriminate.
  - destruct (split_lines rest); discriminate.
Qed.

Lemma marks_LF (rest : list ascii) :
  marks (LF :: rest) = Some LF :: None :: marks rest.
Proof. reflexivity. Qed.

Lemma marks_CRLF (rest : list ascii) :
  marks (CR :: LF :: rest) = Some CR :: Some LF :: None :: marks rest.
Proof. reflexivity. Qed.

Lemma marks_CR (c : ascii) (rest : list ascii) :
  c <> LF -> marks (CR :: c :: rest) = Some CR :: None :: marks (c :: rest).
Proof.
  intros Hc. unfold marks.
  change (split_lines (CR :: c :: rest))
    with (if (c =? LF)%char then [CR; c] :: split_lines rest
          else [CR] :: split_lines (c :: rest)).
  destruct (Ascii.eqb_spec c LF); [congruence|reflexivity].
Qed.

Lemma marks_plain (c : ascii) (rest : list ascii) :
  c <> LF -> c <> CR -> rest <> [] ->
  marks (c :: rest) = Some c :: marks rest.
Proof.
  intros Hlf Hcr Hrest. unfold marks. simpl split_lines.
  destruct (Ascii.eqb_spec c LF); [congruence|].
  destruct (Ascii.eqb_spec c CR); [congruence|].
  pose proof (split_lines_nonempty rest Hrest).
  destruct (split_lines rest); [congruence|reflexivity].
Qed.

Lemma special_false (c : ascii) :
  special c = false -> c <> COMMA /\ c <> QUOTE /\ c <> CR /\ c <> LF.
Proof.
  unfold special. intros H.
  destruct (Ascii.eqb_spec c COMMA), (Ascii.eqb_spec c QUOTE),
    (Ascii.eqb_spec c CR), (Ascii.eqb_spec c LF); try discriminate; auto.
Qed.

Lemma is_newline_false (c : ascii) :
  c <> LF -> c <> CR -> is_newline c = false.
Proof.
  unfold is_newline. intros.
  destruct (Ascii.eqb_spec c LF), (Ascii.eqb_spec c CR);
    try congruence; reflexivity.
Qed.

Lemma eqb_false (c d : ascii) : c <> d -> (c =? d)%char = false.
Proof. intros. destruct (Ascii.eqb_spec c d); congruence. Qed.

Lemma escape_chars_app_nonempty (f X : list ascii) :
  X <> [] -> escape_chars f ++ X <> [].
Proof. destruct (escape_chars f); simpl; congruence. Qed.

Lemma join_fields_cons (f : list ascii) (fs : list (list ascii)) :
  fs <> [] -> join_fields (f :: fs) = join_append f ++ COMMA :: join_fields fs.
Proof. destruct fs; [congruence|reflexivity]. Qed.

Lemma map_chars_back (row : list string) :
  map string_of_list_ascii (map list_ascii_of_string row) = row.
Proof.
  induction row as [|x row IH]; simpl; [reflexivity|].
  now rewrite string_of_list_ascii_of_string, IH.
Qed.

Lemma length_chars (s : string) :
  length (list_ascii_of_string s) = String.length s.
Proof. induction s as [|c s IH]; simpl; [reflexivity|]. now rewrite IH. Qed.

(** ** [csv]: the reader on what the writer wrote *)

Section ReaderFacts.

(** The field size limit in force. *)
Variable limit : Z.
Hypothesis limit_nonneg : 0 <= limit.

(** Reading line by line is reading the flat input. *)
Lemma read_marks_line (line : list ascii) (ms : list (option ascii)) (r : reader) :
  read_marks limit ((map Some line ++ [None]) ++ ms) r
  = (r' <- process_line limit line r ;;
     match state r' with
     | START_RECORD =>
         rows <- read_marks limit ms parse_reset ;;
         ret (fields r' :: rows)
     | _ => read_marks limit ms r'
     end).
Proof.
  unfold process_line. revert r.
  induction line as [|c line IH]; intros r; simpl.
  - destruct (parse_process_char limit r None); reflexivity.
  - destruct (parse_process_char limit r (Some c)) as [?|r']; simpl;
      [reflexivity|].
    apply IH.
Qed.

Lemma read_rows_marks (lines : list (list ascii)) (r : reader) :
  read_rows limit lines r
  = read_marks limit (flat_map (fun line => map Some line ++ [None]) lines) r.
Proof.
  revert r. induction lines as [|line lines IH]; intros r; [reflexivity|].
  simpl flat_map. rewrite read_marks_line. simpl.
  destruct (process_line limit line r) as [?|r']; simpl; [reflexivity|].
  rewrite !IH. reflexivity.
Qed.

Lemma csv_reader_run (text : list ascii) :
  csv_reader limit (string_of_list_ascii text) = run limit text parse_reset.
Proof.
  unfold csv_reader, run, marks.
  rewrite list_ascii_of_string_of_list_ascii. apply read_rows_marks.
Qed.

(** A character is stored while the field is below the limit. *)
Lemma parse_add_char_spec (s : parser_state) (buf : list ascii)
    (acc : list string) (c : ascii) :
  parse_add_char limit (mkReader s buf acc) c
  = if limit <=? Z.of_nat (length buf) then raise CsvError
    else ret (mkReader s (buf ++ [c]) acc).
Proof. reflexivity. Qed.

Lemma quoted_char (c : ascii) (buf : list ascii) (acc : list string) :
  c <> QUOTE ->
  parse_process_char limit (mkReader IN_QUOTED_FIELD buf acc) (Some c)
  = if limit <=? Z.of_nat (length buf) then raise CsvError
    else ret (mkReader IN_QUOTED_FIELD (buf ++ [c]) acc).
Proof.
  intros Hq. unfold parse_process_char, parse_add_char. simpl.
  now rewrite (eqb_false _ _ Hq).
Qed.

(** Inside a quoted field every character but the quote is kept, line
    endings included. *)
Lemma run_quoted_step (c : ascii) (X buf : list ascii) (acc : list string) :
  c <> QUOTE -> X <> [] ->
  run limit (c :: X) (mkReader IN_QUOTED_FIELD buf acc)
  = if limit <=? Z.of_nat (length buf) then raise CsvError
    else run limit X (mkReader IN_QUOTED_FIELD (buf ++ [c]) acc).
Proof.
  intros Hq HX. unfold run.
  assert (Hm : exists ms, marks (c :: X) = Some c :: ms
            /\ forall b, read_marks limit ms (mkReader IN_QUOTED_FIELD b acc)
                         = read_marks limit (marks X)
                             (mkReader IN_QUOTED_FIELD b acc)).
  { destruct (Ascii.eqb_spec c LF) as [->|Hlf].
    { eexists. split; [apply marks_LF|reflexivity]. }
    destruct (Ascii.eqb_spec c CR) as [->|Hcr].
    - destruct X as [|c2 X']; [congruence|].
      destruct (Ascii.eqb_spec c2 LF) as [->|Hc2].
      + eexists. split; [apply marks_CRLF|reflexivity].
      + eexists. split; [now apply marks_CR|reflexivity].
    - eexists. split; [now apply marks_plain|reflexivity]. }
  destruct Hm as (ms & -> & Hms). cbn [read_marks].
  rewrite quoted_char by exact Hq.
  destruct (limit <=? Z.of_nat (length buf)); [reflexivity|].
  simpl bind. apply Hms.
Qed.

Lemma run_quoted_quote (X buf : list ascii) (acc : list string) :
  X <> [] ->
  run limit (QUOTE :: QUOTE :: X) (mkReader IN_QUOTED_FIELD buf acc)
  = if limit <=? Z.of_nat (length buf) then raise CsvError
    else run limit X (mkReader IN_QUOTED_FIELD (buf ++ [QUOTE]) acc).
Proof.
  intros HX. unfold run.
  rewrite !marks_plain by (congruence || discriminate).
  cbn [read_marks].
  change (parse_process_char limit (mkReader IN_QUOTED_FIELD buf acc)
            (Some QUOTE))
    with (@ret reader (mkReader QUOTE_IN_QUOTED_FIELD buf acc)).
  simpl bind.
  unfold parse_process_char, parse_add_char. cbn [state field fields].
  change (QUOTE =? QUOTE)%char with true. cbv iota.
  destruct (limit <=? Z.of_nat (length buf)); reflexivity.
Qed.

Lemma run_quoted_body (f X buf : list ascii) (acc : list string) :
  X <> [] -> Z.of_nat (length buf) <= limit ->
  run limit (escape_chars f ++ X) (mkReader IN_QUOTED_FIELD buf acc)
  = if Z.of_nat (length buf + length f) <=? limit
    then run limit X (mkReader IN_QUOTED_FIELD (buf ++ f) acc)
    else raise CsvError.
Proof.
  intros HX. revert buf.
  induction f as [|c f IH]; intros buf Hbuf.
  - simpl. rewrite app_nil_r, Nat.add_0_r.
    destruct (Z.leb_spec (Z.of_nat (length buf)) limit); [reflexivity|lia].
  - assert (Hstep :
      run limit (escape_chars (c :: f) ++ X) (mkReader IN_QUOTED_FIELD buf acc)
      = if limit <=? Z.of_nat (length buf) then raise CsvError
        else run limit (escape_chars f ++ X)
               (mkReader IN_QUOTED_FIELD (buf ++ [c]) acc)).
    { simpl. destruct (Ascii.eqb_spec c QUOTE) as [->|Hq]; simpl.
      - apply run_quoted_quote. now apply escape_chars_app_nonempty.
      - apply run_quoted_step; [assumption|].
        now apply escape_chars_app_nonempty. }
    rewrite Hstep. clear Hstep.
    destruct (Z.leb_spec limit (Z.of_nat (length buf))) as [Hfull|Hroom].
    + simpl length.
      destruct (Z.leb_spec (Z.of_nat (length buf + S (length f))) limit);
        [lia|reflexivity].
    + rewrite IH by (rewrite length_app; simpl; lia).
      rewrite length_app, <- app_assoc. simpl.
      now replace (length buf + 1 + length f)%nat
        with (length buf + S (length f))%nat by lia.
Qed.

Lemma run_plain_step (c : ascii) (X buf : list ascii) (acc : list string) :
  special c = false -> X <> [] ->
  run limit (c :: X) (mkReader IN_FIELD buf acc)
  = if limit <=? Z.of_nat (length buf) then raise CsvError
    else run limit X (mkReader IN_FIELD (buf ++ [c]) acc).
Proof.
  intros Hc HX. apply special_false in Hc as (Hcomma & Hq & Hcr & Hlf).
  unfold run. rewrite marks_plain by assumption. cbn [read_marks].
  unfold parse_process_char, parse_add_char. cbn [state field fields].
  rewrite is_newline_false, (eqb_false _ _ Hcomma) by assumption.
  destruct (limit <=? Z.of_nat (length buf)); reflexivity.
Qed.

Lemma run_plain_body (f X buf : list ascii) (acc : list string) :
  existsb special f = false -> X <> [] -> Z.of_nat (length buf) <= limit ->
  run limit (f ++ X) (mkReader IN_FIELD buf acc)
  = if Z.of_nat (length buf + length f) <=? limit
    then run limit X (mkReader IN_FIELD (buf ++ f) acc)
    else raise CsvError.
Proof.
  intros Hf HX. revert buf.
  induction f as [|c f IH]; intros buf Hbuf.
  - simpl. rewrite app_nil_r, Nat.add_0_r.
    destruct (Z.leb_spec (Z.of_nat (length buf)) limit); [reflexivity|lia].
  - simpl in Hf. apply orb_false_elim in Hf as [Hc Hf]. simpl app.
    rewrite run_plain_step; [|assumption|destruct f; simpl; congruence].
    destruct (Z.leb_spec limit (Z.of_nat (length buf))) as [Hfull|Hroom].
    + simpl length.
      destruct (Z.leb_spec (Z.of_nat (length buf + S (length f))) limit);
        [lia|reflexivity].
    + rewrite IH by (assumption || (rewrite length_app; simpl; lia)).
      rewrite length_app, <- app_assoc. simpl.
      now replace (length buf + 1 + length f)%nat
        with (length buf + S (length f))%nat by lia.
Qed.

Lemma run_open_quote (s : parser_state) (X : list ascii) (acc : list string) :
  s = START_FIELD \/ s = START_RECORD -> X <> [] ->
  run limit (QUOTE :: X) (mkReader s [] acc)
  = run limit X (mkReader IN_QUOTED_FIELD [] acc).
Proof.
  intros [-> | ->] HX; unfold run;
    rewrite marks_plain by (assumption || discriminate); reflexivity.
Qed.

Lemma run_close_comma (X buf : list ascii) (acc : list string) :
  X <> [] ->
  run limit (QUOTE :: COMMA :: X) (mkReader IN_QUOTED_FIELD buf acc)
  = run limit X (mkReader START_FIELD [] (acc ++ [string_of_list_ascii buf])).
Proof.
  intros HX. unfold run.
  rewrite !marks_plain by (assumption || discriminate). reflexivity.
Qed.

Lemma run_close_end (X buf : list ascii) (acc : list string) :
  run limit (QUOTE :: CR :: LF :: X) (mkReader IN_QUOTED_FIELD buf acc)
  = (rows <- run limit X parse_reset ;;
     ret ((acc ++ [string_of_list_ascii buf]) :: rows)).
Proof.
  unfold run. rewrite marks_plain by discriminate. rewrite marks_CRLF.
  reflexivity.
Qed.

Lemma run_empty_comma (s : parser_state) (X : list ascii) (acc : list string) :
  s = START_FIELD \/ s = START_RECORD -> X <> [] ->
  run limit (COMMA :: X) (mkReader s [] acc)
  = run limit X (mkReader START_FIELD [] (acc ++ [""])).
Proof.
  intros [-> | ->] HX; unfold run;
    rewrite marks_plain by (assumption || discriminate); reflexivity.
Qed.

Lemma run_empty_end (X : list ascii) (acc : list string) :
  run limit (CR :: LF :: X) (mkReader START_FIELD [] acc)
  = (rows <- run limit X parse_reset ;; ret ((acc ++ [""]) :: rows)).
Proof. unfold run. rewrite marks_CRLF. reflexivity. Qed.

Lemma run_start_plain (s : parser_state) (c : ascii) (X : list ascii)
    (acc : list string) :
  s = START_FIELD \/ s = START_RECORD -> special c = false -> X <> [] ->
  run limit (c :: X) (mkReader s [] acc)
  = if limit <=? 0 then raise CsvError
    else run limit X (mkReader IN_FIELD [c] acc).
Proof.
  intros Hs Hc HX. apply special_false in Hc as (Hcomma & Hq & Hcr & Hlf).
  unfold run. rewrite marks_plain by assumption.
  destruct Hs as [-> | ->]; cbn [read_marks];
    unfold parse_process_char, start_field, parse_add_char;
    cbn [state field fields length];
    rewrite is_newline_false, (eqb_false _ _ Hcomma), (eqb_false _ _ Hq)
      by assumption;
    change (Z.of_nat 0) with 0;
    destruct (limit <=? 0); reflexivity.
Qed.

Lemma run_plain_comma (X buf : list ascii) (acc : list string) :
  X <> [] ->
  run limit (COMMA :: X) (mkReader IN_FIELD buf acc)
  = run limit X (mkReader START_FIELD [] (acc ++ [string_of_list_ascii buf])).
Proof.
  intros HX. unfold run.
  rewrite marks_plain by (assumption || discriminate). reflexivity.
Qed.

Lemma run_plain_end (X buf : list ascii) (acc : list string) :
  run limit (CR :: LF :: X) (mkReader IN_FIELD buf acc)
  = (rows <- run limit X parse_reset ;;
     ret ((acc ++ [string_of_list_ascii buf]) :: rows)).
Proof. unfold run. rewrite marks_CRLF. reflexivity. Qed.

(** A written field followed by the delimiter is read back as the field
    when it is within the limit; a longer one raises. *)
Lemma run_field_comma (s : parser_state) (f X : list ascii) (acc : list string) :
  s = START_FIELD \/ s = START_RECORD -> X <> [] ->
  run limit (join_append f ++ COMMA :: X) (mkReader s [] acc)
  = if chars_fit limit f
    then run limit X (mkReader START_FIELD [] (acc ++ [string_of_list_ascii f]))
    else raise CsvError.
Proof.
  intros Hs HX. unfold join_append, chars_fit.
  destruct (existsb special f) eqn:Hsp.
  - simpl. rewrite <- app_assoc. simpl.
    rewrite run_open_quote;
      [|assumption|apply escape_chars_app_nonempty; discriminate].
    rewrite run_quoted_body by (discriminate || (simpl; lia)).
    simpl. destruct (Z.of_nat (length f) <=? limit); [|reflexivity].
    now rewrite run_close_comma.
  - destruct f as [|c f].
    + simpl. change (Z.of_nat 0) with 0.
      destruct (Z.leb_spec 0 limit); [|lia].
      now apply run_empty_comma.
    + simpl in Hsp. apply orb_false_elim in Hsp as [Hc Hf]. simpl app.
      rewrite run_start_plain;
        [|assumption|assumption|destruct f; discriminate].
      destruct (Z.leb_spec limit 0) as [H0|H0].
      * destruct (Z.leb_spec (Z.of_nat (length (c :: f))) limit);
          [simpl in *; lia|reflexivity].
      * rewrite run_plain_body by (assumption || discriminate || (simpl; lia)).
        simpl. destruct (Z.of_nat (S (length f)) <=? limit); [|reflexivity].
        now rewrite run_plain_comma.
Qed.

(** A written field followed by the line terminator ends the record. *)
Lemma run_field_end (f X : list ascii) (acc : list string) :
  run limit (join_append f ++ CR :: LF :: X) (mkReader START_FIELD [] acc)
  = if chars_fit limit f
    then (rows <- run limit X parse_reset ;;
          ret ((acc ++ [string_of_list_ascii f]) :: rows))
    else raise CsvError.
Proof.
  unfold join_append, chars_fit. destruct (existsb special f) eqn:Hsp.
  - simpl. rewrite <- app_assoc. simpl.
    rewrite run_open_quote;
      [|now left|apply escape_chars_app_nonempty; discriminate].
    rewrite run_quoted_body by (discriminate || (simpl; lia)).
    simpl. destruct (Z.of_nat (length f) <=? limit); [|reflexivity].
    apply run_close_end.
  - destruct f as [|c f].
    + simpl. change (Z.of_nat 0) with 0.
      destruct (Z.leb_spec 0 limit); [|lia]. apply run_empty_end.
    + simpl in Hsp. apply orb_false_elim in Hsp as [Hc Hf]. simpl app.
      rewrite run_start_plain;
        [|now left|assumption|destruct f; discriminate].
      destruct (Z.leb_spec limit 0) as [H0|H0].
      * destruct (Z.leb_spec (Z.of_nat (length (c :: f))) limit);
          [simpl in *; lia|reflexivity].
      * rewrite run_plain_body by (assumption || discriminate || (simpl; lia)).
        simpl. destruct (Z.of_nat (S (length f)) <=? limit); [|reflexivity].
        apply run_plain_end.
Qed.

(** The fields of a record that follow the first are read back in turn,
    and the line terminator gives the record. *)
Lemma run_fields (fs : list (list ascii)) (X : list ascii) (acc : list string) :
  fs <> [] ->
  run limit (join_fields fs ++ CR :: LF :: X) (mkReader START_FIELD [] acc)
  = if forallb (chars_fit limit) fs
    then (rows <- run limit X parse_reset ;;
          ret ((acc ++ map string_of_list_ascii fs) :: rows))
    else raise CsvError.
Proof.
  revert acc. induction fs as [|f fs IH]; intros acc Hne; [congruence|].
  destruct (decide (fs = [])) as [->|Hfs].
  - simpl. rewrite run_field_end, andb_true_r. reflexivity.
  - rewrite join_fields_cons by exact Hfs.
    rewrite <- app_assoc. simpl app.
    rewrite run_field_comma; [|now left|destruct (join_fields fs); discriminate].
    simpl forallb. destruct (chars_fit limit f); [|reflexivity].
    rewrite IH by exact Hfs. simpl map. now rewrite <- app_assoc.
Qed.

Lemma chars_fit_fits (s : string) :
  chars_fit limit (list_ascii_of_string s) = fits limit s.
Proof. unfold chars_fit, fits. now rewrite length_chars. Qed.

Lemma forallb_chars_fit (row : list string) :
  forallb (chars_fit limit) (map list_ascii_of_string row)
  = forallb (fits limit) row.
Proof.
  induction row as [|s row IH]; [reflexivity|].
  simpl. now rewrite chars_fit_fits, IH.
Qed.

(** A written row of two fields or more is read back as it was when its
    fields are within the limit. *)
Lemma run_writerow (row : list string) (X : list ascii) :
  (2 <= length row)%nat ->
  run limit (writerow row ++ X) parse_reset
  = if forallb (fits limit) row
    then (rows <- run limit X parse_reset ;; ret (row :: rows))
    else raise CsvError.
Proof.
  intros Hlen. destruct row as [|a [|b row]]; simpl in Hlen; try lia.
  unfold writerow. simpl map.
  rewrite join_fields_cons by discriminate.
  set (rest := join_fields (_ :: _)).
  assert (Hrec : join_append (list_ascii_of_string a) ++ COMMA :: rest <> []).
  { destruct (join_append _); discriminate. }
  destruct (join_append (list_ascii_of_string a) ++ COMMA :: rest) eqn:Hjoin;
    [congruence|]. rewrite <- Hjoin. clear Hjoin Hrec.
  rewrite <- !app_assoc. simpl app. unfold parse_reset at 1.
  rewrite run_field_comma;
    [|now right|subst rest; destruct (join_fields _); discriminate].
  rewrite chars_fit_fits. cbn [forallb].
  destruct (fits limit a); [|reflexivity]. cbn [andb].
  subst rest. rewrite run_fields by discriminate.
  change (list_ascii_of_string b :: map list_ascii_of_string row)
    with (map list_ascii_of_string (b :: row)).
  rewrite forallb_chars_fit. cbn [forallb].
  destruct (fits limit b && forallb (fits limit) row); [|reflexivity].
  simpl. rewrite !string_of_list_ascii_of_string.
  now rewrite map_chars_back.
Qed.

(** The rows the writer wrote are read back when every field is within
    the limit; otherwise the reader raises. *)
Lemma run_rows (rows : list (list string)) :
  Forall (fun row => (2 <= length row)%nat) rows ->
  run limit (flat_map writerow rows) parse_reset
  = if rows_fit limit rows then ret rows else raise CsvError.
Proof.
  induction 1 as [|row rows Hrow _ IH]; [reflexivity|].
  simpl flat_map. rewrite run_writerow by exact Hrow.
  unfold rows_fit in *. cbn [forallb].
  destruct (forallb (fits limit) row); [|reflexivity].
  rewrite IH. cbn [andb].
  destruct (forallb (forallb (fits limit)) rows); reflexivity.
Qed.

End ReaderFacts.

(** The limit at work: a field of four characters, plain or quoted, is
    read under a limit of four and refused under a limit of three; empty
    fields need no room. *)
Example csv_reader_limit :
  let text rows := string_of_list_ascii (flat_map writerow rows) in
  csv_reader 4 (text [["abcd"; "x"]]) = ret [["abcd"; "x"]]
  /\ csv_reader 3 (text [["abcd"; "x"]]) = raise CsvError
  /\ csv_reader 4 (text [[String "a" (String QUOTE "b,"); "x"]])
     = ret [[String "a" (String QUOTE "b,"); "x"]]
  /\ csv_reader 3 (text [[String "a" (String QUOTE "b,"); "x"]])
     = raise CsvError
  /\ csv_reader 2 (text [["ab"; "cde"]]) = raise CsvError
  /\ csv_reader 0 (text [[""; ""]]) = ret [[""; ""]].
Proof. repeat split; vm_compute; reflexivity. Qed.

(** ** [export_csv] *)

Section ExportFacts.

Variable float_repr : float -> string.
Variable can_open : string -> bool.

Lemma csv_text_chars (entries : list Entry) :
  list_ascii_of_string (csv_text float_repr entries)
  = flat_map writerow (fieldnames :: map (dict_to_list float_repr) entries).
Proof.
  unfold csv_text. rewrite list_ascii_of_string_of_list_ascii.
  assert (Hmap : flat_map (fun e => writerow (dict_to_list float_repr e)) entries
                 = flat_map writerow (map (dict_to_list float_repr) entries)).
  { induction entries as [|e es IH]; simpl; [reflexivity|]. now rewrite IH. }
  rewrite Hmap. reflexivity.
Qed.

(** Reading the written text back under any limit. *)
Lemma csv_reader_csv_text (limit : Z) (entries : list Entry) :
  0 <= limit ->
  csv_reader limit (csv_text float_repr entries)
  = if rows_fit limit (fieldnames :: map (dict_to_list float_repr) entries)
    then ret (fieldnames :: map (dict_to_list float_repr) entries)
    else raise CsvError.
Proof.
  intros Hlimit.
  rewrite <- (string_of_list_ascii_of_string (csv_text float_repr entries)).
  rewrite csv_reader_run, csv_text_chars. apply run_rows; [exact Hlimit|].
  constructor; [simpl; lia|].
  apply Forall_forall. intros row Hrow.
  apply list_elem_of_fmap in Hrow as (e & -> & _). simpl. lia.
Qed.

(** Under the limit the module starts with, the header is no obstacle. *)
Lemma csv_reader_default (entries : list Entry) :
  csv_reader FIELD_LIMIT (csv_text float_repr entries)
  = if rows_fit FIELD_LIMIT (map (dict_to_list float_repr) entries)
    then ret (fieldnames :: map (dict_to_list float_repr) entries)
    else raise CsvError.
Proof. rewrite csv_reader_csv_text by (unfold FIELD_LIMIT; lia). reflexivity. Qed.

Lemma export_csv_opened (files : dict string) (entries : list Entry)
    (filename : string) :
  has_nul filename = false -> can_open filename = true ->
  export_csv float_repr can_open files entries filename
  = (dict_set filename (csv_text float_repr entries) files, ret tt).
Proof. intros Hnul Hopen. unfold export_csv, py_open. now rewrite Hnul, Hopen. Qed.

(** A refused [open] leaves the files as they were: [ValueError] for a
    name with a NUL character, [OSError] when the system refuses. *)
Lemma export_csv_refused (files : dict string) (entries : list Entry)
    (filename : string) :
  (has_nul filename = true ->
   export_csv float_repr can_open files entries filename
   = (files, raise ValueError))
  /\ (has_nul filename = false -> can_open filename = false ->
      export_csv float_repr can_open files entries filename
      = (files, raise OSError)).
Proof.
  unfold export_csv, py_open.
  split; [intros ->|intros -> ->]; reflexivity.
Qed.

Lemma read_csv_exported (files : dict string) (entries : list Entry)
    (filename : string) :
  read_csv (dict_set filename (csv_text float_repr entries) files) filename
  = if rows_fit FIELD_LIMIT (map (dict_to_list float_repr) entries)
    then ret (fieldnames :: map (dict_to_list float_repr) entries)
    else raise CsvError.
Proof.
  unfold read_csv. rewrite dict_get_set, decide_True by reflexivity.
  apply csv_reader_default.
Qed.

(** C8: when the file can be opened, [export_csv] returns and the file
    holds the header row [date,metric,value] followed by one row per
    entry, in the order of the collection, each ended by CR LF; reading
    the file back gives the header and then, entry by entry, the date, the
    metric and the text of the value, provided that no field is longer
    than the reader's field size limit of 131072 characters; with a longer
    field the reader raises [csv.Error]. *)
Theorem export_csv_round_trip (files : dict string) (entries : list Entry)
    (filename : string) :
  has_nul filename = false ->
  can_open filename = true ->
  let out := export_csv float_repr can_open files entries filename in
  let rows := map (dict_to_list float_repr) entries in
  out.2 = ret tt
  /\ dict_get filename out.1 = Some (csv_text float_repr entries)
  /\ list_ascii_of_string (csv_text float_repr entries)
     = list_ascii_of_string "date,metric,value" ++ [CR; LF]
       ++ flat_map writerow rows
  /\ length rows = length entries
  /\ (forall i e, entries !! i = Some e ->
      rows !! i = Some [date e; metric e; float_repr (value e)])
  /\ read_csv out.1 filename
     = if rows_fit FIELD_LIMIT rows
       then ret (["date"; "metric"; "value"] :: rows)
       else raise CsvError.
Proof.
  intros Hnul Hopen out rows. unfold out.
  rewrite export_csv_opened by assumption. cbn [fst snd].
  split; [reflexivity|].
  split; [now rewrite dict_get_set, decide_True by reflexivity|].
  split; [rewrite csv_text_chars; reflexivity|].
  split; [apply length_map|].
  split; [|apply read_csv_exported].
  intros i e He. unfold rows. rewrite list_lookup_fmap, He. reflexivity.
Qed.

End ExportFacts.

Lemma export_csv_round_trip_witness :
  let repr := fun _ : float => "70.0" in
  let out :=
    export_csv repr (fun _ => true) [] make_sample "health_entries.csv" in
  has_nul "health_entries.csv" = false
  /\ out.2 = ret tt
  /\ read_csv out.1 "health_entries.csv"
     = ret (["date"; "metric"; "value"] :: map (dict_to_list repr) make_sample).
Proof.
  intros repr out.
  assert (Hnul : has_nul "health_entries.csv" = false) by reflexivity.
  split; [exact Hnul|].
  destruct (export_csv_round_trip repr (fun _ => true) [] make_sample
              "health_entries.csv" Hnul eq_refl)
    as (Hret & _ & _ & _ & _ & Hread).
  split; [exact Hret|exact Hread].
Defined.

(** A string of [n] characters [c]. *)
Lemma length_string_of_list (l : list ascii) :
  String.length (string_of_list_ascii l) = length l.
Proof. induction l as [|c l IH]; simpl; [reflexivity|]. now rewrite IH. Qed.

(** A metric of 131073 characters is written, and the file cannot be read
    back under the reader's limit. *)
Example export_csv_long_field :
  let long := string_of_list_ascii (repeat "a"%char (Z.to_nat 131073)) in
  let entries := [mkEntry "2025-09-01" long 70] in
  let out :=
    export_csv (fun _ => "70.0") (fun _ => true) [] entries
      "health_entries.csv" in
  out.2 = ret tt
  /\ read_csv out.1 "health_entries.csv" = raise CsvError.
Proof.
  intros long entries out. unfold out.
  rewrite export_csv_opened by reflexivity. cbn [fst snd].
  split; [reflexivity|]. rewrite read_csv_exported.
  assert (Hlong : fits FIELD_LIMIT long = false).
  { unfold fits, long. rewrite length_string_of_list, repeat_length.
    rewrite Z2Nat.id by lia. reflexivity. }
  unfold rows_fit, entries. cbn [map forallb dict_to_list date metric value].
  rewrite Hlong. reflexivity.
Qed.

(** A metric with a comma, one with a line break and a quote character,
    and empty fields: the rows are quoted where needed and read back as
    they were. *)
Example export_csv_quoting :
  let entries :=
    [mkEntry "2025-09-01" "a,b" 1;
     mkEntry "2025-09-02" (String LF (String QUOTE "r")) 2;
     mkEntry "" "" 3] in
  let repr := fun _ : float => "1.5" in
  csv_reader FIELD_LIMIT (csv_text repr entries)
  = ret (["date"; "metric"; "value"] :: map (dict_to_list repr) entries).
Proof. vm_compute. reflexivity. Qed.

(** * Further properties *)

(** ** [add_entry]: failures and what is stored *)

Section AddEntryMore.

Variable float_of_str : string -> option float.

(** X1: [add_entry] raises exactly when the parser rejects the date or
    [float(value)] raises, whatever the latter raises ([TypeError] for
    [None], [OverflowError] for a huge [int]); the exception is always a
    [ValueError], and the list is then left as it was. *)
Theorem add_entry_raises (entries : list Entry) (date_s metric_s : string)
    (v : pyvalue) :
  (add_entry float_of_str entries date_s metric_s v = (entries, raise ValueError)
   <-> parse_date date_s = None \/ exists e, py_float float_of_str v = raise e)
  /\ (forall out e,
        add_entry float_of_str entries date_s metric_s v = (out, raise e) ->
        e = ValueError /\ out = entries)
  /\ (forall out e,
        add_entry float_of_str entries date_s metric_s v = (out, ret e) ->
        out = entries ++ [e] /\ parse_date date_s <> None).
Proof.
  pose proof (add_entry_failure float_of_str entries date_s metric_s v)
    as [Hiff Hunch].
  cbv zeta in Hiff, Hunch.
  destruct (add_entry float_of_str entries date_s metric_s v) as [out' r] eqn:Hadd.
  simpl in Hiff, Hunch. split; [|split].
  - rewrite <- Hiff. split.
    + intros [= _ ->]. eauto.
    + intros [e He]. destruct (Hunch e He) as [-> ->]. now rewrite He.
  - intros out e [= <- ->]. now apply Hunch.
  - intros out e [= <- ->]. revert Hadd. unfold add_entry, strptime.
    destruct (parse_date date_s); simpl; [|discriminate].
    destruct (py_float float_of_str v); simpl; [discriminate|].
    intros [= <- <-]. split; [reflexivity|discriminate].
Qed.

(** X2: a date in the strict format [YYYY-MM-DD] that names a day of the
    calendar (years 1 to 9999) is accepted whenever the value converts,
    and it is stored as it was given. *)
Theorem add_entry_accepts_iso (entries : list Entry) (date_s metric_s : string)
    (v : pyvalue) (dt : datetime) (f : float) :
  iso_date date_s = Some dt ->
  py_float float_of_str v = ret f ->
  add_entry float_of_str entries date_s metric_s v
  = (entries ++ [mkEntry date_s (normalize metric_s) f],
     ret (mkEntry date_s (normalize metric_s) f))
  /\ parse_date date_s = Some dt.
Proof.
  intros Hiso Hv. apply iso_date_parse_date in Hiso.
  unfold add_entry, strptime. rewrite Hiso, Hv. split; reflexivity.
Qed.

End AddEntryMore.

Lemma add_entry_accepts_iso_witness :
  iso_date "2024-02-29" = Some 738945
  /\ py_float float_of_digits (VInt 70) = ret 70%float
  /\ add_entry float_of_digits make_sample "2024-02-29" "Weight" (VInt 70)
     = (make_sample ++ [mkEntry "2024-02-29" (normalize "Weight") 70],
        ret (mkEntry "2024-02-29" (normalize "Weight") 70))
  /\ parse_date "2024-02-29" = Some 738945.
Proof.
  split; [reflexivity|]. split; [vm_compute; reflexivity|].
  apply (add_entry_accepts_iso float_of_digits); [reflexivity|].
  vm_compute. reflexivity.
Defined.

(** ** [strip] and [lower] once more *)

Lemma isspace_lower_char (c : ascii) : isspace (lower_char c) = isspace c.
Proof. destruct c as [[] [] [] [] [] [] [] []]; reflexivity. Qed.

Lemma lower_char_idem (c : ascii) : lower_char (lower_char c) = lower_char c.
Proof. destruct c as [[] [] [] [] [] [] [] []]; reflexivity. Qed.

Lemma lstrip_chars_id (l : list ascii) :
  (forall c, head l = Some c -> isspace c = false) -> lstrip_chars l = l.
Proof.
  destruct l as [|c l]; [reflexivity|]. intros H. simpl.
  now rewrite (H c eq_refl).
Qed.

Lemma strip_chars_id (l : list ascii) :
  (forall c, head l = Some c -> isspace c = false) ->
  (forall c, last l = Some c -> isspace c = false) ->
  strip_chars l = l.
Proof.
  intros Hhd Hlast. unfold strip_chars.
  rewrite (lstrip_chars_id l Hhd).
  rewrite lstrip_chars_id; [apply reverse_involutive|].
  intros c. rewrite head_reverse. apply Hlast.
Qed.

Lemma strip_chars_lower (l : list ascii) :
  strip_chars (map lower_char (strip_chars l)) = map lower_char (strip_chars l).
Proof.
  destruct (strip_chars_spec l) as (_ & _ & _ & _ & _ & Hhd & Hlast).
  apply strip_chars_id.
  - intros c Hc. destruct (strip_chars l) as [|a t]; [discriminate|].
    simpl in Hc. injection Hc as <-. rewrite isspace_lower_char.
    now apply Hhd.
  - intros c Hc. change (map lower_char (strip_chars l))
      with (lower_char <$> strip_chars l) in Hc.
    rewrite fmap_last in Hc.
    destruct (last (strip_chars l)) as [a|] eqn:Ha; [|discriminate].
    simpl in Hc. injection Hc as <-. rewrite isspace_lower_char.
    now apply Hlast.
Qed.

(** Normalizing a normalized metric changes nothing. *)
Lemma normalize_idem (s : string) : normalize (normalize s) = normalize s.
Proof.
  unfold normalize, lower, strip.
  rewrite !list_ascii_of_string_of_list_ascii.
  rewrite strip_chars_lower, map_map. f_equal.
  apply map_ext. intros c. apply lower_char_idem.
Qed.

(** ** [add_entry] then [moving_average] *)

Lemma filter_last_occurrence {A} (P : A -> Prop) `{forall a, Decision (P a)}
    (s t : list A) (x : A) :
  filter P s = t ++ [x] ->
  exists i, s !! i = Some x
    /\ forall j y, (i < j)%nat -> s !! j = Some y -> ~ P y.
Proof.
  revert t. induction s as [|a s IH]; intros t Hf.
  - rewrite filter_nil in Hf. now destruct t.
  - rewrite filter_cons in Hf. destruct (decide (P a)) as [Ha|Ha].
    + destruct t as [|b t].
      * simpl in Hf. injection Hf as -> Hnil. exists 0%nat. split; [reflexivity|].
        intros [|j] y Hj Hy; [lia|]. simpl in Hy. intros HP.
        assert (Hin : y ∈ filter P s).
        { apply list_elem_of_filter. split; [exact HP|].
          apply list_elem_of_lookup. eauto. }
        rewrite Hnil in Hin. now apply elem_of_nil in Hin.
      * simpl in Hf. injection Hf as -> Hf.
        destruct (IH t Hf) as (i & Hi & Hlast). exists (S i).
        split; [exact Hi|]. intros [|j] y Hj Hy; [lia|].
        apply (Hlast j); [lia|exact Hy].
    + destruct (IH t Hf) as (i & Hi & Hlast). exists (S i).
      split; [exact Hi|]. intros [|j] y Hj Hy; [lia|].
      apply (Hlast j); [lia|exact Hy].
Qed.

(** In the sorted sequence the element that was last in the list stands
    behind every other element of its key. *)
Lemma py_sorted_snoc_last {A} (key : A -> string) (l : list A) (x : A) :
  exists i, py_sorted key (l ++ [x]) !! i = Some x
    /\ forall j, (i < j)%nat ->
         key <$> py_sorted key (l ++ [x]) !! j <> Some (key x).
Proof.
  destruct (filter_last_occurrence (fun a => key a = key x)
              (py_sorted key (l ++ [x]))
              (filter (fun a => key a = key x) l) x) as (i & Hi & Hlast).
  { rewrite py_sorted_stable, filter_app, filter_cons, filter_nil.
    now rewrite decide_True. }
  exists i. split; [exact Hi|]. intros j Hj Hk.
  destruct (py_sorted key (l ++ [x]) !! j) as [y|] eqn:Hy; [|discriminate].
  simpl in Hk. injection Hk as Hk. now apply (Hlast j y).
Qed.

Lemma window_ending_one (numbers : list float) (i : nat) (x : float) :
  numbers !! i = Some x -> window_ending numbers 1 i = [x].
Proof.
  intros Hi. unfold window_ending.
  replace (i + 1 - 1)%nat with i by lia.
  rewrite (drop_S _ _ _ Hi) by exact Hi. reflexivity.
Qed.

Section AddThenQuery.

Variable float_of_str : string -> option float.

Lemma add_entry_ret (entries entries' : list Entry) (date_s metric_s : string)
    (v : pyvalue) (e : Entry) :
  add_entry float_of_str entries date_s metric_s v = (entries', ret e) ->
  entries' = entries ++ [e] /\ date e = date_s
  /\ metric e = normalize metric_s /\ parse_date date_s <> None.
Proof.
  unfold add_entry, strptime.
  destruct (parse_date date_s); simpl; [|discriminate].
  destruct (py_float float_of_str v); simpl; [discriminate|].
  intros [= <- <-]. repeat split. discriminate.
Qed.

(** X3: after [add_entry] has stored an entry, [moving_average] with
    window 1, asked for the metric in any spelling that normalizes to the
    same name (the stored name included), holds under the entry's date the
    mean of that one value: the new entry overrides earlier entries of its
    date. *)
Theorem add_entry_then_moving_average (entries entries' : list Entry)
    (date_s metric_s query : string) (v : pyvalue) (e : Entry) :
  add_entry float_of_str entries date_s metric_s v = (entries', ret e) ->
  normalize query = normalize metric_s ->
  normalize (metric e) = normalize metric_s
  /\ exists results,
       moving_average entries' query 1 = ret results
       /\ dict_get date_s results = Some (mean [value e]).
Proof.
  intros Hadd Hq. apply add_entry_ret in Hadd as (-> & Hd & Hm & _).
  split; [rewrite Hm; apply normalize_idem|].
  eexists. split; [apply moving_average_eq; lia|].
  rewrite Hq, filter_app, filter_cons, filter_nil.
  rewrite decide_True by exact Hm.
  set (matching := filter _ entries).
  destruct (py_sorted_snoc_last date matching e) as (i & Hi & Hlast).
  apply recorded_means_lookup. exists i.
  split; [simpl; lia|]. split; [now rewrite Hi, <- Hd|].
  split; [now rewrite <- Hd|].
  rewrite (window_ending_one _ i (value e)); [reflexivity|].
  rewrite list_lookup_fmap, Hi. reflexivity.
Qed.

End AddThenQuery.

Lemma add_entry_then_moving_average_witness :
  add_entry float_of_digits make_sample "2025-09-03" " Weight" (VStr "72")
  = (make_sample ++ [mkEntry "2025-09-03" "weight" 72],
     ret (mkEntry "2025-09-03" "weight" 72))
  /\ normalize "WEIGHT " = normalize " Weight"
  /\ normalize (metric (mkEntry "2025-09-03" "weight" 72)) = normalize " Weight"
  /\ exists results,
       moving_average (make_sample ++ [mkEntry "2025-09-03" "weight" 72])
         "WEIGHT " 1 = ret results
       /\ dict_get "2025-09-03" results
          = Some (mean [value (mkEntry "2025-09-03" "weight" 72)]).
Proof.
  split; [vm_compute; reflexivity|]. split; [reflexivity|].
  apply (add_entry_then_moving_average float_of_digits make_sample _
           "2025-09-03" " Weight" "WEIGHT " (VStr "72"));
    [vm_compute; reflexivity|reflexivity].
Defined.

(** ** [add_entry] then [summarize_week] *)

Section AddThenSummarize.

Variable float_of_str : string -> option float.

(** X4: storing an entry adds its value behind the values of a week's
    summary when the entry has the metric asked for and its date lies in
    the week, and leaves the summary as it was otherwise, for an entry of
    another metric as for one dated outside the week; the week is any one
    that ends on a given end date. *)
Theorem add_entry_then_summarize_week (entries entries' : list Entry)
    (date_s metric_s query end_s : string) (v : pyvalue) (e : Entry)
    (dt end_ : datetime) :
  add_entry float_of_str entries date_s metric_s v = (entries', ret e) ->
  parse_date date_s = Some dt ->
  parse_date end_s = Some end_ ->
  7 <= end_ ->
  (forall e', e' ∈ entries -> metric e' = normalize query ->
              parse_date (date e') <> None) ->
  let before := week_values (normalize query) end_ entries in
  summarize_week entries query (Some end_s) = ret (summary_of before)
  /\ summarize_week entries' query (Some end_s)
     = ret (summary_of
              (before ++ if bool_decide (normalize metric_s = normalize query)
                            && (end_ - 6 <=? dt) && (dt <=? end_)
                         then [value e] else [])).
Proof.
  intros Hadd Hdt Hend H7 Hparse before.
  apply add_entry_ret in Hadd as (-> & Hd & Hm & _).
  split; [now apply summarize_week_given|].
  rewrite (summarize_week_given _ _ _ end_ Hend H7).
  - f_equal. f_equal. unfold before, week_values.
    rewrite filter_app, map_app. f_equal.
    rewrite filter_cons, filter_nil. unfold in_week.
    rewrite Hd, Hdt, Hm. rewrite <- andb_assoc.
    destruct (bool_decide (normalize metric_s = normalize query)
              && ((end_ - 6 <=? dt) && (dt <=? end_))); reflexivity.
  - intros e' He' Hm'. apply elem_of_app in He' as [He'|He'].
    + now apply Hparse.
    + apply list_elem_of_singleton in He' as ->. rewrite Hd, Hdt. discriminate.
Qed.

End AddThenSummarize.

Lemma add_entry_then_summarize_week_witness :
  let e := mkEntry "2025-09-08" "sleep" 7.5 in
  add_entry float_of_digits make_sample "2025-09-08" " Sleep" (VFloat 7.5)
  = (make_sample ++ [e], ret e)
  /\ parse_date "2025-09-08" = Some 739502
  /\ parse_date "2025-09-10" = Some 739504
  /\ 7 <= 739504
  /\ (forall e', e' ∈ make_sample -> parse_date (date e') <> None)
  /\ summarize_week (make_sample ++ [e]) "weight" (Some "2025-09-10")
     = summarize_week make_sample "weight" (Some "2025-09-10")
  /\ summarize_week (make_sample ++ [e]) "SLEEP" (Some "2025-09-10")
     = ret (summary_of [7.5%float]).
Proof.
  intros e.
  assert (Hadd : add_entry float_of_digits make_sample "2025-09-08" " Sleep"
                   (VFloat 7.5)
                 = (make_sample ++ [e], ret e)) by (vm_compute; reflexivity).
  assert (Hparse : forall e', e' ∈ make_sample -> parse_date (date e') <> None).
  { intros e' He. unfold make_sample in He.
    repeat (apply elem_of_cons in He as [->|He]; [discriminate|]).
    now apply elem_of_nil in He. }
  assert (H7 : 7 <= 739504) by lia.
  split; [exact Hadd|]. split; [reflexivity|]. split; [reflexivity|].
  split; [exact H7|]. split; [exact Hparse|]. split.
  - destruct (add_entry_then_summarize_week float_of_digits make_sample _
                "2025-09-08" " Sleep" "weight" "2025-09-10" (VFloat 7.5) e
                739502 739504 Hadd eq_refl eq_refl H7
                (fun e' He' _ => Hparse e' He')) as [Hold Hnew].
    rewrite Hnew, Hold. reflexivity.
  - destruct (add_entry_then_summarize_week float_of_digits make_sample _
                "2025-09-08" " Sleep" "SLEEP" "2025-09-10" (VFloat 7.5) e
                739502 739504 Hadd eq_refl eq_refl H7
                (fun e' He' _ => Hparse e' He')) as [_ Hnew].
    rewrite Hnew. reflexivity.
Defined.

(** ** [moving_average]: the keys of the result *)

Lemma str_leb_neq_ltb (a b : string) :
  String.leb a b = true -> a <> b -> String.ltb a b = true.
Proof.
  unfold String.leb, String.ltb. intros Hle Hne.
  destruct (String.compare a b) eqn:Hc; try congruence.
  apply String.compare_eq_iff in Hc. congruence.
Qed.

Lemma dict_set_key_list {V} (k : string) (v : V) (d : dict V) :
  map fst (dict_set k v d)
  = if decide (k ∈ map fst d) then map fst d else map fst d ++ [k].
Proof.
  induction d as [|[k0 v0] d IH].
  - destruct (decide (k ∈ map fst (@nil (string * V)))) as [Hin|_];
      [|reflexivity].
    now apply elem_of_nil in Hin.
  - change (dict_set k v ((k0, v0) :: d))
      with (if decide (k0 = k) then (k, v) :: d else (k0, v0) :: dict_set k v d).
    change (map fst ((k0, v0) :: d)) with (k0 :: map fst d).
    destruct (decide (k0 = k)) as [->|Hne].
    + destruct (decide (k ∈ k :: map fst d)) as [_|Hnin]; [reflexivity|].
      exfalso. apply Hnin. left.
    + change (map fst ((k0, v0) :: dict_set k v d))
        with (k0 :: map fst (dict_set k v d)).
      rewrite IH.
      destruct (decide (k ∈ map fst d)) as [Hin|Hnin],
               (decide (k ∈ k0 :: map fst d)) as [Hin'|Hnin'];
        try reflexivity.
      * exfalso. apply Hnin'. now right.
      * exfalso. apply elem_of_cons in Hin' as [->|Hin']; congruence.
Qed.

Lemma StronglySorted_lookup {A} (R : A -> A -> Prop) (l : list A)
    (i j : nat) (a b : A) :
  StronglySorted R l -> (i < j)%nat -> l !! i = Some a -> l !! j = Some b ->
  R a b.
Proof.
  intros Hs. revert i j. induction Hs as [|x l Hs IH Hx]; intros i j Hij Hi Hj.
  - discriminate.
  - destruct j as [|j]; [lia|]. simpl in Hj. destruct i as [|i]; simpl in Hi.
    + injection Hi as <-. rewrite Forall_forall in Hx. apply Hx.
      apply list_elem_of_lookup. eauto.
    + apply (IH i j); auto. lia.
Qed.

Lemma moving_average_bad_window_eq (entries : list Entry) (metric_s : string)
    (window : Z) :
  window < 1 -> moving_average entries metric_s window = raise ValueError.
Proof.
  intros Hw. unfold moving_average.
  destruct (Z.ltb_spec window 1); [reflexivity|lia].
Qed.

Lemma recorded_upto_keys (sel : list Entry) (w k : nat) :
  StronglySorted (key_le date) sel ->
  (k <= length sel)%nat ->
  let keys := map fst (recorded_upto sel w k) in
  StronglySorted str_lt keys
  /\ Forall (fun d => exists i, (i < k)%nat /\ date <$> sel !! i = Some d) keys
  /\ (length keys <= k + 1 - w)%nat.
Proof.
  intros Hsel. induction k as [|k IH]; intros Hk keys.
  - repeat split; [constructor|constructor|simpl; lia].
  - subst keys. rewrite recorded_upto_S.
    destruct (IH ltac:(lia)) as (Hs & Hall & Hlen). clear IH.
    destruct (decide (w <= k + 1)%nat) as [Hw|Hw].
    + unfold record_mean.
      destruct (lookup_lt_is_Some_2 sel k ltac:(lia)) as [e He]. rewrite He.
      rewrite dict_set_key_list.
      destruct (decide (date e ∈ map fst (recorded_upto sel w k))) as [Hin|Hnin].
      * repeat split; [exact Hs| |lia].
        eapply Forall_impl; [exact Hall|].
        intros d (i & Hi & Hd). exists i. split; [lia|exact Hd].
      * repeat split.
        -- apply StronglySorted_app_2; [|exact Hs|repeat constructor].
           intros d d' Hd Hd'. apply list_elem_of_singleton in Hd' as ->.
           rewrite Forall_forall in Hall.
           destruct (Hall d Hd) as (i & Hi & Hdi).
           destruct (sel !! i) as [a|] eqn:Ha; [|discriminate].
           simpl in Hdi. injection Hdi as <-.
           apply str_leb_neq_ltb.
           ++ apply (StronglySorted_lookup _ sel i k a e Hsel Hi Ha He).
           ++ intros Heq. apply Hnin. now rewrite <- Heq.
        -- apply Forall_app. split.
           ++ eapply Forall_impl; [exact Hall|].
              intros d (i & Hi & Hd). exists i. split; [lia|exact Hd].
           ++ constructor; [|constructor]. exists k. rewrite He.
              split; [lia|reflexivity].
        -- rewrite length_app. simpl. lia.
    + repeat split; [exact Hs| |lia].
      eapply Forall_impl; [exact Hall|].
      intros d (i & Hi & Hd). exists i. split; [lia|exact Hd].
Qed.

Lemma moving_average_keys_sorted (entries : list Entry) (metric_s : string)
    (window : Z) (results : dict float) :
  moving_average entries metric_s window = ret results ->
  StronglySorted str_lt (map fst results)
  /\ (forall d, d ∈ map fst results ->
        exists e, e ∈ entries /\ metric e = normalize metric_s /\ date e = d)
  /\ (length results
      <= length (filter (fun e => metric e = normalize metric_s) entries)
         + 1 - Z.to_nat window)%nat.
Proof.
  intros Hres.
  destruct (Z.ltb_spec window 1) as [Hlt|Hge].
  { rewrite moving_average_bad_window_eq in Hres by exact Hlt. discriminate. }
  rewrite moving_average_eq in Hres by exact Hge. injection Hres as <-.
  set (matching := filter _ entries).
  pose proof (recorded_upto_keys (py_sorted date matching) (Z.to_nat window)
                (length (py_sorted date matching))
                (py_sorted_strongly_sorted date matching) ltac:(lia))
    as (Hs & Hall & Hlen).
  change (recorded_upto (py_sorted date matching) (Z.to_nat window)
            (length (py_sorted date matching)))
    with (recorded_means (py_sorted date matching) (Z.to_nat window)) in *.
  split; [exact Hs|]. split.
  - intros d Hd. rewrite Forall_forall in Hall.
    destruct (Hall d Hd) as (i & _ & Hi).
    destruct (py_sorted date matching !! i) as [e|] eqn:He; [|discriminate].
    simpl in Hi. injection Hi as <-.
    assert (Hin : e ∈ matching).
    { rewrite <- (py_sorted_perm date matching).
      apply list_elem_of_lookup. eauto. }
    apply list_elem_of_filter in Hin as [Hm Hin]. eauto.
  - rewrite length_map, py_sorted_length in Hlen. exact Hlen.
Qed.

(** X5: the dates under which [moving_average] returns means come in
    strictly ascending order of the date strings, each once; every one is
    the date of an entry of the metric; and there are at most
    [n + 1 - window] of them for [n] such entries. *)
Theorem moving_average_keys (entries : list Entry) (metric_s : string)
    (window : Z) (results : dict float) :
  moving_average entries metric_s window = ret results ->
  StronglySorted str_lt (map fst results)
  /\ (forall d, d ∈ map fst results ->
        exists e, e ∈ entries /\ metric e = normalize metric_s /\ date e = d)
  /\ (length results
      <= length (filter (fun e => metric e = normalize metric_s) entries)
         + 1 - Z.to_nat window)%nat.
Proof. apply moving_average_keys_sorted. Qed.

Lemma moving_average_keys_witness :
  moving_average make_sample "weight" 3
  = ret [("2025-09-03", 70.5); ("2025-09-04", 0x1.18aaaaaaaaaabp+6);
         ("2025-09-05", 0x1.1555555555555p+6); ("2025-09-06", 0x1.1399999999999p+6);
         ("2025-09-07", 0x1.14eeeeeeeeeefp+6)]%float
  /\ StronglySorted str_lt
       ["2025-09-03"; "2025-09-04"; "2025-09-05"; "2025-09-06"; "2025-09-07"].
Proof.
  split; [vm_compute; reflexivity|].
  apply (moving_average_keys make_sample "weight" 3
           [("2025-09-03", 70.5); ("2025-09-04", 0x1.18aaaaaaaaaabp+6);
            ("2025-09-05", 0x1.1555555555555p+6); ("2025-09-06", 0x1.1399999999999p+6);
            ("2025-09-07", 0x1.14eeeeeeeeeefp+6)]%float).
  vm_compute. reflexivity.
Defined.

(** ** [moving_average]: the order of the collection *)

Lemma NoDup_map_elem_eq {A B} (f : A -> B) (l : list A) (x y : A) :
  List.NoDup (map f l) -> x ∈ l -> y ∈ l -> f x = f y -> x = y.
Proof.
  induction l as [|a l IH]; intros Hnd Hx Hy Hf.
  - now apply elem_of_nil in Hx.
  - simpl in Hnd. apply List.NoDup_cons_iff in Hnd as [Ha Hnd].
    assert (Hmem : forall z, z ∈ l -> In (f z) (map f l)).
    { intros z Hz. apply in_map. now apply list_elem_of_In. }
    apply elem_of_cons in Hx as [->|Hx]; apply elem_of_cons in Hy as [->|Hy].
    + reflexivity.
    + exfalso. apply Ha. rewrite Hf. now apply Hmem.
    + exfalso. apply Ha. rewrite <- Hf. now apply Hmem.
    + now apply IH.
Qed.

Lemma py_sorted_perm_eq {A} (key : A -> string) (l l' : list A) :
  l ≡ₚ l' -> List.NoDup (map key l) -> py_sorted key l = py_sorted key l'.
Proof.
  intros Hperm Hnd.
  apply (StronglySorted_unique_strong (key_le key)).
  - intros x1 x2 Hx1 Hx2 H12 H21.
    rewrite py_sorted_perm in Hx1. rewrite py_sorted_perm, <- Hperm in Hx2.
    apply (NoDup_map_elem_eq key l); auto.
    now apply String.leb_antisym.
  - apply py_sorted_strongly_sorted.
  - apply py_sorted_strongly_sorted.
  - now rewrite !py_sorted_perm.
Qed.

(** X6: when the entries of the metric have pairwise different dates, the
    result of [moving_average] does not depend on the order in which the
    collection holds its entries. *)
Theorem moving_average_order_independent (entries entries' : list Entry)
    (metric_s : string) (window : Z) :
  entries ≡ₚ entries' ->
  List.NoDup
    (map date (filter (fun e => metric e = normalize metric_s) entries)) ->
  moving_average entries metric_s window
  = moving_average entries' metric_s window.
Proof.
  intros Hperm Hnd. unfold moving_average. unfold normalize in Hnd.
  rewrite (py_sorted_perm_eq date _
             (filter (fun e => metric e = lower (strip metric_s)) entries'));
    [reflexivity| |exact Hnd].
  now rewrite Hperm.
Qed.

Lemma moving_average_order_independent_witness :
  make_sample ≡ₚ reverse make_sample
  /\ List.NoDup
       (map date (filter (fun e => metric e = normalize "weight") make_sample))
  /\ moving_average make_sample "weight" 3
     = moving_average (reverse make_sample) "weight" 3.
Proof.
  assert (Hperm : make_sample ≡ₚ reverse make_sample)
    by (symmetry; apply reverse_Permutation).
  assert (Hnd : List.NoDup
            (map date (filter (fun e => metric e = normalize "weight") make_sample))).
  { vm_compute.
    repeat (constructor; [simpl; intuition discriminate|]). constructor. }
  split; [exact Hperm|]. split; [exact Hnd|].
  exact (moving_average_order_independent make_sample (reverse make_sample)
           "weight" 3 Hperm Hnd).
Defined.

(** ** ISO dates: the order of the strings is the order of the days *)

Ltac to_nat_literals :=
  repeat match goal with
    | H : context [Z.to_nat ?n] |- _ =>
        let v := eval vm_compute in (Z.to_nat n) in
        change (Z.to_nat n) with v in H
    | |- context [Z.to_nat ?n] =>
        let v := eval vm_compute in (Z.to_nat n) in
        change (Z.to_nat n) with v
    end.

Lemma days_before_year_succ (y : Z) :
  1 <= y ->
  days_before_year (y + 1)
  = days_before_year y + 365 + (if is_leap y then 1 else 0).
Proof.
  intros Hy. unfold days_before_year, is_leap. cbv zeta.
  replace (y + 1 - 1) with y by lia.
  destruct (Z.eqb_spec (y mod 4) 0), (Z.eqb_spec (y mod 100) 0),
    (Z.eqb_spec (y mod 400) 0); simpl;
    Z.div_mod_to_equations; lia.
Qed.

Lemma days_before_year_mono (y1 y2 : Z) :
  1 <= y1 <= y2 -> days_before_year y1 <= days_before_year y2.
Proof.
  intros Hy. unfold days_before_year. cbv zeta.
  Z.div_mod_to_equations. lia.
Qed.

Lemma days_before_month_lt (y m1 m2 d1 d2 : Z) :
  1 <= m1 -> m1 < m2 -> m2 <= 12 ->
  1 <= d1 <= days_in_month y m1 -> 1 <= d2 ->
  days_before_month y m1 + d1 < days_before_month y m2 + d2.
Proof.
  intros H1 H12 H2 Hd1 Hd2.
  assert (Hc1 : m1 = 1 \/ m1 = 2 \/ m1 = 3 \/ m1 = 4 \/ m1 = 5 \/ m1 = 6
                \/ m1 = 7 \/ m1 = 8 \/ m1 = 9 \/ m1 = 10 \/ m1 = 11) by lia.
  assert (Hc2 : m2 = 2 \/ m2 = 3 \/ m2 = 4 \/ m2 = 5 \/ m2 = 6 \/ m2 = 7
                \/ m2 = 8 \/ m2 = 9 \/ m2 = 10 \/ m2 = 11 \/ m2 = 12) by lia.
  unfold days_before_month. unfold days_in_month in Hd1.
  repeat (destruct Hc1 as [->|Hc1]); try subst m1;
    repeat (destruct Hc2 as [->|Hc2]); try subst m2; try lia;
    destruct (is_leap y); to_nat_literals; cbn in *; lia.
Qed.

(** The ordinal grows with the date. *)
Lemma ymd2ord_lt (y1 m1 d1 y2 m2 d2 : Z) :
  check_date_fields y1 m1 d1 = true ->
  check_date_fields y2 m2 d2 = true ->
  y1 < y2 \/ (y1 = y2 /\ (m1 < m2 \/ (m1 = m2 /\ d1 < d2))) ->
  ymd2ord y1 m1 d1 < ymd2ord y2 m2 d2.
Proof.
  unfold check_date_fields, MINYEAR, MAXYEAR. intros C1 C2 Hlt.
  repeat (apply andb_prop in C1; destruct C1 as [C1 ?]).
  repeat (apply andb_prop in C2; destruct C2 as [C2 ?]). bool_cases.
  unfold ymd2ord. destruct Hlt as [Hy|[-> [Hm|[-> Hd]]]].
  - pose proof (days_in_year_bound y1 m1 d1 ltac:(lia) ltac:(lia)).
    pose proof (days_in_year_bound y2 m2 d2 ltac:(lia) ltac:(lia)).
    pose proof (days_before_year_succ y1 ltac:(lia)).
    pose proof (days_before_year_mono (y1 + 1) y2 ltac:(lia)).
    destruct (is_leap y1); lia.
  - pose proof (days_before_month_lt y2 m1 m2 d1 d2). lia.
  - lia.
Qed.

Lemma code_inj (a b : ascii) : code a = code b -> a = b.
Proof.
  unfold code. intros H. apply N2Z.inj in H.
  rewrite <- (ascii_N_embedding a), <- (ascii_N_embedding b). now rewrite H.
Qed.

Lemma is_digit_range (c : ascii) :
  is_digit c = true -> 0 <= digit_val c <= 9.
Proof. unfold is_digit, digit_val. intros H. bool_cases. lia. Qed.

Lemma iso_date_inv (s : string) (dt : datetime) :
  iso_date s = Some dt ->
  exists y1 y2 y3 y4 m1 m2 d1 d2,
    s = iso_text y1 y2 y3 y4 m1 m2 d1 d2
    /\ Forall (fun c => is_digit c = true) [y1; y2; y3; y4; m1; m2; d1; d2]
    /\ check_date_fields (year_of y1 y2 y3 y4) (two_digits m1 m2)
         (two_digits d1 d2) = true
    /\ dt = ymd2ord (year_of y1 y2 y3 y4) (two_digits m1 m2) (two_digits d1 d2).
Proof.
  unfold iso_date. intros H.
  rewrite <- (string_of_list_ascii_of_string s).
  destruct (list_ascii_of_string s)
    as [|y1 [|y2 [|y3 [|y4 [|s1 [|m1 [|m2 [|s2 [|d1 [|d2 [|? ?]]]]]]]]]]];
    try discriminate.
  destruct (forallb _ _ && _ && _) eqn:Hfmt; [|discriminate].
  destruct (check_date_fields _ _ _) eqn:Hchk; [|discriminate].
  injection H as <-.
  apply andb_prop in Hfmt as [Hfmt Hs2]. apply andb_prop in Hfmt as [Hdig Hs1].
  apply Z.eqb_eq in Hs1, Hs2.
  apply (code_inj s1 "-"%char) in Hs1. apply (code_inj s2 "-"%char) in Hs2.
  subst s1 s2. exists y1, y2, y3, y4, m1, m2, d1, d2.
  split; [reflexivity|]. split; [|split; [exact Hchk|reflexivity]].
  rewrite forallb_forall in Hdig. apply Forall_forall. intros c Hc.
  apply Hdig. now apply list_elem_of_In.
Qed.

Ltac compare_digit a b :=
  destruct (ascii_compare_spec a b) as [->| |];
  [|symmetry; apply Z.compare_lt_iff;
     unfold ymd_number, year_of, two_digits, digit_val, code in *; lia
   |symmetry; apply Z.compare_gt_iff;
     unfold ymd_number, year_of, two_digits, digit_val, code in *; lia].

(** Two texts of the format compare as the numbers their digits write. *)
Lemma iso_text_compare (y1 y2 y3 y4 m1 m2 d1 d2 : ascii)
    (z1 z2 z3 z4 n1 n2 e1 e2 : ascii) :
  Forall (fun c => is_digit c = true) [y1; y2; y3; y4; m1; m2; d1; d2] ->
  Forall (fun c => is_digit c = true) [z1; z2; z3; z4; n1; n2; e1; e2] ->
  String.compare (iso_text y1 y2 y3 y4 m1 m2 d1 d2)
                 (iso_text z1 z2 z3 z4 n1 n2 e1 e2)
  = (ymd_number (year_of y1 y2 y3 y4) (two_digits m1 m2) (two_digits d1 d2)
     ?= ymd_number (year_of z1 z2 z3 z4) (two_digits n1 n2) (two_digits e1 e2)).
Proof.
  intros Hy Hz.
  repeat match goal with
    | H : Forall _ (_ :: _) |- _ =>
        apply Forall_cons in H; destruct H as [?%is_digit_range H]
    end.
  unfold iso_text. simpl String.compare.
  compare_digit y1 z1. compare_digit y2 z2. compare_digit y3 z3.
  compare_digit y4 z4. change (Ascii.compare "-" "-") with Eq. cbv iota.
  compare_digit m1 n1. compare_digit m2 n2.
  change (Ascii.compare "-" "-") with Eq. cbv iota.
  compare_digit d1 e1. compare_digit d2 e2.
  symmetry. apply Z.compare_refl.
Qed.

Lemma ymd_number_compare (y1 m1 d1 y2 m2 d2 : Z) :
  check_date_fields y1 m1 d1 = true ->
  check_date_fields y2 m2 d2 = true ->
  (ymd2ord y1 m1 d1 ?= ymd2ord y2 m2 d2)
  = (ymd_number y1 m1 d1 ?= ymd_number y2 m2 d2).
Proof.
  intros C1 C2.
  pose proof (days_in_month_le y1 m1). pose proof (days_in_month_le y2 m2).
  pose proof C1 as B1. pose proof C2 as B2.
  unfold check_date_fields in B1, B2.
  repeat (apply andb_prop in B1; destruct B1 as [B1 ?]).
  repeat (apply andb_prop in B2; destruct B2 as [B2 ?]). bool_cases.
  unfold ymd_number.
  destruct (Z.compare_spec (10000 * y1 + 100 * m1 + d1)
                           (10000 * y2 + 100 * m2 + d2)) as [Heq|Hlt|Hgt].
  - assert (y1 = y2 /\ m1 = m2 /\ d1 = d2) as (-> & -> & ->) by lia.
    apply Z.compare_refl.
  - apply Z.compare_lt_iff. apply ymd2ord_lt; auto. lia.
  - apply Z.compare_gt_iff. apply ymd2ord_lt; auto. lia.
Qed.

(** ISO dates compare as strings the way their days compare. *)
Lemma iso_date_compare (s1 s2 : string) (a b : datetime) :
  iso_date s1 = Some a -> iso_date s2 = Some b ->
  String.compare s1 s2 = (a ?= b).
Proof.
  intros H1 H2.
  apply iso_date_inv in H1
    as (y1 & y2 & y3 & y4 & m1 & m2 & d1 & d2 & -> & Hd1 & C1 & ->).
  apply iso_date_inv in H2
    as (z1 & z2 & z3 & z4 & n1 & n2 & e1 & e2 & -> & Hd2 & C2 & ->).
  rewrite iso_text_compare by assumption.
  symmetry. now apply ymd_number_compare.
Qed.

Lemma iso_date_leb (s1 s2 : string) (a b : datetime) :
  iso_date s1 = Some a -> iso_date s2 = Some b ->
  String.leb s1 s2 = true <-> a <= b.
Proof.
  intros H1 H2. unfold String.leb. rewrite (iso_date_compare _ _ _ _ H1 H2).
  destruct (Z.compare_spec a b); split; intros; try lia; congruence.
Qed.

Lemma iso_date_ltb (s1 s2 : string) (a b : datetime) :
  iso_date s1 = Some a -> iso_date s2 = Some b ->
  String.ltb s1 s2 = true <-> a < b.
Proof.
  intros H1 H2. unfold String.ltb. rewrite (iso_date_compare _ _ _ _ H1 H2).
  destruct (Z.compare_spec a b); split; intros; try lia; congruence.
Qed.

Lemma StronglySorted_impl_elem {A} (R R' : A -> A -> Prop) (l : list A) :
  (forall a b, a ∈ l -> b ∈ l -> R a b -> R' a b) ->
  StronglySorted R l -> StronglySorted R' l.
Proof.
  intros Himpl Hs. induction Hs as [|x l Hs IH Hx]; [constructor|].
  constructor.
  - apply IH. intros a b Ha Hb. apply Himpl; now right.
  - rewrite Forall_forall in *. intros y Hy.
    apply Himpl; [left|now right|now apply Hx].
Qed.

(** X7: when the entries of the metric carry ISO dates, the sequence
    [moving_average] works on is in the order of the calendar, and so are
    the dates of its result, each strictly after the one before. *)
Theorem moving_average_chronological (entries : list Entry)
    (metric_s : string) (window : Z) :
  (forall e, e ∈ entries -> metric e = normalize metric_s ->
             iso_date (date e) <> None) ->
  StronglySorted (fun a b => iso_le (date a) (date b))
    (py_sorted date (filter (fun e => metric e = normalize metric_s) entries))
  /\ (forall results,
        moving_average entries metric_s window = ret results ->
        StronglySorted iso_lt (map fst results)).
Proof.
  intros Hiso. split.
  - apply (StronglySorted_impl_elem (key_le date));
      [|apply py_sorted_strongly_sorted].
    intros a b Ha Hb Hab.
    rewrite py_sorted_perm in Ha, Hb.
    apply list_elem_of_filter in Ha as [Hma Ha].
    apply list_elem_of_filter in Hb as [Hmb Hb].
    pose proof (Hiso a Ha Hma) as Hda. pose proof (Hiso b Hb Hmb) as Hdb.
    destruct (iso_date (date a)) as [da|] eqn:Ea; [|congruence].
    destruct (iso_date (date b)) as [db|] eqn:Eb; [|congruence].
    exists da, db. repeat split; auto.
    now apply (iso_date_leb _ _ _ _ Ea Eb).
  - intros results Hres.
    destruct (moving_average_keys_sorted entries metric_s window results Hres)
      as (Hs & Hkeys & _).
    apply (StronglySorted_impl_elem str_lt); [|exact Hs].
    intros k k' Hk Hk' Hlt.
    destruct (Hkeys k Hk) as (e & He & Hm & <-).
    destruct (Hkeys k' Hk') as (e' & He' & Hm' & <-).
    pose proof (Hiso e He Hm) as Hd. pose proof (Hiso e' He' Hm') as Hd'.
    destruct (iso_date (date e)) as [d|] eqn:Ed; [|congruence].
    destruct (iso_date (date e')) as [d'|] eqn:Ed'; [|congruence].
    exists d, d'. repeat split; auto.
    now apply (iso_date_ltb _ _ _ _ Ed Ed').
Qed.

Lemma moving_average_chronological_witness :
  (forall e, e ∈ make_sample -> metric e = normalize "weight" ->
             iso_date (date e) <> None)
  /\ StronglySorted (fun a b => iso_le (date a) (date b))
       (py_sorted date (filter (fun e => metric e = normalize "weight") make_sample))
  /\ (forall results,
        moving_average make_sample "weight" 3 = ret results ->
        StronglySorted iso_lt (map fst results)).
Proof.
  assert (Hiso : forall e, e ∈ make_sample -> metric e = normalize "weight" ->
                           iso_date (date e) <> None).
  { intros e He _. unfold make_sample in He.
    repeat (apply elem_of_cons in He as [->|He]; [discriminate|]).
    now apply elem_of_nil in He. }
  split; [exact Hiso|].
  exact (moving_average_chronological make_sample "weight" 3 Hiso).
Defined.

(** ** [summarize_week]: dates that do not parse *)

Lemma mapM_strptime_fail (entries : list Entry) :
  (exists e, e ∈ entries /\ parse_date (date e) = None) ->
  mapM (fun e => strptime (date e)) entries = raise ValueError.
Proof.
  induction entries as [|a es IH]; intros (e & He & Hbad).
  - now apply elem_of_nil in He.
  - simpl. unfold strptime at 1.
    destruct (parse_date (date a)) as [dt|] eqn:Ha; [|reflexivity].
    apply elem_of_cons in He as [->|He]; [congruence|].
    simpl. rewrite IH by eauto. reflexivity.
Qed.

Lemma select_values_fail (target : string) (start end_ : datetime)
    (entries : list Entry) :
  (exists e, e ∈ entries /\ metric e = target /\ parse_date (date e) = None) ->
  select_values (week_cond target start end_) entries = raise ValueError.
Proof.
  induction entries as [|a es IH]; intros (e & He & Hm & Hbad).
  - now apply elem_of_nil in He.
  - simpl. unfold week_cond at 1, strptime.
    apply elem_of_cons in He as [->|He].
    + rewrite decide_True by exact Hm. now rewrite Hbad.
    + assert (Hrest : select_values (week_cond target start end_) es
                      = raise ValueError) by (apply IH; eauto).
      rewrite Hrest.
      destruct (decide (metric a = target)); [|reflexivity].
      destruct (parse_date (date a)); reflexivity.
Qed.

(** X8: without [end_date], one entry whose date does not parse makes
    [summarize_week] raise [ValueError], whatever the metric of that entry
    and whatever metric is asked for. *)
Theorem summarize_week_default_bad_date (entries : list Entry)
    (metric_s : string) :
  (exists e, e ∈ entries /\ parse_date (date e) = None) ->
  summarize_week entries metric_s None = raise ValueError.
Proof.
  intros Hbad. unfold summarize_week.
  destruct entries as [|a es].
  { destruct Hbad as (e & He & _). now apply elem_of_nil in He. }
  now rewrite mapM_strptime_fail.
Qed.

(** X9: with an [end_date] that parses (on or after 0001-01-07), an entry
    of the requested metric whose date does not parse makes
    [summarize_week] raise [ValueError]; such an entry of another metric
    is never looked at, and the summary is the one of the other entries. *)
Theorem summarize_week_bad_entry_date (entries : list Entry)
    (metric_s end_s : string) (end_ : datetime) :
  parse_date end_s = Some end_ ->
  7 <= end_ ->
  ((exists e, e ∈ entries /\ metric e = normalize metric_s
              /\ parse_date (date e) = None) ->
   summarize_week entries metric_s (Some end_s) = raise ValueError)
  /\ (forall bad before after,
        metric bad <> normalize metric_s ->
        (forall e, e ∈ before ++ after -> metric e = normalize metric_s ->
                   parse_date (date e) <> None) ->
        summarize_week (before ++ bad :: after) metric_s (Some end_s)
        = ret (summary_of
                 (week_values (normalize metric_s) end_ (before ++ after)))).
Proof.
  intros Hend H7. pose proof (parse_date_bounds _ _ Hend) as Hb. split.
  - intros Hbad.
    assert (Hne : entries <> []).
    { destruct Hbad as (e & He & _). intros ->. now apply elem_of_nil in He. }
    rewrite (summarize_week_from entries metric_s (Some end_s) end_ Hne)
      by (now apply strptime_ret).
    rewrite sub_days_ret by lia. simpl bind at 1.
    now rewrite select_values_fail.
  - intros bad before after Hm Hparse.
    assert (Hnot : ~ in_week (normalize metric_s) end_ bad).
    { unfold in_week. rewrite bool_decide_eq_false_2 by exact Hm. exact id. }
    rewrite (summarize_week_given _ _ _ end_ Hend H7).
    + f_equal. f_equal. unfold week_values.
      rewrite !filter_app, filter_cons, decide_False by exact Hnot.
      reflexivity.
    + intros e He Hme. apply Hparse; [|exact Hme].
      apply elem_of_app in He as [He|He]; apply elem_of_app; [now left|].
      apply elem_of_cons in He as [->|He]; [congruence|now right].
Qed.

Lemma summarize_week_default_bad_date_witness :
  (exists e, e ∈ make_sample ++ [mkEntry "tomorrow" "sleep" 8]
             /\ parse_date (date e) = None)
  /\ summarize_week (make_sample ++ [mkEntry "tomorrow" "sleep" 8]) "weight" None
     = raise ValueError.
Proof.
  assert (Hbad : exists e, e ∈ make_sample ++ [mkEntry "tomorrow" "sleep" 8]
                           /\ parse_date (date e) = None).
  { exists (mkEntry "tomorrow" "sleep" 8). split; [|reflexivity].
    apply elem_of_app. right. left. }
  split; [exact Hbad|].
  exact (summarize_week_default_bad_date _ "weight" Hbad).
Defined.

Lemma summarize_week_bad_entry_date_witness :
  parse_date "2025-09-07" = Some 739501
  /\ 7 <= 739501
  /\ ((exists e, e ∈ make_sample /\ metric e = normalize "weight"
                 /\ parse_date (date e) = None) ->
      summarize_week make_sample "weight" (Some "2025-09-07") = raise ValueError)
  /\ (forall bad before after,
        metric bad <> normalize "weight" ->
        (forall e, e ∈ before ++ after -> metric e = normalize "weight" ->
                   parse_date (date e) <> None) ->
        summarize_week (before ++ bad :: after) "weight" (Some "2025-09-07")
        = ret (summary_of
                 (week_values (normalize "weight") 739501 (before ++ after)))).
Proof.
  split; [reflexivity|]. split; [lia|].
  apply (summarize_week_bad_entry_date make_sample "weight" "2025-09-07" 739501);
    [reflexivity|lia].
Defined.

(** An entry of another metric with a string that is no date: it raises
    without [end_date] and is passed over with one. *)
Example summarize_week_foreign_bad_date :
  let entries := mkEntry "tomorrow" "sleep" 8 :: make_sample in
  summarize_week entries "weight" None = raise ValueError
  /\ summarize_week entries "weight" (Some "2025-09-07")
     = summarize_week make_sample "weight" (Some "2025-09-07")
  /\ summarize_week entries "sleep" (Some "2025-09-07") = raise ValueError.
Proof. repeat split; vm_compute; reflexivity. Qed.

(** ** [summarize_week]: the shape of a summary *)

Lemma select_values_sublist (target : string) (start end_ : datetime)
    (entries : list Entry) (selected : list float) :
  select_values (week_cond target start end_) entries = ret selected ->
  selected `sublist_of` map value (filter (fun e => metric e = target) entries).
Proof.
  revert selected. induction entries as [|a es IH]; intros selected Hsel.
  - injection Hsel as <-. constructor.
  - simpl in Hsel. rewrite filter_cons.
    destruct (week_cond target start end_ a) as [?|keep] eqn:Hc; [discriminate|].
    destruct (select_values (week_cond target start end_) es) as [?|rest];
      [discriminate|].
    injection Hsel as <-. specialize (IH rest eq_refl).
    unfold week_cond in Hc.
    destruct (decide (metric a = target)) as [Hm|Hm].
    + simpl. destruct keep; [now apply sublist_skip|now apply sublist_cons].
    + injection Hc as <-. exact IH.
Qed.

Lemma float_min_elem (x : float) (l : list float) : float_min x l ∈ x :: l.
Proof.
  unfold float_min. revert x. induction l as [|y l IH]; intros x; simpl.
  - left.
  - specialize (IH (if PrimFloat.ltb y x then y else x)).
    apply elem_of_cons in IH as [->|IH].
    + destruct (PrimFloat.ltb y x); [right; left|left].
    + right. now right.
Qed.

Lemma float_max_elem (x : float) (l : list float) : float_max x l ∈ x :: l.
Proof.
  unfold float_max. revert x. induction l as [|y l IH]; intros x; simpl.
  - left.
  - specialize (IH (if PrimFloat.ltb x y then y else x)).
    apply elem_of_cons in IH as [->|IH].
    + destruct (PrimFloat.ltb x y); [right; left|left].
    + right. now right.
Qed.

(** X10: whenever [summarize_week] returns, with or without [end_date],
    the values it lists are values of entries of the metric, in the order
    of the collection; [count] is their number; and when there is a value,
    [min] and [max] are each one of the listed values and [mean] is their
    sum over their count. *)
Theorem summarize_week_result (entries : list Entry) (metric_s : string)
    (end_date : option string) (res : dict pyobj) :
  summarize_week entries metric_s end_date = ret res ->
  exists selected,
    res = summary_of selected
    /\ selected `sublist_of`
         map value (filter (fun e => metric e = normalize metric_s) entries)
    /\ dict_get "count" res = Some (OInt (Z.of_nat (length selected)))
    /\ dict_get "values" res = Some (OList selected)
    /\ (selected <> [] ->
        exists mn mx,
          dict_get "min" res = Some (OFloat mn) /\ mn ∈ selected
          /\ dict_get "max" res = Some (OFloat mx) /\ mx ∈ selected
          /\ dict_get "mean" res = Some (OFloat (mean selected))).
Proof.
  intros Hres.
  assert (Hshape : forall selected, res = summary_of selected ->
            dict_get "count" res = Some (OInt (Z.of_nat (length selected)))
            /\ dict_get "values" res = Some (OList selected)
            /\ (selected <> [] ->
                exists mn mx,
                  dict_get "min" res = Some (OFloat mn) /\ mn ∈ selected
                  /\ dict_get "max" res = Some (OFloat mx) /\ mx ∈ selected
                  /\ dict_get "mean" res = Some (OFloat (mean selected)))).
  { intros selected ->. destruct selected as [|x rest].
    - repeat split. congruence.
    - repeat split. intros _.
      exists (float_min x rest), (float_max x rest).
      repeat split; [apply float_min_elem|apply float_max_elem]. }
  destruct (decide (entries = [])) as [->|Hne].
  { injection Hres as <-. exists []. split; [reflexivity|].
    split; [constructor|]. now apply Hshape. }
  destruct (match end_date with
            | Some s => strptime s
            | None =>
                dts <- mapM (fun e => strptime (date e)) entries ;;
                max_datetime dts
            end) as [err|end_] eqn:Hend.
  { exfalso. revert Hres. unfold summarize_week.
    destruct entries; [congruence|]. now rewrite Hend. }
  rewrite (summarize_week_from entries metric_s end_date end_ Hne Hend) in Hres.
  destruct (sub_days end_ 6) as [?|start]; [discriminate|]. simpl in Hres.
  destruct (select_values _ entries) as [?|selected] eqn:Hsel; [discriminate|].
  injection Hres as <-. exists selected.
  split; [reflexivity|]. split; [|now apply Hshape].
  now apply (select_values_sublist _ start end_).
Qed.

Lemma summarize_week_result_witness :
  summarize_week make_sample " WEIGHT" None
  = ret (summary_of [70; 71; 70.5; 69; 68.5; 0x1.14ccccccccccdp+6; 70]%float)
  /\ exists selected,
       summary_of [70; 71; 70.5; 69; 68.5; 0x1.14ccccccccccdp+6; 70]%float
       = summary_of selected
       /\ selected `sublist_of`
            map value (filter (fun e => metric e = normalize " WEIGHT") make_sample).
Proof.
  assert (H : summarize_week make_sample " WEIGHT" None
              = ret (summary_of [70; 71; 70.5; 69; 68.5; 0x1.14ccccccccccdp+6; 70]%float))
    by (vm_compute; reflexivity).
  split; [exact H|].
  destruct (summarize_week_result make_sample " WEIGHT" None _ H)
    as (selected & Hs & Hsub & _).
  exists selected. split; [exact Hs|exact Hsub].
Defined.

(** ** [summarize_week]: the latest entry *)

(** X11: without [end_date], the week ends on the latest date of the
    collection, so an entry that carries that date (on or after
    0001-01-07) is always in the week: asked for its metric,
    [summarize_week] returns a summary that lists its value. *)
Theorem summarize_week_default_includes_latest (entries : list Entry)
    (metric_s : string) (e : Entry) (dt : datetime) :
  e ∈ entries ->
  (forall e', e' ∈ entries -> parse_date (date e') <> None) ->
  parse_date (date e) = Some dt ->
  (forall e' dt', e' ∈ entries -> parse_date (date e') = Some dt' -> dt' <= dt) ->
  7 <= dt ->
  metric e = normalize metric_s ->
  exists selected,
    summarize_week entries metric_s None = ret (summary_of selected)
    /\ value e ∈ selected
    /\ selected = week_values (normalize metric_s) dt entries.
Proof.
  intros He Hparse Hdt Hmax H7 Hm.
  exists (week_values (normalize metric_s) dt entries).
  split; [|split; [|reflexivity]].
  - now apply (summarize_week_default_latest entries metric_s e dt).
  - unfold week_values. change (value e ∈ value <$> filter
      (fun e0 => in_week (normalize metric_s) dt e0) entries).
    apply list_elem_of_fmap_2. apply list_elem_of_filter. split; [|exact He].
    unfold in_week. rewrite Hdt, (bool_decide_eq_true_2 _ Hm). simpl.
    apply andb_prop_intro. split; apply Is_true_eq_left; apply Z.leb_le; lia.
Qed.

Lemma summarize_week_default_includes_latest_witness :
  let entries := mkEntry "2025-10-01" "sleep" 7.5 :: make_sample in
  let e := mkEntry "2025-10-01" "sleep" 7.5 in
  e ∈ entries
  /\ (forall e', e' ∈ entries -> parse_date (date e') <> None)
  /\ parse_date (date e) = Some 739525
  /\ (forall e' dt', e' ∈ entries -> parse_date (date e') = Some dt' ->
                     dt' <= 739525)
  /\ 7 <= 739525
  /\ metric e = normalize "Sleep"
  /\ exists selected,
       summarize_week entries "Sleep" None = ret (summary_of selected)
       /\ value e ∈ selected
       /\ selected = week_values (normalize "Sleep") 739525 entries.
Proof.
  intros entries e.
  assert (He : e ∈ entries) by left.
  assert (Hparse : forall e', e' ∈ entries -> parse_date (date e') <> None).
  { intros e' He'. unfold entries, make_sample in He'.
    repeat (apply elem_of_cons in He' as [->|He']; [discriminate|]).
    now apply elem_of_nil in He'. }
  assert (Hmax : forall e' dt', e' ∈ entries -> parse_date (date e') = Some dt' ->
                                dt' <= 739525).
  { intros e' dt' He'. unfold entries, make_sample in He'.
    repeat (apply elem_of_cons in He' as [->|He'];
            [intros H; vm_compute in H; injection H as <-; lia|]).
    now apply elem_of_nil in He'. }
  split; [exact He|]. split; [exact Hparse|]. split; [reflexivity|].
  split; [exact Hmax|]. split; [lia|]. split; [reflexivity|].
  apply (summarize_week_default_includes_latest entries "Sleep" e 739525);
    [exact He|exact Hparse|reflexivity|exact Hmax|lia|reflexivity].
Defined.

(** ** Dates as text: [strftime] and [strptime] *)

Lemma month_day_ok_all (L : bool) :
  forallb (fun r => month_day_ok L (Z.of_nat r)) (seq 0 365) = true.
Proof. destruct L; vm_compute; reflexivity. Qed.

Lemma month_day_spec (L : bool) (r : Z) :
  0 <= r <= 364 -> month_day_ok L r = true.
Proof.
  intros Hr. pose proof (month_day_ok_all L) as H.
  rewrite forallb_forall in H.
  rewrite <- (Z2Nat.id r) by lia. apply H. apply in_seq. lia.
Qed.

Lemma year_parts (a b c d : Z) :
  0 <= a -> 0 <= b <= 3 -> 0 <= c <= 24 -> 0 <= d <= 3 ->
  let y := 400 * a + 100 * b + 4 * c + d + 1 in
  days_before_year y = 146097 * a + 36524 * b + 1461 * c + 365 * d
  /\ is_leap y = (d =? 3) && (negb (c =? 24) || (b =? 3)).
Proof.
  intros Ha Hb Hc Hd y. subst y. split.
  - unfold days_before_year. cbv zeta. Z.div_mod_to_equations. lia.
  - unfold is_leap.
    destruct (Z.eqb_spec d 3), (Z.eqb_spec c 24), (Z.eqb_spec b 3);
      repeat match goal with
        | |- context [Z.eqb ?x 0] => destruct (Z.eqb_spec x 0)
        end; simpl; try reflexivity; exfalso;
      Z.div_mod_to_equations; lia.
Qed.

Lemma date_fields_of_parts (y m d r : Z) (L : bool) :
  1 <= y <= 9999 -> is_leap y = L ->
  (1 <=? m) && (m <=? 12) && (1 <=? d)
  && (d <=? (if (m =? 2) && L then 29
             else nth (Z.to_nat m) [0; 31; 28; 31; 30; 31; 30; 31; 31; 30; 31; 30; 31] 0))
  && (nth (Z.to_nat m) [0; 0; 31; 59; 90; 120; 151; 181; 212; 243; 273; 304; 334] 0
      + (if (2 <? m) && L then 1 else 0) + d =? r + 1) = true ->
  check_date_fields y m d = true
  /\ days_before_month y m + d = r + 1.
Proof.
  intros Hy HL H. unfold check_date_fields, days_in_month, days_before_month,
    MINYEAR, MAXYEAR. rewrite HL.
  repeat (apply andb_prop in H; destruct H as [H ?]).
  apply Z.eqb_eq in H0. split; [|exact H0].
  rewrite H, H3, H2, H1. simpl.
  destruct (Z.leb_spec 1 y), (Z.leb_spec y 9999); try lia; reflexivity.
Qed.

Lemma ord2ymd_correct (n : Z) :
  1 <= n <= MAXORDINAL ->
  exists y m d,
    ord2ymd n = (y, m, d)
    /\ check_date_fields y m d = true
    /\ ymd2ord y m d = n.
Proof.
  unfold MAXORDINAL. intros Hn.
  unfold ord2ymd, DI400Y, DI100Y, DI4Y. cbv zeta.
  pose proof (Z.div_mod (n - 1) 146097 ltac:(lia)) as E400.
  pose proof (Z.mod_pos_bound (n - 1) 146097 ltac:(lia)) as B400.
  set (a := (n - 1) / 146097) in *. set (r400 := (n - 1) mod 146097) in *.
  pose proof (Z.div_mod r400 36524 ltac:(lia)) as E100.
  pose proof (Z.mod_pos_bound r400 36524 ltac:(lia)) as B100.
  set (b := r400 / 36524) in *. set (r100 := r400 mod 36524) in *.
  pose proof (Z.div_mod r100 1461 ltac:(lia)) as E4.
  pose proof (Z.mod_pos_bound r100 1461 ltac:(lia)) as B4.
  set (c := r100 / 1461) in *. set (r4 := r100 mod 1461) in *.
  pose proof (Z.div_mod r4 365 ltac:(lia)) as E1.
  pose proof (Z.mod_pos_bound r4 365 ltac:(lia)) as B1.
  set (d := r4 / 365) in *. set (r1 := r4 mod 365) in *.
  clearbody a r400 b r100 c r4 d r1.
  assert (Ha : 0 <= a) by lia. assert (Hb : 0 <= b) by lia.
  assert (Hc : 0 <= c <= 24) by lia. assert (Hd : 0 <= d) by lia.
  destruct (Z.eqb_spec d 4) as [Hd4|Hd4]; [|destruct (Z.eqb_spec b 4) as [Hb4|Hb4]];
    cbn [orb].
  - (* the last day of a leap year within a four-year cycle *)
    assert (Hb3 : b <= 3) by lia. assert (Hc23 : c <= 23) by lia.
    destruct (year_parts a b c 3) as [Hdby Hleap]; try lia. cbv zeta in *.
    do 3 eexists. split; [reflexivity|].
    replace (a * 400 + 1 + b * 100 + c * 4 + d - 1)
      with (400 * a + 100 * b + 4 * c + 3 + 1) by lia.
    destruct (date_fields_of_parts (400 * a + 100 * b + 4 * c + 3 + 1) 12 31 365 true)
      as [Hchk Hday].
    + lia.
    + rewrite Hleap. destruct (Z.eqb_spec c 24); [lia|reflexivity].
    + reflexivity.
    + split; [exact Hchk|]. unfold ymd2ord. rewrite Hdby. lia.
  - (* the last day of a 400-year cycle *)
    destruct (year_parts a 3 24 3) as [Hdby Hleap]; try lia. cbv zeta in *.
    do 3 eexists. split; [reflexivity|].
    replace (a * 400 + 1 + b * 100 + c * 4 + d - 1)
      with (400 * a + 100 * 3 + 4 * 24 + 3 + 1) by lia.
    destruct (date_fields_of_parts (400 * a + 100 * 3 + 4 * 24 + 3 + 1) 12 31 365 true)
      as [Hchk Hday].
    + lia.
    + rewrite Hleap. reflexivity.
    + reflexivity.
    + split; [exact Hchk|]. unfold ymd2ord. rewrite Hdby. lia.
  - assert (Hb3 : b <= 3) by lia. assert (Hd3 : d <= 3) by lia.
    destruct (year_parts a b c d) as [Hdby Hleap]; try lia. cbv zeta in *.
    set (L := (d =? 3) && (negb (c =? 24) || (b =? 3))) in *.
    pose proof (month_day_spec L r1 ltac:(lia)) as Hmd.
    unfold month_day_ok, month_day in Hmd. cbv zeta in Hmd.
    replace (a * 400 + 1 + b * 100 + c * 4 + d)
      with (400 * a + 100 * b + 4 * c + d + 1) by lia.
    assert (Hy : 1 <= 400 * a + 100 * b + 4 * c + d + 1 <= 9999) by lia.
    destruct (r1 <? DAYS_BEFORE_MONTH (Z.shiftr (r1 + 50) 5)
                    + (if (2 <? Z.shiftr (r1 + 50) 5) && L then 1 else 0));
      do 3 eexists; (split; [reflexivity|]);
      destruct (date_fields_of_parts _ _ _ r1 L Hy Hleap Hmd) as [Hchk Hday];
      (split; [exact Hchk|]); unfold ymd2ord; rewrite Hdby; lia.
Qed.

Lemma digit_char_spec (d : Z) :
  0 <= d <= 9 ->
  is_digit (digit_char d) = true /\ digit_val (digit_char d) = d.
Proof.
  intros Hd.
  assert (Hcode : code (digit_char d) = 48 + d).
  { unfold code, digit_char. rewrite N_ascii_embedding by lia. lia. }
  unfold is_digit, digit_val. rewrite Hcode. split; [|lia].
  destruct (Z.leb_spec 48 (48 + d)), (Z.leb_spec (48 + d) 57);
    try lia; reflexivity.
Qed.

(** The text of a day is in the strict format and reads as that day. *)
Lemma iso_date_strftime (dt : datetime) :
  1 <= dt <= MAXORDINAL -> iso_date (strftime dt) = Some dt.
Proof.
  intros Hdt. unfold strftime.
  destruct (ord2ymd_correct dt Hdt) as (y & m & d & -> & Hchk & Hord).
  pose proof Hchk as B. unfold check_date_fields, MINYEAR, MAXYEAR in B.
  repeat (apply andb_prop in B; destruct B as [B ?]). bool_cases.
  pose proof (days_in_month_le y m).
  unfold iso_date. rewrite list_ascii_of_string_of_list_ascii.
  unfold four_digit_text, two_digit_text. cbn [app].
  destruct (digit_char_spec (y / 1000)) as [D1 V1];
    [Z.div_mod_to_equations; lia|].
  destruct (digit_char_spec (y / 100 mod 10)) as [D2 V2];
    [Z.div_mod_to_equations; lia|].
  destruct (digit_char_spec (y / 10 mod 10)) as [D3 V3];
    [Z.div_mod_to_equations; lia|].
  destruct (digit_char_spec (y mod 10)) as [D4 V4];
    [Z.div_mod_to_equations; lia|].
  destruct (digit_char_spec (m / 10)) as [D5 V5];
    [Z.div_mod_to_equations; lia|].
  destruct (digit_char_spec (m mod 10)) as [D6 V6];
    [Z.div_mod_to_equations; lia|].
  destruct (digit_char_spec (d / 10)) as [D7 V7];
    [Z.div_mod_to_equations; lia|].
  destruct (digit_char_spec (d mod 10)) as [D8 V8];
    [Z.div_mod_to_equations; lia|].
  cbn [forallb]. rewrite D1, D2, D3, D4, D5, D6, D7, D8.
  change (code "-" =? 45) with true. cbn [andb].
  rewrite V1, V2, V3, V4, V5, V6, V7, V8.
  replace (1000 * (y / 1000) + 100 * (y / 100 mod 10) + 10 * (y / 10 mod 10)
           + y mod 10) with y by (Z.div_mod_to_equations; lia).
  replace (10 * (m / 10) + m mod 10) with m by (Z.div_mod_to_equations; lia).
  replace (10 * (d / 10) + d mod 10) with d by (Z.div_mod_to_equations; lia).
  rewrite Hchk, Hord. reflexivity.
Qed.

Lemma parse_date_strftime (dt : datetime) :
  1 <= dt <= MAXORDINAL -> parse_date (strftime dt) = Some dt.
Proof. intros Hdt. now apply iso_date_parse_date, iso_date_strftime. Qed.

Lemma strftime_length (dt : datetime) :
  1 <= dt <= MAXORDINAL -> String.length (strftime dt) = 10%nat.
Proof.
  intros Hdt. pose proof (iso_date_strftime dt Hdt) as Hiso.
  apply iso_date_inv in Hiso
    as (y1 & y2 & y3 & y4 & m1 & m2 & d1 & d2 & -> & _).
  reflexivity.
Qed.

(** X13: the text [strftime] gives for a day between 1000-01-01 and
    9999-12-31 is a date in the strict format, ten characters long, that
    [strptime] reads back as the same day; and the texts of two such days
    compare as strings the way the days do. *)
Theorem strftime_round_trip (dt dt' : datetime) :
  ymd2ord 1000 1 1 <= dt <= MAXORDINAL ->
  ymd2ord 1000 1 1 <= dt' <= MAXORDINAL ->
  strptime (strftime dt) = ret dt
  /\ iso_date (strftime dt) = Some dt
  /\ String.length (strftime dt) = 10%nat
  /\ (String.ltb (strftime dt) (strftime dt') = true <-> dt < dt')
  /\ (strftime dt = strftime dt' <-> dt = dt').
Proof.
  change (ymd2ord 1000 1 1) with 364878. intros Hdt0 Hdt0'.
  assert (Hdt : 1 <= dt <= MAXORDINAL) by lia.
  assert (Hdt' : 1 <= dt' <= MAXORDINAL) by lia. clear Hdt0 Hdt0'.
  pose proof (iso_date_strftime dt Hdt) as Hiso.
  pose proof (iso_date_strftime dt' Hdt') as Hiso'.
  split; [apply strptime_ret; now apply parse_date_strftime|].
  split; [exact Hiso|]. split.
  - apply iso_date_inv in Hiso
      as (y1 & y2 & y3 & y4 & m1 & m2 & d1 & d2 & -> & _).
    reflexivity.
  - split; [now apply iso_date_ltb|].
    split; [|now intros ->]. intros Heq. rewrite Heq in Hiso. congruence.
Qed.

Lemma strftime_round_trip_witness :
  ymd2ord 1000 1 1 <= 739501 <= MAXORDINAL
  /\ ymd2ord 1000 1 1 <= 739525 <= MAXORDINAL
  /\ strptime (strftime 739501) = ret 739501
  /\ iso_date (strftime 739501) = Some 739501
  /\ String.length (strftime 739501) = 10%nat
  /\ (String.ltb (strftime 739501) (strftime 739525) = true <-> 739501 < 739525)
  /\ (strftime 739501 = strftime 739525 <-> 739501 = 739525).
Proof.
  assert (H : ymd2ord 1000 1 1 <= 739501 <= MAXORDINAL)
    by (change (ymd2ord 1000 1 1) with 364878; unfold MAXORDINAL; lia).
  assert (H' : ymd2ord 1000 1 1 <= 739525 <= MAXORDINAL)
    by (change (ymd2ord 1000 1 1) with 364878; unfold MAXORDINAL; lia).
  split; [exact H|]. split; [exact H'|].
  exact (strftime_round_trip 739501 739525 H H').
Defined.

(** ** [moving_average] over distinct dates *)

Lemma dict_set_snoc {V} (k : string) (v : V) (d : dict V) :
  ~ In k (map fst d) -> dict_set k v d = d ++ [(k, v)].
Proof.
  induction d as [|[k' v'] d IH]; intros Hk; [reflexivity|].
  simpl. destruct (decide (k' = k)) as [->|Hne].
  - exfalso. apply Hk. now left.
  - rewrite IH; [reflexivity|]. intros Hin. apply Hk. now right.
Qed.

Lemma filter_seq_from (w n : nat) :
  (1 <= w)%nat ->
  filter (fun i => (w <= i + 1)%nat) (seq 0 n) = seq (w - 1) (n + 1 - w).
Proof.
  intros Hw. induction n as [|n IH]; [now replace (0 + 1 - w)%nat with 0%nat by lia|].
  rewrite List.seq_S, filter_app, IH, Nat.add_0_l. rewrite filter_cons, filter_nil.
  destruct (decide (w <= n + 1)%nat) as [Hle|Hgt].
  - replace (S n + 1 - w)%nat with (S (n + 1 - w)) by lia.
    rewrite seq_S. do 2 f_equal. lia.
  - replace (S n + 1 - w)%nat with 0%nat by lia.
    replace (n + 1 - w)%nat with 0%nat by lia. reflexivity.
Qed.

Lemma record_mean_fresh (sel : list Entry) (w : nat) (idx : list nat)
    (acc : dict float) :
  List.NoDup (map date sel) ->
  List.NoDup idx ->
  (forall i, In i idx -> (i < length sel)%nat) ->
  (forall i e, In i idx -> sel !! i = Some e -> ~ In (date e) (map fst acc)) ->
  fold_left (record_mean sel w) idx acc
  = acc ++ flat_map (fun i => match sel !! i with
                              | Some e => [(date e, mean (window_ending (map value sel) w i))]
                              | None => []
                              end) idx.
Proof.
  intros Hdates. revert acc.
  induction idx as [|i idx IH]; intros acc Hidx Hlt Hfresh.
  - simpl. now rewrite app_nil_r.
  - apply List.NoDup_cons_iff in Hidx as [Hi Hidx]. cbn [fold_left flat_map].
    unfold record_mean at 2.
    destruct (sel !! i) as [e|] eqn:He.
    + rewrite dict_set_snoc by (apply (Hfresh i e); [now left|exact He]).
      rewrite IH; [now rewrite <- app_assoc|exact Hidx| |].
      * intros j Hj. apply Hlt. now right.
      * intros j e' Hj He'. rewrite map_app, in_app_iff. intros [Hin|Hin].
        -- apply (Hfresh j e'); [now right|exact He'|exact Hin].
        -- simpl in Hin. destruct Hin as [Heq|[]].
           assert (i = j); [|congruence].
           apply (NoDup_lookup (map date sel) i j (date e));
             [now apply NoDup_ListNoDup| |].
           ++ change (map date sel) with (date <$> sel).
              now rewrite list_lookup_fmap, He.
           ++ change (map date sel) with (date <$> sel).
              now rewrite list_lookup_fmap, He', Heq.
    + apply lookup_ge_None in He. specialize (Hlt i ltac:(now left)). lia.
Qed.

Lemma recorded_means_distinct (sel : list Entry) (w : nat) :
  (1 <= w)%nat ->
  List.NoDup (map date sel) ->
  length (recorded_means sel w) = (length sel + 1 - w)%nat
  /\ forall k e, sel !! (k + w - 1)%nat = Some e ->
       recorded_means sel w !! k
       = Some (date e, mean (window_ending (map value sel) w (k + w - 1))).
Proof.
  intros Hw Hdates. unfold recorded_means.
  rewrite filter_seq_from by exact Hw.
  rewrite record_mean_fresh; [|exact Hdates|apply NoDup_ListNoDup, NoDup_seq| |].
  - cbn [app]. set (n := length sel).
    assert (G : forall a m, (m = 0 \/ a + m <= n)%nat ->
      flat_map (fun i => match sel !! i with
                         | Some e => [(date e, mean (window_ending (map value sel) w i))]
                         | None => []
                         end) (seq a m)
      = map (fun i => match sel !! i with
                      | Some e => (date e, mean (window_ending (map value sel) w i))
                      | None => (EmptyString, 0%float)
                      end) (seq a m)).
    { intros a m. revert a. induction m as [|m IH]; intros a Ha; [reflexivity|].
      cbn [seq flat_map map]. rewrite IH by lia.
      destruct (sel !! a) eqn:Ea; [reflexivity|].
      apply lookup_ge_None in Ea. unfold n in Ha. lia. }
    rewrite G by lia. split; [now rewrite length_map, length_seq|].
    intros k e He.
    pose proof (lookup_lt_Some _ _ _ He) as Hk. fold n in Hk.
    change (map ?f (seq ?a ?m)) with (f <$> seq a m).
    etransitivity; [apply list_lookup_fmap|].
    rewrite lookup_seq_lt by lia.
    cbn [fmap option_fmap option_map].
    replace (w - 1 + k)%nat with (k + w - 1)%nat by lia. now rewrite He.
  - intros i Hi. apply in_seq in Hi. lia.
  - intros i e _ _ [].
Qed.

(** X15: when the entries of the metric have pairwise different dates,
    nothing is overwritten: [moving_average] returns one pair for every
    position of the sorted selection from [window - 1] on, in that order,
    the [k]-th pair being the date of the entry at position
    [k + window - 1] with the mean of the window that ends there. *)
Theorem moving_average_distinct_dates (entries : list Entry)
    (metric_s : string) (window : Z) :
  let sel :=
    py_sorted date
      (filter (fun e => metric e = normalize metric_s) entries) in
  let w := Z.to_nat window in
  1 <= window ->
  List.NoDup
    (map date (filter (fun e => metric e = normalize metric_s) entries)) ->
  exists results,
    moving_average entries metric_s window = ret results
    /\ length results = (length sel + 1 - w)%nat
    /\ forall k e, sel !! (k + w - 1)%nat = Some e ->
         results !! k
         = Some (date e, mean (window_ending (map value sel) w (k + w - 1))).
Proof.
  intros sel w Hw Hnd. exists (recorded_means sel w).
  split; [now apply moving_average_eq|].
  apply recorded_means_distinct; [unfold w; lia|].
  apply (Permutation_NoDup (l := map date
           (filter (fun e => metric e = normalize metric_s) entries)));
    [|exact Hnd].
  apply Permutation_map. symmetry. apply py_sorted_perm.
Qed.

Lemma moving_average_distinct_dates_witness :
  1 <= 3
  /\ List.NoDup
       (map date (filter (fun e => metric e = normalize "weight") make_sample))
  /\ exists results,
       moving_average make_sample "weight" 3 = ret results
       /\ length results = 5%nat
       /\ results !! 0%nat
          = Some ("2025-09-03", mean [70; 71; 70.5]%float).
Proof.
  assert (Hnd : List.NoDup
            (map date (filter (fun e => metric e = normalize "weight") make_sample))).
  { vm_compute.
    repeat (constructor; [simpl; intuition discriminate|]). constructor. }
  split; [lia|]. split; [exact Hnd|].
  destruct (moving_average_distinct_dates make_sample "weight" 3
              ltac:(lia) Hnd) as (results & Hr & Hlen & Hk).
  exists results. split; [exact Hr|]. split; [exact Hlen|].
  exact (Hk 0%nat (mkEntry "2025-09-03" "weight" 70.5) eq_refl).
Defined.

(** ** [main] *)

Lemma py_sorted_id {A} (key : A -> string) (l : list A) :
  Sorted (fun a b => String.ltb (key b) (key a) = false) l ->
  py_sorted key l = l.
Proof.
  induction 1 as [|x l Hs IH Hhd]; [reflexivity|].
  simpl. rewrite IH. destruct Hhd as [|y l' Hxy]; [reflexivity|].
  simpl. now rewrite Hxy.
Qed.

Lemma strftime_inj (dt dt' : datetime) :
  1 <= dt <= MAXORDINAL -> 1 <= dt' <= MAXORDINAL ->
  strftime dt = strftime dt' -> dt = dt'.
Proof.
  intros H H' Heq. pose proof (parse_date_strftime dt H) as P.
  rewrite Heq, (parse_date_strftime dt' H') in P. congruence.
Qed.

Lemma strftime_ltb_false (dt dt' : datetime) :
  1 <= dt <= MAXORDINAL -> 1 <= dt' <= MAXORDINAL -> dt <= dt' ->
  String.ltb (strftime dt') (strftime dt) = false.
Proof.
  intros H H' Hle.
  destruct (String.ltb (strftime dt') (strftime dt)) eqn:E; [|reflexivity].
  apply (iso_date_ltb _ _ dt' dt) in E; [lia| |]; now apply iso_date_strftime.
Qed.

Section MainProofs.

Variable float_of_str : string -> option float.
Variable float_repr : float -> string.
Variable format_2f : float -> string.
Variable can_open : string -> bool.

Lemma demo_step_ret (today : datetime) (sample : list Entry) (i : Z)
    (val : pyvalue) (f : float) :
  7 <= today <= MAXORDINAL -> 0 <= i <= 6 ->
  py_float float_of_str val = ret f ->
  demo_step float_of_str today sample (i, val)
  = (sample ++ [mkEntry (strftime (today - (6 - i))) "weight" f], ret tt).
Proof.
  intros Ht Hi Hf. unfold demo_step.
  rewrite sub_days_ret by lia. unfold add_entry, ret at 1. cbv iota beta.
  assert (Hp : strptime (strftime (today - (6 - i))) = ret (today - (6 - i))).
  { apply strptime_ret, parse_date_strftime. lia. }
  rewrite Hp, Hf. reflexivity.
Qed.

Lemma demo_loop (today : datetime) :
  7 <= today <= MAXORDINAL ->
  for_each (demo_step float_of_str today) (enumerate demo_values) []
  = (demo_sample today, ret tt).
Proof.
  intros Ht.
  change (enumerate demo_values) with
    [(0, VInt 70); (1, VInt 71); (2, VFloat 70.5); (3, VInt 69);
     (4, VFloat 68.5); (5, VFloat 0x1.14ccccccccccdp+6); (6, VInt 70)].
  cbn [for_each].
  rewrite (demo_step_ret today _ 0 _ 70) by (try lia; reflexivity).
  rewrite (demo_step_ret today _ 1 _ 71) by (try lia; reflexivity).
  rewrite (demo_step_ret today _ 2 _ 70.5) by (try lia; reflexivity).
  rewrite (demo_step_ret today _ 3 _ 69) by (try lia; reflexivity).
  rewrite (demo_step_ret today _ 4 _ 68.5) by (try lia; reflexivity).
  rewrite (demo_step_ret today _ 5 _ 0x1.14ccccccccccdp+6) by (try lia; reflexivity).
  rewrite (demo_step_ret today _ 6 _ 70) by (try lia; reflexivity).
  reflexivity.
Qed.

Lemma demo_sample_selected (today : datetime) :
  7 <= today <= MAXORDINAL ->
  py_sorted date
    (filter (fun e => metric e = normalize "weight") (demo_sample today))
  = demo_sample today.
Proof.
  intros Ht. unfold demo_sample.
  repeat rewrite filter_cons_True by reflexivity. rewrite filter_nil.
  apply py_sorted_id.
  repeat constructor; cbn [date]; apply strftime_ltb_false; lia.
Qed.

Lemma demo_moving_average (today : datetime) :
  7 <= today <= MAXORDINAL ->
  moving_average (demo_sample today) "weight" 3
  = ret [ (strftime (today - 4), mean [70; 71; 70.5]%float);
          (strftime (today - 3), mean [71; 70.5; 69]%float);
          (strftime (today - 2), mean [70.5; 69; 68.5]%float);
          (strftime (today - 1), mean [69; 68.5; 0x1.14ccccccccccdp+6]%float);
          (strftime (today - 0), mean [68.5; 0x1.14ccccccccccdp+6; 70]%float) ].
Proof.
  intros Ht. rewrite moving_average_eq by lia.
  rewrite demo_sample_selected by exact Ht.
  change (Z.to_nat 3) with 3%nat.
  assert (Hd : forall a b, 0 <= a <= 6 -> 0 <= b <= 6 -> a <> b ->
                           strftime (today - a) <> strftime (today - b)).
  { intros a b Ha Hb Hab Heq. apply strftime_inj in Heq; lia. }
  assert (H43 := Hd 4 3 ltac:(lia) ltac:(lia) ltac:(lia)).
  assert (H42 := Hd 4 2 ltac:(lia) ltac:(lia) ltac:(lia)).
  assert (H41 := Hd 4 1 ltac:(lia) ltac:(lia) ltac:(lia)).
  assert (H40 := Hd 4 0 ltac:(lia) ltac:(lia) ltac:(lia)).
  assert (H32 := Hd 3 2 ltac:(lia) ltac:(lia) ltac:(lia)).
  assert (H31 := Hd 3 1 ltac:(lia) ltac:(lia) ltac:(lia)).
  assert (H30 := Hd 3 0 ltac:(lia) ltac:(lia) ltac:(lia)).
  assert (H21 := Hd 2 1 ltac:(lia) ltac:(lia) ltac:(lia)).
  assert (H20 := Hd 2 0 ltac:(lia) ltac:(lia) ltac:(lia)).
  assert (H10 := Hd 1 0 ltac:(lia) ltac:(lia) ltac:(lia)).
  clear Hd. unfold demo_sample.
  set (d0 := strftime (today - 0)) in *. set (d1 := strftime (today - 1)) in *.
  set (d2 := strftime (today - 2)) in *. set (d3 := strftime (today - 3)) in *.
  set (d4 := strftime (today - 4)) in *. set (d5 := strftime (today - 5)) in *.
  set (d6 := strftime (today - 6)) in *.
  clearbody d0 d1 d2 d3 d4 d5 d6.
  unfold recorded_means. cbn [length].
  change (filter _ (seq 0 7)) with [2; 3; 4; 5; 6]%nat.
  cbn [fold_left]. unfold record_mean.
  cbn [lookup list_lookup date map value].
  rewrite (dict_set_snoc d4) by (simpl; intuition congruence). cbn [app].
  rewrite (dict_set_snoc d3) by (simpl; intuition congruence). cbn [app].
  rewrite (dict_set_snoc d2) by (simpl; intuition congruence). cbn [app].
  rewrite (dict_set_snoc d1) by (simpl; intuition congruence). cbn [app].
  rewrite (dict_set_snoc d0) by (simpl; intuition congruence). cbn [app].
  reflexivity.
Qed.

Lemma demo_sample_dates (today : datetime) :
  Forall (fun e => exists k, 0 <= k <= 6 /\ date e = strftime (today - k))
         (demo_sample today).
Proof. repeat constructor; eexists; (split; [|reflexivity]); lia. Qed.

Lemma in_week_demo (today k : Z) (v : float) :
  7 <= today <= MAXORDINAL -> 0 <= k <= 6 ->
  in_week (normalize "weight") (today - 0)
    (mkEntry (strftime (today - k)) "weight" v).
Proof.
  intros Ht Hk. unfold in_week. cbn [metric date].
  rewrite parse_date_strftime by lia.
  rewrite bool_decide_eq_true_2 by reflexivity.
  apply andb_prop_intro. split; [exact I|].
  apply andb_prop_intro. split; apply Is_true_eq_left, Z.leb_le; lia.
Qed.

Lemma demo_summary (today : datetime) :
  7 <= today <= MAXORDINAL ->
  summarize_week (demo_sample today) "weight" None
  = ret (summary_of
           [70; 71; 70.5; 69; 68.5; 0x1.14ccccccccccdp+6; 70]%float).
Proof.
  intros Ht. pose proof (demo_sample_dates today) as Hd.
  rewrite Forall_forall in Hd.
  rewrite (summarize_week_default_latest (demo_sample today) "weight"
             (mkEntry (strftime (today - 0)) "weight" 70) (today - 0)).
  - unfold week_values, demo_sample.
    repeat rewrite filter_cons_True by (apply in_week_demo; [exact Ht|lia]).
    reflexivity.
  - unfold demo_sample. do 6 right. left.
  - intros e' He'. destruct (Hd e' He') as (k & Hk & ->).
    rewrite parse_date_strftime by lia. discriminate.
  - apply parse_date_strftime. lia.
  - intros e' dt' He' Hdt'. destruct (Hd e' He') as (k & Hk & Hk').
    rewrite Hk', parse_date_strftime in Hdt' by lia.
    injection Hdt' as <-. lia.
  - lia.
Qed.

Lemma main_eq (today : datetime) (w : world) :
  7 <= today <= MAXORDINAL ->
  let d k := strftime (today - k) in
  let values := [70; 71; 70.5; 69; 68.5; 0x1.14ccccccccccdp+6; 70]%float in
  let printed :=
    stdout w ++
    [ banner;
      text "Created 7 sample entries (weight).";
      text "Moving averages (window=3):";
      text ("  " ++ d 4 ++ ": " ++ format_2f (mean [70; 71; 70.5]%float));
      text ("  " ++ d 3 ++ ": " ++ format_2f (mean [71; 70.5; 69]%float));
      text ("  " ++ d 2 ++ ": " ++ format_2f (mean [70.5; 69; 68.5]%float));
      text ("  " ++ d 1 ++ ": "
            ++ format_2f (mean [69; 68.5; 0x1.14ccccccccccdp+6]%float));
      text ("  " ++ d 0 ++ ": "
            ++ format_2f (mean [68.5; 0x1.14ccccccccccdp+6; 70]%float));
      text "7-day summary:";
      text "  count: 7";
      text ("  min: " ++ float_repr 68.5%float);
      text ("  max: " ++ float_repr 71%float);
      text ("  mean: " ++ float_repr (mean values));
      text ("  values: [" ++ String.concat ", " (map float_repr values) ++ "]")
    ]%string in
  main float_of_str float_repr format_2f can_open today w
  = if can_open "health_entries.csv"
    then (mkWorld
            (printed ++ [text "Exported entries to health_entries.csv"])
            (dict_set "health_entries.csv"
               (csv_text float_repr (demo_sample today)) (files w)),
          ret tt)
    else (mkWorld printed (files w), raise OSError).
Proof.
  intros Ht d values printed. unfold main.
  rewrite demo_loop by exact Ht.
  rewrite demo_moving_average by exact Ht.
  rewrite demo_summary by exact Ht.
  unfold export_csv, py_open.
  change (has_nul "health_entries.csv") with false. cbv iota.
  unfold ret, raise. cbv beta iota.
  destruct (can_open "health_entries.csv"); unfold print, printed;
    cbn [fold_left stdout files summary_of length]; repeat rewrite <- app_assoc;
    reflexivity.
Qed.


(** X14: run on a day [today] from 1000-01-07 on, [main] prints its
    banner, the count of the seven entries it builds for the days
    [today - 6 .. today], the five moving averages of window 3 under the
    dates of the last five days, and the summary of all seven values. If
    [health_entries.csv] can be opened, it then writes the seven entries
    there, leaves every other file alone, prints the closing line and
    returns; the file holds the text of the export of the seven entries
    and reads back as the header and seven rows (the reader raises instead
    if the text of one of the values were longer than its field size
    limit). If the file cannot be opened, the [OSError] leaves [main]
    after the summary has been printed, and no file has changed. *)
Theorem main_run (today : datetime) (w : world) :
  ymd2ord 1000 1 7 <= today <= MAXORDINAL ->
  let d k := strftime (today - k) in
  let values := [70; 71; 70.5; 69; 68.5; 0x1.14ccccccccccdp+6; 70]%float in
  let printed :=
    stdout w ++
    [ banner;
      text "Created 7 sample entries (weight).";
      text "Moving averages (window=3):";
      text ("  " ++ d 4 ++ ": " ++ format_2f (mean [70; 71; 70.5]%float));
      text ("  " ++ d 3 ++ ": " ++ format_2f (mean [71; 70.5; 69]%float));
      text ("  " ++ d 2 ++ ": " ++ format_2f (mean [70.5; 69; 68.5]%float));
      text ("  " ++ d 1 ++ ": "
            ++ format_2f (mean [69; 68.5; 0x1.14ccccccccccdp+6]%float));
      text ("  " ++ d 0 ++ ": "
            ++ format_2f (mean [68.5; 0x1.14ccccccccccdp+6; 70]%float));
      text "7-day summary:";
      text "  count: 7";
      text ("  min: " ++ float_repr 68.5%float);
      text ("  max: " ++ float_repr 71%float);
      text ("  mean: " ++ float_repr (mean values));
      text ("  values: [" ++ String.concat ", " (map float_repr values) ++ "]")
    ]%string in
  let run := main float_of_str float_repr format_2f can_open today w in
  (can_open "health_entries.csv" = true ->
   run.2 = ret tt
   /\ stdout run.1
      = printed ++ [text "Exported entries to health_entries.csv"]
   /\ dict_get "health_entries.csv" (files run.1)
      = Some (csv_text float_repr (demo_sample today))
   /\ read_csv (files run.1) "health_entries.csv"
      = (if forallb (fun v => fits FIELD_LIMIT (float_repr v)) values
         then
           ret [ ["date"; "metric"; "value"];
                 [d 6; "weight"; float_repr 70%float];
                 [d 5; "weight"; float_repr 71%float];
                 [d 4; "weight"; float_repr 70.5%float];
                 [d 3; "weight"; float_repr 69%float];
                 [d 2; "weight"; float_repr 68.5%float];
                 [d 1; "weight"; float_repr 0x1.14ccccccccccdp+6%float];
                 [d 0; "weight"; float_repr 70%float] ]
         else raise CsvError)
   /\ forall other, other <> "health_entries.csv" ->
        dict_get other (files run.1) = dict_get other (files w))
  /\ (can_open "health_entries.csv" = false ->
      run = (mkWorld printed (files w), raise OSError)).
Proof.
  change (ymd2ord 1000 1 7) with 364884.
  intros Ht0 d values printed run.
  assert (Ht : 7 <= today <= MAXORDINAL) by lia.
  pose proof (main_eq today w Ht) as E. cbv zeta in E. fold run in E.
  split; intros Hopen; rewrite Hopen in E; [|exact E].
  rewrite E. cbn [fst snd stdout files].
  split; [reflexivity|]. split; [reflexivity|].
  split; [now rewrite dict_get_set, decide_True by reflexivity|]. split.
  - rewrite read_csv_exported.
    assert (Hfit : forall k, 0 <= k <= 6 -> fits FIELD_LIMIT (d k) = true).
    { intros k Hk. unfold fits, d. rewrite strftime_length by lia.
      reflexivity. }
    unfold rows_fit, demo_sample, values.
    cbn [map forallb dict_to_list date metric value]. fold (d 6) (d 5) (d 4).
    fold (d 3) (d 2) (d 1) (d 0). rewrite !Hfit by lia.
    change (fits FIELD_LIMIT "weight") with true. cbn [andb].
    rewrite !andb_true_r. reflexivity.
  - intros other Hother. rewrite dict_get_set.
    now rewrite decide_False by congruence.
Qed.

End MainProofs.

Lemma main_run_witness :
  ymd2ord 1000 1 7 <= 739501 <= MAXORDINAL
  /\ let run :=
       main float_of_digits (fun _ => "70.0") (fun _ => "70.00")
         (fun _ => true) 739501 (mkWorld [] []) in
     run.2 = ret tt
     /\ read_csv (files run.1) "health_entries.csv"
        = ret [ ["date"; "metric"; "value"];
                ["2025-09-01"; "weight"; "70.0"];
                ["2025-09-02"; "weight"; "70.0"];
                ["2025-09-03"; "weight"; "70.0"];
                ["2025-09-04"; "weight"; "70.0"];
                ["2025-09-05"; "weight"; "70.0"];
                ["2025-09-06"; "weight"; "70.0"];
                ["2025-09-07"; "weight"; "70.0"] ].
Proof.
  assert (H : ymd2ord 1000 1 7 <= 739501 <= MAXORDINAL)
    by (change (ymd2ord 1000 1 7) with 364884; unfold MAXORDINAL; lia).
  split; [exact H|].
  destruct (main_run float_of_digits (fun _ => "70.0") (fun _ => "70.00")
              (fun _ => true) 739501 (mkWorld [] []) H) as [Hok _].
  destruct (Hok eq_refl) as (Hret & _ & _ & Hread & _).
  split; [exact Hret|]. rewrite Hread. reflexivity.
Defined.
